(** * Synchronisation and event-distribution core of the backend

    A shallow embedding of
      - app/core/websockets.py   (WebSocketManager),
      - app/core/events.py       (EventManager),
      - app/services/plaid_service.py (PlaidService, the two read paths),
      - app/services/sync_service.py  (SyncService),
    followed by the properties established about them.

    Conventions.  Python dictionaries are finite maps ([gmap]), Python sets
    are finite sets ([gset]).  A coroutine is a function from the state
    before the call to the result and the state after it.  Where a call
    reads the state, awaits, and then acts on what it read, it is split at
    that [await] and the halves of different calls run in any order: that is
    [connect], in [WebSocketSteps], and a sync tick, in [SyncTicks].  What the
    outside world answers to an awaited call (token verification, the
    transport, the cache server, the aggregator) is an explicit argument.  A
    [try/except Exception] block is a match on an [outcome].  Monetary amounts
    only ever enter through equality tests and are taken as integers.

    Left out: the polling loops [_start_redis_subscriber] and
    [_monitor_connections] of [WebSocketManager]; time-to-live of cache
    entries. *)

From Stdlib Require Import ZArith Lia.
From stdpp Require Import base option list gmap sets strings.

Open Scope string_scope.
Open Scope list_scope.

(** ** Shared vocabulary *)

Inductive exn :=
  | ValueError | TypeError | KeyError | AttributeError | RuntimeError
  | ConnectionClosed | TimeoutError | ApiException | AuthError | TransportError.

Inductive outcome (A : Type) :=
  | Return (a : A)
  | Raise (e : exn).
Arguments Return {A} a.
Arguments Raise {A} e.

(** Python truthiness of the values that the code tests with [if x] or
    [x or default]. *)
Definition truthy_str (s : string) : bool := negb (String.eqb s "").

Definition truthy_list {A} (l : list A) : bool :=
  match l with [] => false | _ :: _ => true end.

Definition truthy_opt_list {A} (o : option (list A)) : bool :=
  match o with None => false | Some l => truthy_list l end.

(** One entry of [PlaidService.get_balances]. *)
Record balance := {
  account_id : string;
  current : option Z;
  available : option Z;
  limit : option Z;
  last_updated : string
}.

(** One entry of [PlaidService.sync_transactions]. *)
Record transaction := {
  tx_id : string;
  tx_account_id : string;
  tx_amount : Z;
  tx_date : string;
  tx_name : string;
  tx_merchant_name : option string;
  tx_category : list string;
  tx_pending : bool
}.

#[global] Instance balance_eq_dec : EqDecision balance.
Proof. solve_decision. Defined.

#[global] Instance transaction_eq_dec : EqDecision transaction.
Proof. solve_decision. Defined.

(** Event payloads built in this code base. *)
Inductive payload :=
  | PAccount (user_id : string) (balances : list balance)
  | PTransactions (user_id : string) (transactions : list transaction)
  | PData (body : string).

(** A [WebSocket] object; sets of them are compared by identity. *)
Definition ws := nat.

(** How an awaited call on the managers' cache ends.  The third case is
    that of a cache whose methods are plain functions, as those of
    core/cache.py are: the call does its work and awaiting its result raises
    TypeError. *)
Inductive cache_answer :=
  | CacheDone
  | CacheRaises
  | CacheWrittenThenRaises.

(** How [websocket.send_json] ends: it completes, or raises
    ConnectionClosed, or raises something else. *)
Inductive send_answer :=
  | Sent
  | SendClosed
  | SendFails.

(** Answers of the outside world to the awaited calls of the two managers. *)
Record io := {
  io_verify : string -> outcome (option string);
    (* verify_token(token), then payload.get('sub') *)
  io_accept : ws -> bool;      (* websocket.accept() completes *)
  io_send : ws -> send_answer; (* websocket.send_json(...) *)
  io_close : ws -> bool;       (* websocket.close() completes *)
  io_cache : string -> cache_answer;  (* the awaited cache call on this key *)
  io_dumps : payload -> bool;  (* json.dumps accepts the payload *)
  io_now : string              (* rendering of the clock *)
}.

(** ** app/core/websockets.py *)

Module WebSocketManager.

Definition PING_INTERVAL : Z := 30.
Definition PING_TIMEOUT : Z := 10.
Definition MAX_CONNECTIONS_PER_USER : nat := 5.
Definition CONNECTION_PREFIX : string := "ws_conn".
Definition EVENT_CHANNEL_PREFIX : string := "ws_events".

(** The message written by [broadcast] and read by [_distribute_message].
    A key that is absent from the dictionary reads as [None]. *)
Record ws_payload := {
  event : option string;
  data : payload;
  timestamp : string;
  user_ids : option (list string)
}.

(** Values the manager keeps in the cache. *)
Inductive stored :=
  | SConn (user_id : string) (subscriptions : list string)
  | SPayload (p : ws_payload).

Record state := {
  _connections : gmap string (gset ws);
  _subscriptions : gmap string (gset string);
  _cache : gmap string stored
}.

Definition init : state :=
  {| _connections := ∅; _subscriptions := ∅; _cache := ∅ |}.

Definition set_connections (c : gmap string (gset ws)) (st : state) : state :=
  {| _connections := c; _subscriptions := _subscriptions st; _cache := _cache st |}.

Definition set_subscriptions (s : gmap string (gset string)) (st : state) : state :=
  {| _connections := _connections st; _subscriptions := s; _cache := _cache st |}.

Definition set_cache (c : gmap string stored) (st : state) : state :=
  {| _connections := _connections st; _subscriptions := _subscriptions st; _cache := c |}.

Definition create_connection_id (now : string) (user_id : string) : string :=
  CONNECTION_PREFIX +:+ ":" +:+ user_id +:+ ":" +:+ now.

(** [len(self._connections[user_id])], for a registered user. *)
Definition connection_count (st : state) (user_id : string) : nat :=
  match _connections st !! user_id with
  | Some conns => size conns
  | None => 0
  end.

(** [connect] has one suspension point before it touches the registry,
    [await websocket.accept()]: the cap is tested before it and the
    connection is added after it, without a second test.  The call is
    therefore two steps.  A call that has passed the token and the cap test
    and waits for the handshake holds its connection and user id and the
    connection id made from the clock. *)
Record pending_connect := {
  pc_websocket : ws;
  pc_user_id : string;
  pc_conn_id : string
}.

(** [connect] up to [await websocket.accept()]; [None] when the call has
    returned False. *)
Definition connect_check (e : io) (websocket : ws) (token : string) (st : state)
  : option pending_connect :=
  match io_verify e token with
  | Raise _ => None
  | Return None => None
  | Return (Some user_id) =>
    if negb (truthy_str user_id) then None
    else if match _connections st !! user_id with
            | Some conns => bool_decide (MAX_CONNECTIONS_PER_USER ≤ size conns)%nat
            | None => false
            end
    then None
    else Some {| pc_websocket := websocket; pc_user_id := user_id;
                 pc_conn_id := create_connection_id (io_now e) user_id |}
  end.

(** [connect] from the return of [websocket.accept()] on, in the state the
    manager has by then.  The heartbeat task that [connect] starts last is
    [_monitor_heartbeat] below; its rounds are calls of their own in a run. *)
Definition connect_register (e : io) (p : pending_connect) (st : state)
  : bool * state :=
  if negb (io_accept e (pc_websocket p)) then (false, st)
  else
    let conns := default ∅ (_connections st !! pc_user_id p) in
    let st1 := set_connections
                 (<[pc_user_id p := conns ∪ {[pc_websocket p]}]> (_connections st))
                 st in
    let key := CONNECTION_PREFIX +:+ ":" +:+ pc_conn_id p in
    let written := set_cache (<[key := SConn (pc_user_id p) []]> (_cache st1)) st1 in
    match io_cache e key with
    | CacheDone => (true, written)
    | CacheRaises => (false, st1)
    | CacheWrittenThenRaises => (false, written)
    end.

(** A call of [connect] during which no other call of the manager runs:
    the two steps back to back. *)
Definition connect (e : io) (websocket : ws) (token : string) (st : state)
  : bool * state :=
  match connect_check e websocket token st with
  | None => (false, st)
  | Some p => connect_register e p st
  end.

Definition disconnect (e : io) (websocket : ws) (user_id : string) (st : state)
  : bool * state :=
  match
    match _connections st !! user_id with
    | None => Return st
    | Some conns =>
      if bool_decide (websocket ∈ conns) then
        let conns' := conns ∖ {[websocket]} in
        Return (set_connections
                  (if bool_decide (conns' = ∅)
                   then delete user_id (_connections st)
                   else <[user_id := conns']> (_connections st)) st)
      else Raise KeyError
    end
  with
  | Raise _ => (false, st)
  | Return st1 =>
    let st2 := set_subscriptions (delete user_id (_subscriptions st1)) st1 in
    let key := CONNECTION_PREFIX +:+ ":" +:+ create_connection_id (io_now e) user_id in
    let st3 := set_cache (delete key (_cache st2)) st2 in
    match io_cache e key with
    | CacheDone => if negb (io_close e websocket) then (false, st3) else (true, st3)
    | CacheRaises => (false, st2)
    | CacheWrittenThenRaises => (false, st3)
    end
  end.

Definition broadcast (e : io) (event_type : string) (message : payload)
    (targets : option (list string)) (st : state) : bool * state :=
  let p := {| event := Some event_type;
              data := message;
              timestamp := io_now e;
              user_ids := if truthy_opt_list targets then targets else None |} in
  let channel := EVENT_CHANNEL_PREFIX +:+ ":" +:+ event_type in
  if negb (io_dumps e message) then (false, st)
  else
    let written := set_cache (<[channel := SPayload p]> (_cache st)) st in
    match io_cache e channel with
    | CacheDone => (true, written)
    | CacheRaises => (false, st)
    | CacheWrittenThenRaises => (false, written)
    end.

Definition valid_events : list string :=
  ["transaction"; "budget"; "goal"; "notification"].

Definition subscribe (e : io) (websocket : ws) (user_id : string)
    (event_types : list string) (st : state) : bool * state :=
  if negb (forallb (fun ev => bool_decide (ev ∈ valid_events)) event_types)
  then (false, st)
  else
    let subs := default ∅ (_subscriptions st !! user_id) in
    let subs' := subs ∪ list_to_set event_types in
    let st1 := set_subscriptions (<[user_id := subs']> (_subscriptions st)) st in
    let key := CONNECTION_PREFIX +:+ ":" +:+ create_connection_id (io_now e) user_id in
    let written :=
      set_cache (<[key := SConn user_id (elements subs')]> (_cache st1)) st1 in
    match io_cache e key with
    | CacheDone => (true, written)
    | CacheRaises => (false, st1)
    | CacheWrittenThenRaises => (false, written)
    end.

(** The two tests of the delivery loop, per user. *)
Definition targeted (p : ws_payload) (user_id : string) : bool :=
  negb (truthy_opt_list (user_ids p)
        && negb (bool_decide (user_id ∈ default [] (user_ids p)))).

Definition subscribed (st : state) (event_type user_id : string) : bool :=
  match _subscriptions st !! user_id with
  | Some types => bool_decide (event_type ∈ types)
  | None => false
  end.

(** Inner loop: [for websocket in connections].  A send that raises
    ConnectionClosed runs [disconnect], which shrinks the set being iterated;
    the iteration then stops with RuntimeError.  Neither that nor any other
    exception of a send is caught in [_distribute_message]. *)
Fixpoint send_to_connections (e : io) (user_id : string) (conns : list ws)
    (st : state) (sent : list (string * ws))
  : outcome unit * state * list (string * ws) :=
  match conns with
  | [] => (Return (), st, sent)
  | websocket :: rest =>
    match io_send e websocket with
    | Sent =>
      send_to_connections e user_id rest st (sent ++ [(user_id, websocket)])
    | SendClosed =>
      (Raise RuntimeError, (disconnect e websocket user_id st).2, sent)
    | SendFails => (Raise TransportError, st, sent)
    end
  end.

(** Outer loop: [for user_id, connections in self._connections.items()]. *)
Fixpoint distribute_users (e : io) (p : ws_payload) (event_type : string)
    (users : list (string * gset ws)) (st : state) (sent : list (string * ws))
  : outcome unit * state * list (string * ws) :=
  match users with
  | [] => (Return (), st, sent)
  | (user_id, conns) :: rest =>
    if negb (targeted p user_id) then distribute_users e p event_type rest st sent
    else if subscribed st event_type user_id then
      match send_to_connections e user_id (elements conns) st sent with
      | (Return _, st', sent') => distribute_users e p event_type rest st' sent'
      | r => r
      end
    else distribute_users e p event_type rest st sent
  end.

(** Returns the outcome, the state afterwards and the log of the
    [send_json] calls that completed, as (user, connection) pairs.  The
    dictionary and the sets are walked in the order of [map_to_list] and
    [elements]; the order shows only when a send fails. *)
Definition _distribute_message (e : io) (p : ws_payload) (st : state)
  : outcome unit * state * list (string * ws) :=
  match event p with
  | None => (Return (), st, [])
  | Some event_type =>
    if negb (truthy_str event_type) then (Return (), st, [])
    else distribute_users e p event_type (map_to_list (_connections st)) st []
  end.

(** What [asyncio.wait_for(websocket.receive_json(), timeout=PING_TIMEOUT)]
    can come back with. *)
Record client_message := { msg_type : string }.

Inductive wait_result :=
  | Received (m : client_message)
  | TimedOut
  | WaitClosed
  | WaitFailed.

(** One turn of the [while True] loop of [_monitor_heartbeat]: the result
    tells whether the loop goes on ([true]) or breaks. *)
Definition heartbeat_round (e : io) (websocket : ws) (user_id : string)
    (w : wait_result) (st : state) : bool * state :=
  match io_send e websocket with
  | SendClosed | SendFails => (false, (disconnect e websocket user_id st).2)
  | Sent =>
    match w with
    | Received _ => (true, st)
    | TimedOut | WaitClosed | WaitFailed =>
      (false, (disconnect e websocket user_id st).2)
    end
  end.

(** The loop itself, over the answers of successive rounds. *)
Fixpoint _monitor_heartbeat (e : io) (websocket : ws) (user_id : string)
    (rounds : list wait_result) (st : state) : bool * state :=
  match rounds with
  | [] => (true, st)
  | w :: rest =>
    match heartbeat_round e websocket user_id w st with
    | (true, st') => _monitor_heartbeat e websocket user_id rest st'
    | stop => stop
    end
  end.

(** The calls a manager can receive, and a run of them from a state, each
    call with the answers the outside world gives during it. *)
Inductive op :=
  | Connect (websocket : ws) (token : string)
  | Disconnect (websocket : ws) (user_id : string)
  | Broadcast (event_type : string) (message : payload)
      (targets : option (list string))
  | Subscribe (websocket : ws) (user_id : string) (event_types : list string)
  | Distribute (p : ws_payload)
  | Heartbeat (websocket : ws) (user_id : string) (w : wait_result).

Definition run_op (e : io) (o : op) (st : state) : state :=
  match o with
  | Connect websocket token => (connect e websocket token st).2
  | Disconnect websocket user_id => (disconnect e websocket user_id st).2
  | Broadcast event_type message targets =>
    (broadcast e event_type message targets st).2
  | Subscribe websocket user_id event_types =>
    (subscribe e websocket user_id event_types st).2
  | Distribute p => (_distribute_message e p st).1.2
  | Heartbeat websocket user_id w => (heartbeat_round e websocket user_id w st).2
  end.

Fixpoint run (calls : list (io * op)) (st : state) : state :=
  match calls with
  | [] => st
  | (e, o) :: rest => run rest (run_op e o st)
  end.

(** The bound on the registry. *)
Definition within_cap (st : state) : Prop :=
  forall user_id, (connection_count st user_id <= MAX_CONNECTIONS_PER_USER)%nat.

(** Whether a connection is in the registry under a user. *)
Definition registered (st : state) (user_id : string) (websocket : ws) : Prop :=
  exists conns, _connections st !! user_id = Some conns /\ websocket ∈ conns.

(** The sends one registry entry is due when every send completes. *)
Definition due (p : ws_payload) (event_type : string) (st : state)
    (entry : string * gset ws) : list (string * ws) :=
  if targeted p entry.1 && subscribed st event_type entry.1
  then map (pair entry.1) (elements entry.2)
  else [].

(** The heartbeat reply on the wire, [{"type": "pong"}]. *)
Definition is_pong (m : client_message) : bool := String.eqb (msg_type m) "pong".

End WebSocketManager.

(** ** app/core/events.py *)

Module EventManager.

(** The dictionary [EVENT_TYPES], in source order. *)
Definition EVENT_TYPES : list (string * string) :=
  [("ACCOUNT_UPDATE", "account.update");
   ("TRANSACTION_CREATE", "transaction.create");
   ("BUDGET_UPDATE", "budget.update");
   ("GOAL_UPDATE", "goal.update");
   ("INVESTMENT_UPDATE", "investment.update")].

Definition EVENT_TTL : Z := 3600.
Definition EVENT_CHANNEL_PREFIX : string := "events".

(** [EVENT_TYPES.values()] *)
Definition event_type_values : list string := EVENT_TYPES.*2.

Definition create_event_channel (event_type : string) : outcome string :=
  if bool_decide (event_type ∈ event_type_values)
  then Return (EVENT_CHANNEL_PREFIX +:+ ":" +:+ event_type)
  else Raise ValueError.

(** The event as it is written to the cache and parsed back; a missing
    ['type'] key reads as [None]. *)
Record event_message := {
  type : option string;
  payload_of : payload;
  timestamp : string;
  target_users : option (list string)
}.

Record state := {
  _ws_manager : WebSocketManager.state;
  _subscriptions : gmap string (gset string);
  _cache : gmap string event_message
}.

Definition init : state :=
  {| _ws_manager := WebSocketManager.init; _subscriptions := ∅; _cache := ∅ |}.

Definition publish_event (e : io) (event_type : string) (message : payload)
    (targets : option (list string)) (st : state) : bool * state :=
  if negb (bool_decide (event_type ∈ event_type_values)) then (false, st)
  else
    let event_message :=
      {| type := Some event_type; payload_of := message;
         timestamp := io_now e; target_users := targets |} in
    match create_event_channel event_type with
    | Raise _ => (false, st)
    | Return channel =>
      if negb (io_dumps e message) then (false, st)
      else
        let written ws' :=
          {| _ws_manager := ws'; _subscriptions := _subscriptions st;
             _cache := <[channel := event_message]> (_cache st) |} in
        match io_cache e channel with
        | CacheDone =>
          (true, written (WebSocketManager.broadcast e event_type message targets
                            (_ws_manager st)).2)
        | CacheRaises => (false, st)
        | CacheWrittenThenRaises => (false, written (_ws_manager st))
        end
    end.

(** The set built by the loop of [handle_event]. *)
Definition subscribers (st : state) (event_type : string)
    (targets : option (list string)) : gset string :=
  dom (filter (fun kv : string * gset string =>
                 event_type ∈ kv.2
                 ∧ (truthy_opt_list targets = false ∨ kv.1 ∈ default [] targets))
              (_subscriptions st)).

Definition handle_event (e : io) (m : event_message) (st : state) : state :=
  match type m with
  | None => st
  | Some event_type =>
    if negb (truthy_str event_type) then st
    else
      let subs := subscribers st event_type (target_users m) in
      if bool_decide (subs = ∅) then st
      else
        {| _ws_manager := (WebSocketManager.broadcast e event_type (payload_of m)
                             (Some (elements subs)) (_ws_manager st)).2;
           _subscriptions := _subscriptions st;
           _cache := _cache st |}
  end.

(** The closed set of known event types in the words of the specification,
    to be compared with [event_type_values]. *)
Definition spec_known_event_types : list string :=
  ["account.update"; "transaction.create"; "budget.update"; "goal.update";
   "investment.update"; "sync.failed"].

End EventManager.

(** ** app/services/plaid_service.py *)

Module PlaidService.

(** An entry of [response.accounts]. *)
Record account := {
  acc_account_id : string;
  acc_current : option Z;
  acc_available : option Z;
  acc_limit : option Z
}.

(** The answer of [transactions_sync]. *)
Record sync_response := {
  added : list transaction;
  modified : list transaction;
  removed : list string;
  next_cursor : string
}.

(** The aggregator and the token decryption, as seen by the service. *)
Record client := {
  decrypt_field : string -> outcome string;
  accounts_get : string -> outcome (list account);
  transactions_sync : string -> option string -> outcome sync_response
}.

(** The entry built for an account; the clock is read once per call. *)
Definition balance_of (now : string) (a : account) : balance :=
  {| account_id := acc_account_id a;
     current := acc_current a;
     available := acc_available a;
     limit := acc_limit a;
     last_updated := now |}.

Definition get_balances (c : client) (now : string) (access_token : string)
  : outcome (list balance) :=
  match decrypt_field c access_token with
  | Raise x => Raise x
  | Return decrypted_token =>
    match accounts_get c decrypted_token with
    | Raise x => Raise x
    | Return accounts => Return (map (balance_of now) accounts)
    end
  end.

Definition sync_transactions (c : client) (access_token : string)
    (cursor : option string) : outcome (list transaction * string) :=
  match decrypt_field c access_token with
  | Raise x => Raise x
  | Return decrypted_token =>
    match transactions_sync c decrypted_token cursor with
    | Raise x => Raise x
    | Return response => Return (added response, next_cursor response)
    end
  end.

End PlaidService.

(** ** app/services/sync_service.py *)

Module SyncService.

Definition SYNC_CURSOR_PREFIX : string := "sync_cursor:".
Definition DEFAULT_SYNC_INTERVAL : Z := 60.

(** The dictionary [schedule] of [schedule_sync]. *)
Record schedule := {
  sch_user_id : string;
  sch_access_tokens : list string;
  sch_interval : Z;
  sch_last_sync : option string
}.

(** What is stored under the prefix [sync_cursor:]: a cursor under a user
    id, the list of user ids under the literal [keys]. *)
Inductive cursor_entry :=
  | CStr (s : string)
  | CKeys (l : list string).

(** The module-level [cache].  The three key families [sync_cursor:...],
    [balances:...] and [sync_schedule:...] have different prefixes, so each is
    a map of its own, keyed by what follows the prefix.  Its [get] and [set]
    are plain calls which swallow the server's errors; expiry and server
    errors are not modelled.  The map holds what was stored.  [get] passes a
    stored string through [json.loads]: where a cursor is read back, at
    start-up, that is [SyncStartup.read_back].  [save_cursor_entries] below
    reads back the entry [keys] alone, a list unless a user is called [keys];
    the cursor of that user is taken there not to be a JSON document. *)
Record cache_store := {
  cursor_entries : gmap string cursor_entry;
  balance_entries : gmap string (list balance);
  schedule_entries : gmap string schedule
}.

(** A task of the event loop, created by [asyncio.create_task]. *)
Record task := {
  task_user : string;
  task_tokens : list string;
  task_interval : Z;
  task_cancelled : bool
}.

(** A call [publish_event(event_type, payload, user_ids)] and its answer. *)
Record publish_call := {
  call_type : string;
  call_payload : payload;
  call_user_ids : option (list string);
  call_result : bool
}.

Record state := {
  _sync_cursors : gmap string string;
  _sync_tasks : gmap string nat;       (* user id to task *)
  cache : cache_store;
  _event_manager : EventManager.state;
  tasks : gmap nat task;               (* every task created so far *)
  published : list publish_call        (* calls made to publish_event, oldest first *)
}.

Definition empty_cache : cache_store :=
  {| cursor_entries := ∅; balance_entries := ∅; schedule_entries := ∅ |}.

Definition init : state :=
  {| _sync_cursors := ∅; _sync_tasks := ∅; cache := empty_cache;
     _event_manager := EventManager.init; tasks := ∅; published := [] |}.

Definition set_sync_cursors (c : gmap string string) (st : state) : state :=
  {| _sync_cursors := c; _sync_tasks := _sync_tasks st; cache := cache st;
     _event_manager := _event_manager st; tasks := tasks st;
     published := published st |}.

Definition set_cache (c : cache_store) (st : state) : state :=
  {| _sync_cursors := _sync_cursors st; _sync_tasks := _sync_tasks st; cache := c;
     _event_manager := _event_manager st; tasks := tasks st;
     published := published st |}.

Definition set_tasks (reg : gmap string nat) (ts : gmap nat task) (st : state)
  : state :=
  {| _sync_cursors := _sync_cursors st; _sync_tasks := reg; cache := cache st;
     _event_manager := _event_manager st; tasks := ts;
     published := published st |}.

Definition set_cursor_entries (m : gmap string cursor_entry) (c : cache_store)
  : cache_store :=
  {| cursor_entries := m; balance_entries := balance_entries c;
     schedule_entries := schedule_entries c |}.

Definition set_balance_entries (m : gmap string (list balance)) (c : cache_store)
  : cache_store :=
  {| cursor_entries := cursor_entries c; balance_entries := m;
     schedule_entries := schedule_entries c |}.

Definition set_schedule_entries (m : gmap string schedule) (c : cache_store)
  : cache_store :=
  {| cursor_entries := cursor_entries c; balance_entries := balance_entries c;
     schedule_entries := m |}.

(** The awaited [self._event_manager.publish_event(...)]: the answer is
    dropped by both callers; the call is recorded. *)
Definition publish (e : io) (event_type : string) (message : payload)
    (targets : option (list string)) (st : state) : state :=
  let r := EventManager.publish_event e event_type message targets
             (_event_manager st) in
  {| _sync_cursors := _sync_cursors st; _sync_tasks := _sync_tasks st;
     cache := cache st; _event_manager := r.2; tasks := tasks st;
     published := published st ++
       [{| call_type := event_type; call_payload := message;
           call_user_ids := targets; call_result := r.1 |}] |}.

(** [needle in hay] on two strings. *)
Fixpoint substring_of (needle hay : string) : bool :=
  String.prefix needle hay
  || match hay with
     | EmptyString => false
     | String _ rest => substring_of needle rest
     end.

(** The cache half of [_save_sync_cursor]: the cursor is written under the
    user id, then the user id is added to the list kept under [keys].  The
    membership test and the [append] are those of a list when the entry
    [keys] holds one or is missing or empty; when it holds a non-empty string
    (the cursor of a user whose id is the literal [keys]) the test is a
    substring test and [append] does not exist. *)
Definition save_cursor_entries (key cursor : string)
    (entries : gmap string cursor_entry)
  : outcome unit * gmap string cursor_entry :=
  let written := <[key := CStr cursor]> entries in
  let append_to (cursor_keys : list string) :=
    if bool_decide (key ∈ cursor_keys) then (Return (), written)
    else (Return (), <["keys" := CKeys (cursor_keys ++ [key])]> written) in
  match written !! "keys" with
  | None => append_to []
  | Some (CKeys cursor_keys) => append_to cursor_keys
  | Some (CStr s) =>
    if negb (truthy_str s) then append_to []
    else if substring_of key s then (Return (), written)
    else (Raise AttributeError, written)
  end.

Definition _save_sync_cursor (user_id cursor : string) (st : state)
  : outcome unit * state :=
  let key := user_id in
  let st1 := set_sync_cursors (<[key := cursor]> (_sync_cursors st)) st in
  let r := save_cursor_entries key cursor (cursor_entries (cache st1)) in
  (r.1, set_cache (set_cursor_entries r.2 (cache st1)) st1).

Record account_sync_result := {
  as_user_id : string;
  as_balances : list balance;
  changes_detected : bool;
  as_sync_time : string
}.

Record transaction_sync_result := {
  ts_user_id : string;
  new_transactions : nat;
  ts_cursor : string;
  ts_sync_time : string
}.

(** What the service is given from outside: the aggregator client and the
    answers to the awaited calls; [io_now] is the clock. *)
Record env := {
  plaid : PlaidService.client;
  world : io
}.

Definition sync_account_data (en : env) (user_id access_token : string)
    (st : state) : outcome account_sync_result * state :=
  match PlaidService.get_balances (plaid en) (io_now (world en)) access_token with
  | Raise x => (Raise x, st)
  | Return balances =>
    let cached_balances := balance_entries (cache st) !! user_id in
    let result changed :=
      {| as_user_id := user_id; as_balances := balances;
         changes_detected := changed; as_sync_time := io_now (world en) |} in
    if negb (truthy_opt_list cached_balances)
       || negb (bool_decide (Some balances = cached_balances))
    then
      let st1 := set_cache (set_balance_entries
                              (<[user_id := balances]> (balance_entries (cache st)))
                              (cache st)) st in
      let st2 := publish (world en) "account.update" (PAccount user_id balances)
                   (Some [user_id]) st1 in
      (Return (result true), st2)
    else (Return (result false), st)
  end.

Definition sync_transactions (en : env) (user_id access_token : string)
    (st : state) : outcome transaction_sync_result * state :=
  let cursor := _sync_cursors st !! user_id in
  match PlaidService.sync_transactions (plaid en) access_token cursor with
  | Raise x => (Raise x, st)
  | Return (transactions, next_cursor) =>
    match
      if truthy_str next_cursor then _save_sync_cursor user_id next_cursor st
      else (Return (), st)
    with
    | (Raise x, st1) => (Raise x, st1)
    | (Return _, st1) =>
      let st2 :=
        if truthy_list transactions
        then publish (world en) "transaction.create"
               (PTransactions user_id transactions) (Some [user_id]) st1
        else st1 in
      (Return {| ts_user_id := user_id;
                 new_transactions := length transactions;
                 ts_cursor := next_cursor;
                 ts_sync_time := io_now (world en) |}, st2)
    end
  end.

Definition cancel_sync (user_id : string) (st : state) : bool * state :=
  let st1 :=
    match _sync_tasks st !! user_id with
    | Some t =>
      set_tasks (delete user_id (_sync_tasks st))
        (alter (fun k => {| task_user := task_user k; task_tokens := task_tokens k;
                            task_interval := task_interval k;
                            task_cancelled := true |}) t (tasks st)) st
    | None => st
    end in
  (true, set_cache (set_schedule_entries
                      (delete user_id (schedule_entries (cache st1))) (cache st1)) st1).

(** A task handle that no task has yet. *)
Definition fresh_task (ts : gmap nat task) : nat := fresh (dom ts).

Definition schedule_sync (user_id : string) (access_tokens : list string)
    (interval_minutes : Z) (st : state) : bool * state :=
  let interval_minutes :=
    if (interval_minutes <? DEFAULT_SYNC_INTERVAL)%Z then DEFAULT_SYNC_INTERVAL
    else interval_minutes in
  let st1 := (cancel_sync user_id st).2 in
  let sch := {| sch_user_id := user_id; sch_access_tokens := access_tokens;
                sch_interval := interval_minutes; sch_last_sync := None |} in
  let st2 := set_cache (set_schedule_entries
                          (<[user_id := sch]> (schedule_entries (cache st1)))
                          (cache st1)) st1 in
  let t := fresh_task (tasks st2) in
  (true, set_tasks (<[user_id := t]> (_sync_tasks st2))
           (<[t := {| task_user := user_id; task_tokens := access_tokens;
                      task_interval := interval_minutes;
                      task_cancelled := false |}]> (tasks st2)) st2).

(** The [for token in access_tokens] loop of [sync_task]; an exception of
    either call leaves the loop. *)
Fixpoint sync_tokens (en : env) (user_id : string) (access_tokens : list string)
    (st : state) : outcome unit * state :=
  match access_tokens with
  | [] => (Return (), st)
  | token :: rest =>
    match sync_account_data en user_id token st with
    | (Raise x, st1) => (Raise x, st1)
    | (Return _, st1) =>
      match sync_transactions en user_id token st1 with
      | (Raise x, st2) => (Raise x, st2)
      | (Return _, st2) => sync_tokens en user_id rest st2
      end
    end
  end.

(** One turn of the [while True] loop of [sync_task]: the seconds slept at
    its end, the closure's [schedule] and the state. *)
Definition sync_task_round (en : env) (sch : schedule) (st : state)
  : Z * schedule * state :=
  match sync_tokens en (sch_user_id sch) (sch_access_tokens sch) st with
  | (Return _, st1) =>
    let sch' := {| sch_user_id := sch_user_id sch;
                   sch_access_tokens := sch_access_tokens sch;
                   sch_interval := sch_interval sch;
                   sch_last_sync := Some (io_now (world en)) |} in
    ((sch_interval sch * 60)%Z, sch',
     set_cache (set_schedule_entries
                  (<[sch_user_id sch := sch']> (schedule_entries (cache st1)))
                  (cache st1)) st1)
  | (Raise _, st1) => (60%Z, sch, st1)
  end.

(** The loop, over the environments met by successive turns; the sleeps are
    listed oldest first.  The loop has no exit of its own: every turn given
    is run. *)
Fixpoint sync_task (ens : list env) (sch : schedule) (st : state)
  : list Z * schedule * state :=
  match ens with
  | [] => ([], sch, st)
  | en :: rest =>
    let '(slept, sch1, st1) := sync_task_round en sch st in
    let '(sleeps, sch2, st2) := sync_task rest sch1 st1 in
    (slept :: sleeps, sch2, st2)
  end.

(** The calls that reach the service, and a run of them: the two that
    touch the task registry and what a task does for one token. *)
Inductive registry_op :=
  | ScheduleSync (user_id : string) (access_tokens : list string)
      (interval_minutes : Z)
  | CancelSync (user_id : string)
  | SyncToken (en : env) (user_id : string) (access_token : string).

Definition run_registry_op (o : registry_op) (st : state) : state :=
  match o with
  | ScheduleSync user_id access_tokens interval_minutes =>
    (schedule_sync user_id access_tokens interval_minutes st).2
  | CancelSync user_id => (cancel_sync user_id st).2
  | SyncToken en user_id access_token =>
    (sync_tokens en user_id [access_token] st).2
  end.

Fixpoint run_registry (calls : list registry_op) (st : state) : state :=
  match calls with
  | [] => st
  | o :: rest => run_registry rest (run_registry_op o st)
  end.

(** A task is live when it was created and [cancel()] was not called on
    it. *)
Definition live (st : state) (t : nat) : Prop :=
  exists k, tasks st !! t = Some k /\ task_cancelled k = false.

Definition live_for (st : state) (user_id : string) (t : nat) : Prop :=
  exists k, tasks st !! t = Some k /\ task_cancelled k = false
            /\ task_user k = user_id.

(** What of a balance entry is the account's balance: everything but the
    time of the fetch. *)
Definition amounts (b : balance) : string * option Z * option Z * option Z :=
  (account_id b, current b, available b, limit b).

(** The registry and the live tasks agree. *)
Definition registry_ok (st : state) : Prop :=
  forall user_id t, _sync_tasks st !! user_id = Some t <-> live_for st user_id t.

(** The two event types the service publishes. *)
Definition sync_event (c : publish_call) : Prop :=
  call_type c = "account.update" \/ call_type c = "transaction.create".

(** [st'] differs from [st] by syncing only: same tasks, and what was
    published since is of those two types. *)
Definition extends (st st' : state) : Prop :=
  _sync_tasks st' = _sync_tasks st
  /\ tasks st' = tasks st
  /\ exists extra, published st' = published st ++ extra /\ Forall sync_event extra.

End SyncService.

(** ** app/core/events.py, subscriptions and the polling loop *)

Module EventSubscriptions.
Import EventManager.

(** The record written under [sub:<user>:<type>]; [subscribed_at] is the
    reading of the event loop's clock, taken here from [io_now]. *)
Record subscription_record := {
  sub_user_id : string;
  sub_event_type : string;
  subscribed_at : string
}.

(** The manager together with the cache entries of the prefix [sub:],
    which no other key of the manager shares. *)
Record state := {
  manager : EventManager.state;
  sub_entries : gmap string subscription_record
}.

Definition init : state := {| manager := EventManager.init; sub_entries := ∅ |}.

(** The awaited [self._auth_manager.verify_token(user_id)], as the truth
    value the code tests. *)
Definition auth := string -> outcome bool.

Definition set_subscriptions (s : gmap string (gset string))
    (m : EventManager.state) : EventManager.state :=
  {| _ws_manager := _ws_manager m; _subscriptions := s; _cache := _cache m |}.

Definition subscription_key (user_id event_type : string) : string :=
  "sub:" +:+ user_id +:+ ":" +:+ event_type.

(** The loop [for event_type in event_types] of [subscribe]. *)
Fixpoint write_subscriptions (e : io) (user_id : string)
    (event_types : list string) (entries : gmap string subscription_record)
  : outcome unit * gmap string subscription_record :=
  match event_types with
  | [] => (Return (), entries)
  | event_type :: rest =>
    match create_event_channel event_type with
    | Raise x => (Raise x, entries)
    | Return _ =>
      let key := subscription_key user_id event_type in
      let written :=
        <[key := {| sub_user_id := user_id; sub_event_type := event_type;
                    subscribed_at := io_now e |}]> entries in
      match io_cache e key with
      | CacheDone => write_subscriptions e user_id rest written
      | CacheRaises => (Raise TransportError, entries)
      | CacheWrittenThenRaises => (Raise TypeError, written)
      end
    end
  end.

Definition subscribe (a : auth) (e : io) (user_id : string)
    (event_types : list string) (st : state) : bool * state :=
  match a user_id with
  | Raise _ => (false, st)
  | Return false => (false, st)
  | Return true =>
    if negb (forallb (fun t => bool_decide (t ∈ event_type_values)) event_types)
    then (false, st)
    else
      let subs := default ∅ (_subscriptions (manager st) !! user_id) in
      let m1 := set_subscriptions
                  (<[user_id := subs ∪ list_to_set event_types]>
                     (_subscriptions (manager st))) (manager st) in
      let r := write_subscriptions e user_id event_types (sub_entries st) in
      (match r.1 with Return _ => true | Raise _ => false end,
       {| manager := m1; sub_entries := r.2 |})
  end.

(** The loop [for event_type in types_to_remove] of [unsubscribe], on the
    user's set and the cache entries. *)
Fixpoint remove_subscriptions (e : io) (user_id : string)
    (types_to_remove : list string) (subs : gset string)
    (entries : gmap string subscription_record)
  : outcome unit * gset string * gmap string subscription_record :=
  match types_to_remove with
  | [] => (Return (), subs, entries)
  | event_type :: rest =>
    let subs' := subs ∖ {[event_type]} in
    let key := subscription_key user_id event_type in
    match io_cache e key with
    | CacheDone => remove_subscriptions e user_id rest subs' (delete key entries)
    | CacheRaises => (Raise TransportError, subs', entries)
    | CacheWrittenThenRaises => (Raise TypeError, subs', delete key entries)
    end
  end.

(** [list(self._subscriptions[user_id])] is walked in the order of
    [elements]; the order shows only when a cache call fails. *)
Definition unsubscribe (a : auth) (e : io) (user_id : string)
    (event_types : option (list string)) (st : state) : bool * state :=
  match a user_id with
  | Raise _ => (false, st)
  | Return false => (false, st)
  | Return true =>
    match _subscriptions (manager st) !! user_id with
    | None => (true, st)
    | Some subs =>
      let types_to_remove :=
        if truthy_opt_list event_types then default [] event_types
        else elements subs in
      match remove_subscriptions e user_id types_to_remove subs (sub_entries st) with
      | (Return _, subs', entries') =>
        (true,
         {| manager :=
              set_subscriptions
                (if bool_decide (subs' = ∅)
                 then delete user_id (_subscriptions (manager st))
                 else <[user_id := subs']> (_subscriptions (manager st)))
                (manager st);
            sub_entries := entries' |})
      | (Raise _, subs', entries') =>
        (false,
         {| manager :=
              set_subscriptions (<[user_id := subs']> (_subscriptions (manager st)))
                (manager st);
            sub_entries := entries' |})
      end
    end
  end.

(** The [for event_type in EVENT_TYPES.values()] loop of
    [_start_redis_subscriber]: an awaited [get] that raises leaves the
    loop. *)
Fixpoint poll_channels (e : io) (event_types : list string)
    (m : EventManager.state) : outcome unit * EventManager.state :=
  match event_types with
  | [] => (Return (), m)
  | event_type :: rest =>
    match create_event_channel event_type with
    | Raise x => (Raise x, m)
    | Return channel =>
      match io_cache e channel with
      | CacheDone =>
        match _cache m !! channel with
        | Some message => poll_channels e rest (handle_event e message m)
        | None => poll_channels e rest m
        end
      | CacheRaises => (Raise TransportError, m)
      | CacheWrittenThenRaises => (Raise TypeError, m)
      end
    end
  end.

(** One turn of the [while True] loop of [_start_redis_subscriber]. *)
Definition _start_redis_subscriber (e : io) (m : EventManager.state)
  : outcome unit * EventManager.state :=
  poll_channels e event_type_values m.

(** The calls that change subscriptions, and a run of them. *)
Inductive op :=
  | Subscribe (user_id : string) (event_types : list string)
  | Unsubscribe (user_id : string) (event_types : option (list string)).

Definition run_op (a : auth) (e : io) (o : op) (st : state) : state :=
  match o with
  | Subscribe user_id event_types => (subscribe a e user_id event_types st).2
  | Unsubscribe user_id event_types => (unsubscribe a e user_id event_types st).2
  end.

Fixpoint run (calls : list (auth * io * op)) (st : state) : state :=
  match calls with
  | [] => st
  | (a, e, o) :: rest => run rest (run_op a e o st)
  end.

(** Every type a user is subscribed to is a value of [EVENT_TYPES], and
    every subscription record of the cache sits under the key of its own
    user and type. *)
Definition in_vocabulary (st : state) : Prop :=
  (forall u subs t,
     _subscriptions (manager st) !! u = Some subs -> t ∈ subs ->
     t ∈ event_type_values)
  /\ (forall k r, sub_entries st !! k = Some r ->
        k = subscription_key (sub_user_id r) (sub_event_type r)
        /\ sub_event_type r ∈ event_type_values).

End EventSubscriptions.

(** ** app/services/sync_service.py, start-up *)

Module SyncStartup.
Import SyncService.

(** The one-character strings a [for] loop over a string goes through. *)
Fixpoint characters (s : string) : list string :=
  match s with
  | EmptyString => []
  | String c rest => String c EmptyString :: characters rest
  end.

(** A value that [json.loads] answers. *)
#[local] Unset Elimination Schemes.
Inductive json :=
  | JNull
  | JBool (b : bool)
  | JNumber (literal : string) (zero : bool)
  | JString (s : string)
  | JArray (items : list json)
  | JObject (members : list (string * json)).
#[local] Set Elimination Schemes.

(** Its truth value in a test. *)
Definition truthy_json (j : json) : bool :=
  match j with
  | JNull => false
  | JBool b => b
  | JNumber _ zero => negb zero
  | JString s => truthy_str s
  | JArray items => truthy_list items
  | JObject members => truthy_list members
  end.

(** What [cache.get] answers for an entry of the cache.  [RedisCache.set]
    stores a list through [json.dumps] and a string as it is;
    [RedisCache.get] passes what it reads through [json.loads] and answers
    the raw string only where that raises JSONDecodeError.  [loads] is
    [json.loads] on a string, [None] where it raises: the list comes back as
    it was, the string as whatever it parses to. *)
Definition read_back (loads : string -> option json) (entry : cursor_entry) : json :=
  match entry with
  | CKeys l => JArray (JString <$> l)
  | CStr s => match loads s with Some j => j | None => JString s end
  end.

Fixpoint strings_of (items : list json) : option (list string) :=
  match items with
  | [] => Some []
  | JString s :: rest =>
    match strings_of rest with
    | Some l => Some (s :: l)
    | None => None
    end
  | _ :: _ => None
  end.

(** What [for key in cursor_keys] goes through, for
    [cursor_keys = cache.get(...) or []]: nothing for a value that tests
    false, the members of a list, the characters of a string, the names of an
    object; a number or [True] cannot be iterated and the loop raises
    TypeError.  [None]: a list with a member that is not a string, which as a
    key of the cursor dictionary the map here cannot hold. *)
Definition cursor_keys_of (j : json) : option (outcome (list string)) :=
  if negb (truthy_json j) then Some (Return [])
  else
    match j with
    | JArray items =>
      match strings_of items with
      | Some l => Some (Return l)
      | None => None
      end
    | JString s => Some (Return (characters s))
    | JObject members => Some (Return members.*1)
    | _ => Some (Raise TypeError)
    end.

(** The loop [for key in cursor_keys] of [_load_sync_states]: what is read
    back under a key is kept, as it is read, when it tests true. *)
Fixpoint load_cursors (loads : string -> option json)
    (entries : gmap string cursor_entry) (cursor_keys : list string)
    (cursors : gmap string json) : gmap string json :=
  match cursor_keys with
  | [] => cursors
  | key :: rest =>
    match entries !! key with
    | None => load_cursors loads entries rest cursors
    | Some entry =>
      let cursor := read_back loads entry in
      if truthy_json cursor
      then load_cursors loads entries rest (<[key := cursor]> cursors)
      else load_cursors loads entries rest cursors
    end
  end.

Definition _load_sync_states (loads : string -> option json) (c : cache_store)
    (cursors : gmap string json) : option (outcome (gmap string json)) :=
  match
    match cursor_entries c !! "keys" with
    | None => Some (Return [])
    | Some entry => cursor_keys_of (read_back loads entry)
    end
  with
  | None => None
  | Some (Raise x) => Some (Raise x)
  | Some (Return cursor_keys) =>
    Some (Return (load_cursors loads (cursor_entries c) cursor_keys cursors))
  end.

(** [__init__] of a new service on the same cache: the cursor dictionary it
    starts with, which may hold values that are not strings. *)
Definition restart (loads : string -> option json) (c : cache_store)
  : option (outcome (gmap string json)) :=
  _load_sync_states loads c ∅.

(** What a restart keeps of a cursor that was saved as a string. *)
Definition kept_cursor (loads : string -> option json) (cursor : string)
  : option json :=
  let j := read_back loads (CStr cursor) in
  if truthy_json j then Some j else None.

(** The cursor cache mirrors the cursors in memory: the list under [keys]
    names exactly the users with a cursor, each once, and each user's entry
    is that cursor. *)
Definition mirrored (st : state) : Prop :=
  exists l,
    (cursor_entries (cache st) !! "keys" = Some (CKeys l)
     \/ (l = [] /\ cursor_entries (cache st) !! "keys" = None))
    /\ NoDup l
    /\ ("keys" ∉ l)
    /\ (forall u, u ∈ l <-> is_Some (_sync_cursors st !! u))
    /\ (forall u c, _sync_cursors st !! u = Some c ->
         truthy_str c = true /\ cursor_entries (cache st) !! u = Some (CStr c))
    /\ (forall u, u <> "keys" -> _sync_cursors st !! u = None ->
         cursor_entries (cache st) !! u = None).

(** No call of a run syncs for the user whose id is the literal [keys]. *)
Definition avoids_keys (o : registry_op) : Prop :=
  match o with
  | SyncToken _ user_id _ => user_id <> "keys"
  | _ => True
  end.

End SyncStartup.

(** ** app/services/sync_service.py, what a round reads *)

Module SyncRounds.
Import SyncService.

(** The cache entry [sync_cursor:keys] does not hold a string: it is
    missing or holds the list of user ids. *)
Definition keys_is_list (st : state) : Prop :=
  forall s, cursor_entries (cache st) !! "keys" <> Some (CStr s).

(** The aggregator [c] with [modified] and [removed] emptied in every
    answer of [transactions_sync]. *)
Definition without_corrections (c : PlaidService.client) : PlaidService.client :=
  {| PlaidService.decrypt_field := PlaidService.decrypt_field c;
     PlaidService.accounts_get := PlaidService.accounts_get c;
     PlaidService.transactions_sync := fun token cursor =>
       match PlaidService.transactions_sync c token cursor with
       | Raise x => Raise x
       | Return response =>
         Return {| PlaidService.added := PlaidService.added response;
                   PlaidService.modified := [];
                   PlaidService.removed := [];
                   PlaidService.next_cursor := PlaidService.next_cursor response |}
       end |}.

Definition without_corrections_env (en : env) : env :=
  {| plaid := without_corrections (plaid en); world := world en |}.

End SyncRounds.

(** ** app/core/websockets.py, calls of connect that overlap *)

Module WebSocketSteps.
Import WebSocketManager.

(** The manager together with the calls of [connect] suspended in
    [await websocket.accept()], oldest first. *)
Record system := {
  ws_state : state;
  ws_accepting : list pending_connect
}.

Definition start : system := {| ws_state := init; ws_accepting := [] |}.

(** What the event loop runs between two suspensions: the first half of a
    [connect], the second half of the suspended [connect] number [i], or a
    whole call.  The registry is changed by the other calls only through
    [disconnect], whose changes to it come before its first [await]; those
    calls are taken whole. *)
Inductive step :=
  | ConnectBegins (e : io) (websocket : ws) (token : string)
  | ConnectResumes (e : io) (i : nat)
  | Whole (e : io) (o : op).

Definition run_step (s : step) (sys : system) : system :=
  match s with
  | ConnectBegins e websocket token =>
    match connect_check e websocket token (ws_state sys) with
    | None => sys
    | Some p => {| ws_state := ws_state sys;
                   ws_accepting := ws_accepting sys ++ [p] |}
    end
  | ConnectResumes e i =>
    match ws_accepting sys !! i with
    | None => sys
    | Some p => {| ws_state := (connect_register e p (ws_state sys)).2;
                   ws_accepting := delete i (ws_accepting sys) |}
    end
  | Whole e o => {| ws_state := run_op e o (ws_state sys);
                    ws_accepting := ws_accepting sys |}
  end.

Fixpoint run_steps (steps : list step) (sys : system) : system :=
  match steps with
  | [] => sys
  | s :: rest => run_steps rest (run_step s sys)
  end.

(** The calls of [connect] of a user that have passed the cap test and are
    not registered yet. *)
Definition in_flight (sys : system) (user_id : string) : nat :=
  length (filter (fun p => pc_user_id p = user_id) (ws_accepting sys)).

(** The call of [connect], if the step is or begins one, that passes its
    tests in this state. *)
Definition passing (s : step) (sys : system) : option pending_connect :=
  match s with
  | ConnectBegins e websocket token
  | Whole e (Connect websocket token) =>
    connect_check e websocket token (ws_state sys)
  | _ => None
  end.

(** Along the steps, no more than [n] calls of [connect] of one user are
    ever past the cap test and not yet registered, the one passing
    included. *)
Fixpoint overlap_within (n : nat) (steps : list step) (sys : system) : bool :=
  match steps with
  | [] => true
  | s :: rest =>
    match passing s sys with
    | Some p => bool_decide (in_flight sys (pc_user_id p) < n)%nat
    | None => true
    end && overlap_within n rest (run_step s sys)
  end.

End WebSocketSteps.

(** ** app/services/sync_service.py, ticks that overlap *)

Module SyncTicks.
Import SyncService.

(** A tick is one turn of [for token in access_tokens] of [sync_task], or
    the same two calls made by any other caller:
    [await self.sync_account_data(user_id, token)] and then
    [await self.sync_transactions(user_id, token)].  The first call awaits
    [publish_event] when it has seen a change and can be suspended there; the
    tick is in flight from its start until its second call has ended.  The
    aggregator calls themselves have no suspension point in
    plaid_service.py: each is begun and answered within one step. *)
Record tick := {
  tick_user : string;
  tick_token : string
}.

#[global] Instance tick_eq_dec : EqDecision tick.
Proof. solve_decision. Defined.

(** A call [self._plaid_service.sync_transactions(access_token, cursor)] as
    [sync_transactions] makes it, first thing, with the cursor it has just
    read from [self._sync_cursors], and the answer it got. *)
Record aggregator_call := {
  ac_user : string;
  ac_token : string;
  ac_cursor : option string;
  ac_answer : outcome (list transaction * string)
}.

(** The service, the ticks in flight, oldest first, and the calls made to
    the aggregator's [sync_transactions] so far, oldest first. *)
Record system := {
  tk_state : state;
  tk_ticks : list tick;
  tk_calls : list aggregator_call
}.

Definition start : system :=
  {| tk_state := init; tk_ticks := []; tk_calls := [] |}.

(** What runs between two suspensions: the first call of a new tick, the
    second call of the tick in flight number [i], or one of the two calls
    on the task registry, which have no suspension point.  A tick whose
    first call raises is over; one whose first call saw no change goes on at
    once, which a run writes as the two steps one after the other. *)
Inductive step :=
  | TickStarts (en : env) (user_id access_token : string)
  | TickResumes (en : env) (i : nat)
  | Schedules (user_id : string) (access_tokens : list string)
      (interval_minutes : Z)
  | Cancels (user_id : string).

Definition run_step (s : step) (sys : system) : system :=
  match s with
  | TickStarts en user_id access_token =>
    match sync_account_data en user_id access_token (tk_state sys) with
    | (Raise _, st1) =>
      {| tk_state := st1; tk_ticks := tk_ticks sys; tk_calls := tk_calls sys |}
    | (Return _, st1) =>
      {| tk_state := st1;
         tk_ticks := tk_ticks sys
                     ++ [{| tick_user := user_id; tick_token := access_token |}];
         tk_calls := tk_calls sys |}
    end
  | TickResumes en i =>
    match tk_ticks sys !! i with
    | None => sys
    | Some t =>
      let cursor := _sync_cursors (tk_state sys) !! tick_user t in
      {| tk_state :=
           (sync_transactions en (tick_user t) (tick_token t) (tk_state sys)).2;
         tk_ticks := delete i (tk_ticks sys);
         tk_calls :=
           tk_calls sys
           ++ [{| ac_user := tick_user t; ac_token := tick_token t;
                  ac_cursor := cursor;
                  ac_answer := PlaidService.sync_transactions (plaid en)
                                 (tick_token t) cursor |}] |}
    end
  | Schedules user_id access_tokens interval_minutes =>
    {| tk_state := (schedule_sync user_id access_tokens interval_minutes
                      (tk_state sys)).2;
       tk_ticks := tk_ticks sys; tk_calls := tk_calls sys |}
  | Cancels user_id =>
    {| tk_state := (cancel_sync user_id (tk_state sys)).2;
       tk_ticks := tk_ticks sys; tk_calls := tk_calls sys |}
  end.

Fixpoint run_steps (steps : list step) (sys : system) : system :=
  match steps with
  | [] => sys
  | s :: rest => run_steps rest (run_step s sys)
  end.






End SyncTicks.

(** ** Sample inputs *)

Module Scenario.

(** An outside world in which every awaited call completes; a token
    verifies to the user id it spells. *)
Definition calm : io :=
  {| io_verify := fun token => Return (Some token);
     io_accept := fun _ => true;
     io_send := fun _ => Sent;
     io_close := fun _ => true;
     io_cache := fun _ => CacheDone;
     io_dumps := fun _ => true;
     io_now := "2023-01-01T00:00:00" |}.

(** The same world with the managers given the cache of core/cache.py,
    whose methods are plain functions. *)
Definition plain_cache : io :=
  {| io_verify := io_verify calm; io_accept := io_accept calm;
     io_send := io_send calm; io_close := io_close calm;
     io_cache := fun _ => CacheWrittenThenRaises;
     io_dumps := io_dumps calm; io_now := io_now calm |}.

(** Five connections of one user. *)
Definition five_connects : list (io * WebSocketManager.op) :=
  map (fun w => (calm, WebSocketManager.Connect w "alice")) [1; 2; 3; 4; 5].

(** One user with two connections, subscribed to [goal]. *)
Definition two_tabs : WebSocketManager.state :=
  WebSocketManager.run
    [(calm, WebSocketManager.Connect 1 "alice");
     (calm, WebSocketManager.Connect 2 "alice");
     (calm, WebSocketManager.Subscribe 1 "alice" ["goal"])]
    WebSocketManager.init.

(** Three users, one connection each, all subscribed to [goal]. *)
Definition three_users : WebSocketManager.state :=
  WebSocketManager.run
    [(calm, WebSocketManager.Connect 1 "A");
     (calm, WebSocketManager.Connect 2 "B");
     (calm, WebSocketManager.Connect 3 "C");
     (calm, WebSocketManager.Subscribe 1 "A" ["goal"]);
     (calm, WebSocketManager.Subscribe 2 "B" ["goal"]);
     (calm, WebSocketManager.Subscribe 3 "C" ["goal"])]
    WebSocketManager.init.


(** The world of [calm] an hour later. *)
Definition calm_later : io :=
  {| io_verify := io_verify calm; io_accept := io_accept calm;
     io_send := io_send calm; io_close := io_close calm;
     io_cache := io_cache calm; io_dumps := io_dumps calm;
     io_now := "2023-01-01T01:00:00" |}.

Definition tx_1 : transaction :=
  {| tx_id := "tx_1"; tx_account_id := "acc_1"; tx_amount := 5000;
     tx_date := "2023-01-01"; tx_name := "Test Transaction";
     tx_merchant_name := Some "Test Merchant";
     tx_category := ["Food"; "Restaurants"]; tx_pending := false |}.

Definition acc_1 : PlaidService.account :=
  {| PlaidService.acc_account_id := "acc_1";
     PlaidService.acc_current := Some 100000%Z;
     PlaidService.acc_available := Some 95000%Z;
     PlaidService.acc_limit := None |}.

(** An aggregator that answers every balance request with the same account
    and every transaction sync, whatever the cursor, with the same one added
    transaction and the cursor [c1]. *)
Definition steady : PlaidService.client :=
  {| PlaidService.decrypt_field := fun token => Return token;
     PlaidService.accounts_get := fun _ => Return [acc_1];
     PlaidService.transactions_sync := fun _ _ =>
       Return {| PlaidService.added := [tx_1]; PlaidService.modified := [];
                 PlaidService.removed := []; PlaidService.next_cursor := "c1" |} |}.

(** An aggregator that is out of reach. *)
Definition unreachable : PlaidService.client :=
  {| PlaidService.decrypt_field := fun token => Return token;
     PlaidService.accounts_get := fun _ => Raise ApiException;
     PlaidService.transactions_sync := fun _ _ => Raise ApiException |}.

Definition steady_env : SyncService.env :=
  {| SyncService.plaid := steady; SyncService.world := calm |}.

Definition steady_env_later : SyncService.env :=
  {| SyncService.plaid := steady; SyncService.world := calm_later |}.

Definition steady_env_plain_cache : SyncService.env :=
  {| SyncService.plaid := steady; SyncService.world := plain_cache |}.

Definition unreachable_env : SyncService.env :=
  {| SyncService.plaid := unreachable; SyncService.world := calm |}.

Definition hourly : SyncService.schedule :=
  {| SyncService.sch_user_id := "u1"; SyncService.sch_access_tokens := ["token_1"];
     SyncService.sch_interval := 60; SyncService.sch_last_sync := None |}.

End Scenario.

(** ** Further sample inputs *)

Module Samples.

(** Four connections of one user, each call run whole. *)
Definition four_connected : list WebSocketSteps.step :=
  map (fun w => WebSocketSteps.Whole Scenario.calm
                  (WebSocketManager.Connect w "alice")) [1; 2; 3; 4].

(** Two further calls of [connect] of that user: each passes the cap test
    before the other has returned from the handshake. *)
Definition two_overlapping : list WebSocketSteps.step :=
  [WebSocketSteps.ConnectBegins Scenario.calm 5 "alice";
   WebSocketSteps.ConnectBegins Scenario.calm 6 "alice";
   WebSocketSteps.ConnectResumes Scenario.calm 0;
   WebSocketSteps.ConnectResumes Scenario.calm 0].

(** The same two calls, the second beginning when the first has ended. *)
Definition two_in_turn : list WebSocketSteps.step :=
  [WebSocketSteps.ConnectBegins Scenario.calm 5 "alice";
   WebSocketSteps.ConnectResumes Scenario.calm 0;
   WebSocketSteps.ConnectBegins Scenario.calm 6 "alice";
   WebSocketSteps.ConnectResumes Scenario.calm 0].


(** Every user id verifies. *)
Definition everyone : EventSubscriptions.auth := fun _ => Return true.

(** Nobody verifies. *)
Definition nobody : EventSubscriptions.auth := fun _ => Return false.

(** The world of [Scenario.calm] in which the cache calls on the channels
    [ws_events:...] raise. *)
Definition ws_channels_down : io :=
  {| io_verify := io_verify Scenario.calm; io_accept := io_accept Scenario.calm;
     io_send := io_send Scenario.calm; io_close := io_close Scenario.calm;
     io_cache := fun key =>
       if String.prefix "ws_events:" key then CacheRaises else CacheDone;
     io_dumps := io_dumps Scenario.calm; io_now := io_now Scenario.calm |}.

(** An event manager in which users A and C are subscribed to goal.update
    and an event of that type for A and B has been published. *)
Definition goal_published : EventManager.state :=
  (EventManager.publish_event Scenario.calm "goal.update" (PData "progress")
     (Some ["A"; "B"])
     {| EventManager._ws_manager := WebSocketManager.init;
        EventManager._subscriptions :=
          {["A" := {["goal.update"]}; "C" := {["goal.update"]}]};
        EventManager._cache := ∅ |}).2.

(** User A subscribed to two types, the cache writes completing. *)
Definition two_subscriptions : EventSubscriptions.state :=
  (EventSubscriptions.subscribe everyone Scenario.calm "A"
     ["goal.update"; "budget.update"] EventSubscriptions.init).2.

(** The same request with the cache of core/cache.py: the first write is
    made and its [await] raises. *)
Definition half_written : EventSubscriptions.state :=
  (EventSubscriptions.subscribe everyone Scenario.plain_cache "A"
     ["goal.update"; "budget.update"] EventSubscriptions.init).2.

(** Two users scheduled and synced, one of them twice, and one schedule
    cancelled. *)
Definition two_users_synced : list SyncService.registry_op :=
  [SyncService.ScheduleSync "u1" ["token_1"] 5;
   SyncService.SyncToken Scenario.steady_env "u1" "token_1";
   SyncService.ScheduleSync "u2" ["token_2"] 90;
   SyncService.SyncToken Scenario.steady_env_later "u2" "token_2";
   SyncService.SyncToken Scenario.steady_env_later "u1" "token_1";
   SyncService.CancelSync "u1"].

Definition tx_2 : transaction :=
  {| tx_id := "tx_2"; tx_account_id := "acc_2"; tx_amount := 1200;
     tx_date := "2023-01-02"; tx_name := "Second Transaction";
     tx_merchant_name := None; tx_category := []; tx_pending := true |}.

(** An aggregator that answers by cursor alone: from the beginning with
    [tx_1] and the cursor [c1], from [c1] with [tx_2] and the cursor [c2],
    from anywhere else with nothing new. *)
Definition paged : PlaidService.client :=
  {| PlaidService.decrypt_field := fun token => Return token;
     PlaidService.accounts_get := fun _ => Return [Scenario.acc_1];
     PlaidService.transactions_sync := fun _ cursor =>
       match cursor with
       | None =>
         Return {| PlaidService.added := [Scenario.tx_1]; PlaidService.modified := [];
                   PlaidService.removed := []; PlaidService.next_cursor := "c1" |}
       | Some c =>
         if String.eqb c "c1"
         then Return {| PlaidService.added := [tx_2]; PlaidService.modified := [];
                        PlaidService.removed := []; PlaidService.next_cursor := "c2" |}
         else Return {| PlaidService.added := []; PlaidService.modified := [];
                        PlaidService.removed := []; PlaidService.next_cursor := c |}
       end |}.

Definition paged_env : SyncService.env :=
  {| SyncService.plaid := paged; SyncService.world := Scenario.calm |}.

(** An aggregator that answers balance requests and refuses transaction
    requests. *)
Definition transactions_down : PlaidService.client :=
  {| PlaidService.decrypt_field := fun token => Return token;
     PlaidService.accounts_get := fun _ => Return [Scenario.acc_1];
     PlaidService.transactions_sync := fun _ _ => Raise ApiException |}.

Definition transactions_down_env : SyncService.env :=
  {| SyncService.plaid := transactions_down; SyncService.world := Scenario.calm |}.

(** [json.loads] on the strings met here: two of them are JSON documents,
    a number and null. *)
Definition loads_sample (s : string) : option SyncStartup.json :=
  if String.eqb s "12345" then Some (SyncStartup.JNumber "12345" false)
  else if String.eqb s "null" then Some SyncStartup.JNull
  else None.

(** An aggregator whose cursors are JSON documents: null for the token
    [token_null], 12345 for the others. *)
Definition odd_cursors : PlaidService.client :=
  {| PlaidService.decrypt_field := fun token => Return token;
     PlaidService.accounts_get := fun _ => Return [Scenario.acc_1];
     PlaidService.transactions_sync := fun token _ =>
       Return {| PlaidService.added := []; PlaidService.modified := [];
                 PlaidService.removed := [];
                 PlaidService.next_cursor :=
                   if String.eqb token "token_null" then "null" else "12345" |} |}.

Definition odd_cursors_env : SyncService.env :=
  {| SyncService.plaid := odd_cursors; SyncService.world := Scenario.calm |}.

(** A user without accounts. *)
Definition no_accounts : PlaidService.client :=
  {| PlaidService.decrypt_field := fun token => Return token;
     PlaidService.accounts_get := fun _ => Return [];
     PlaidService.transactions_sync :=
       PlaidService.transactions_sync Scenario.steady |}.

Definition no_accounts_env : SyncService.env :=
  {| SyncService.plaid := no_accounts; SyncService.world := Scenario.calm |}.

(** The service after one balance sync of that user. *)
Definition no_accounts_synced : SyncService.state :=
  (SyncService.sync_account_data no_accounts_env "u1" "token_1"
     SyncService.init).2.

(** The aggregator of [Scenario.steady] refusing the token [token_2]. *)
Definition second_token_down : PlaidService.client :=
  {| PlaidService.decrypt_field := fun token => Return token;
     PlaidService.accounts_get := fun token =>
       if String.eqb token "token_2" then Raise ApiException
       else Return [Scenario.acc_1];
     PlaidService.transactions_sync :=
       PlaidService.transactions_sync Scenario.steady |}.

Definition second_token_down_env : SyncService.env :=
  {| SyncService.plaid := second_token_down; SyncService.world := Scenario.calm |}.


Definition three_tokens : SyncService.schedule :=
  {| SyncService.sch_user_id := "u1";
     SyncService.sch_access_tokens := ["token_1"; "token_2"; "token_3"];
     SyncService.sch_interval := 60; SyncService.sch_last_sync := None |}.

End Samples.

(** * Properties *)

(** ** The connection registry *)

Module WebSocketFacts.
Import WebSocketManager WebSocketSteps.

(** The two steps of [connect] run back to back, written out. *)
Lemma connect_unfold e websocket token st :
  connect e websocket token st
  = match io_verify e token with
    | Raise _ => (false, st)
    | Return None => (false, st)
    | Return (Some user_id) =>
      if negb (truthy_str user_id) then (false, st)
      else if match _connections st !! user_id with
              | Some conns => bool_decide (MAX_CONNECTIONS_PER_USER ≤ size conns)%nat
              | None => false
              end
      then (false, st)
      else
        let conn_id := create_connection_id (io_now e) user_id in
        if negb (io_accept e websocket) then (false, st)
        else
          let conns := default ∅ (_connections st !! user_id) in
          let st1 := set_connections
                       (<[user_id := conns ∪ {[websocket]}]> (_connections st)) st in
          let key := CONNECTION_PREFIX +:+ ":" +:+ conn_id in
          let written := set_cache (<[key := SConn user_id []]> (_cache st1)) st1 in
          match io_cache e key with
          | CacheDone => (true, written)
          | CacheRaises => (false, st1)
          | CacheWrittenThenRaises => (false, written)
          end
    end.
Proof.
  unfold connect, connect_check.
  destruct (io_verify e token) as [[user_id|]|]; try reflexivity.
  destruct (truthy_str user_id); cbn [negb]; [|reflexivity].
  destruct (match _connections st !! user_id with Some _ => _ | None => _ end);
    reflexivity.
Qed.

Lemma count_set_cache c st u :
  connection_count (set_cache c st) u = connection_count st u.
Proof. reflexivity. Qed.

Lemma count_set_subscriptions s st u :
  connection_count (set_subscriptions s st) u = connection_count st u.
Proof. reflexivity. Qed.

Lemma count_insert st u v conns :
  connection_count (set_connections (<[u := conns]> (_connections st)) st) v
  = if decide (u = v) then size conns else connection_count st v.
Proof.
  unfold connection_count; simpl. rewrite lookup_insert.
  destruct (decide (u = v)); reflexivity.
Qed.

Lemma count_delete st u v :
  connection_count (set_connections (delete u (_connections st)) st) v
  = if decide (u = v) then 0 else connection_count st v.
Proof.
  unfold connection_count; simpl. rewrite lookup_delete.
  destruct (decide (u = v)); reflexivity.
Qed.

Lemma size_remove (conns : gset ws) (w : ws) : size (conns ∖ {[w]}) <= size conns.
Proof. apply subseteq_size. by apply subseteq_difference_l. Qed.

Lemma size_add (conns : gset ws) (w : ws) : size (conns ∪ {[w]}) <= S (size conns).
Proof.
  rewrite size_union_alt.
  assert (size (({[w]} : gset ws) ∖ conns) <= 1).
  { rewrite <- (size_singleton (C := gset ws) w). apply subseteq_size.
    by apply subseteq_difference_l. }
  lia.
Qed.

(** What [disconnect] does to the two registries. *)
Lemma disconnect_connections e w u st :
  _connections (disconnect e w u st).2 =
  match _connections st !! u with
  | Some conns =>
    if bool_decide (w ∈ conns) then
      if bool_decide (conns ∖ {[w]} = ∅) then delete u (_connections st)
      else <[u := conns ∖ {[w]}]> (_connections st)
    else _connections st
  | None => _connections st
  end.
Proof.
  unfold disconnect. destruct (_connections st !! u) as [conns|].
  - destruct (bool_decide (w ∈ conns)); [|reflexivity].
    destruct (io_cache e _); try reflexivity.
    destruct (io_close e w); reflexivity.
  - destruct (io_cache e _); try reflexivity.
    destruct (io_close e w); reflexivity.
Qed.

Lemma disconnect_subscriptions e w u st :
  _subscriptions (disconnect e w u st).2 =
  match _connections st !! u with
  | Some conns =>
    if bool_decide (w ∈ conns) then delete u (_subscriptions st)
    else _subscriptions st
  | None => delete u (_subscriptions st)
  end.
Proof.
  unfold disconnect. destruct (_connections st !! u) as [conns|].
  - destruct (bool_decide (w ∈ conns)); [|reflexivity].
    destruct (io_cache e _); try reflexivity.
    destruct (io_close e w); reflexivity.
  - destruct (io_cache e _); try reflexivity.
    destruct (io_close e w); reflexivity.
Qed.

(** [disconnect] never makes a registry entry larger. *)
Lemma disconnect_count e w u st v :
  connection_count (disconnect e w u st).2 v <= connection_count st v.
Proof.
  unfold connection_count. rewrite disconnect_connections.
  destruct (_connections st !! u) as [conns|] eqn:Hu; [|reflexivity].
  case_bool_decide as Hin; [|reflexivity].
  case_bool_decide.
  - rewrite lookup_delete. destruct (decide (u = v)); [lia | reflexivity].
  - rewrite lookup_insert. destruct (decide (u = v)) as [->|]; [|reflexivity].
    rewrite Hu. apply size_remove.
Qed.

Lemma disconnect_within_cap e w u st :
  within_cap st -> within_cap (disconnect e w u st).2.
Proof. intros H v. etrans; [apply disconnect_count | apply H]. Qed.

Lemma connect_within_cap e w tok st :
  within_cap st -> within_cap (connect e w tok st).2.
Proof.
  intros H. rewrite connect_unfold.
  destruct (io_verify e tok) as [[u|]|]; try exact H.
  destruct (truthy_str u); cbn [negb]; [|exact H].
  destruct (_connections st !! u) as [conns|] eqn:Hu.
  - case_bool_decide as Hfull; [exact H|].
    destruct (io_accept e w); cbn [negb default]; [|exact H].
    assert (within_cap (set_connections (<[u := conns ∪ {[w]}]> (_connections st)) st)).
    { intros v. rewrite count_insert. destruct (decide (u = v)); [|apply H].
      pose proof (size_add conns w). lia. }
    destruct (io_cache e _); cbn [snd]; assumption.
  - destruct (io_accept e w); cbn [negb default]; [|exact H].
    assert (within_cap (set_connections (<[u := ∅ ∪ {[w]}]> (_connections st)) st)).
    { intros v. rewrite count_insert. destruct (decide (u = v)); [|apply H].
      pose proof (size_add ∅ w). rewrite size_empty in *.
      unfold MAX_CONNECTIONS_PER_USER. lia. }
    destruct (io_cache e _); cbn [snd]; assumption.
Qed.

Lemma broadcast_connections e t m targets st :
  _connections (broadcast e t m targets st).2 = _connections st.
Proof.
  unfold broadcast. destruct (io_dumps e m); cbn [negb]; [|reflexivity].
  destruct (io_cache e _); reflexivity.
Qed.

Lemma subscribe_connections e w u types st :
  _connections (subscribe e w u types st).2 = _connections st.
Proof.
  unfold subscribe. destruct (forallb _ types); cbn [negb]; [|reflexivity].
  destruct (io_cache e _); reflexivity.
Qed.

Lemma within_cap_same_connections st st' :
  _connections st' = _connections st -> within_cap st -> within_cap st'.
Proof. intros Heq H v. unfold connection_count. rewrite Heq. apply H. Qed.

(** A delivery that completes leaves the state alone; one that stops has
    run exactly one [disconnect]. *)
Lemma send_to_connections_state e u conns st sent :
  let r := send_to_connections e u conns st sent in
  (r.1.1 = Return () /\ r.1.2 = st)
  \/ (r.1.1 <> Return ()
      /\ (r.1.2 = st \/ exists w, r.1.2 = (disconnect e w u st).2)).
Proof.
  revert sent. induction conns as [|w rest IH]; intros sent; simpl.
  - left. split; reflexivity.
  - destruct (io_send e w); [apply IH| |]; right; (split; [discriminate|]); eauto.
Qed.

Lemma distribute_users_state e p t users st sent :
  let r := distribute_users e p t users st sent in
  (r.1.1 = Return () /\ r.1.2 = st)
  \/ (r.1.1 <> Return ()
      /\ (r.1.2 = st \/ exists w u, r.1.2 = (disconnect e w u st).2)).
Proof.
  revert st sent. induction users as [|[u conns] rest IH]; intros st sent; simpl.
  - left. split; reflexivity.
  - destruct (targeted p u); simpl; [|apply IH].
    destruct (subscribed st t u); [|apply IH].
    pose proof (send_to_connections_state e u (elements conns) st sent) as Hs.
    destruct (send_to_connections e u (elements conns) st sent) as [[o st'] sent'].
    simpl in Hs. destruct Hs as [[-> ->]|[Hne Hst]].
    + apply IH.
    + right. destruct o as [[]|x]; [done|]. simpl. split; [discriminate|].
      destruct Hst as [->|[w ->]]; eauto.
Qed.

Lemma distribute_state e p st :
  let r := _distribute_message e p st in
  r.1.2 = st \/ exists w u, r.1.2 = (disconnect e w u st).2.
Proof.
  unfold _distribute_message. destruct (event p) as [t|]; [|left; reflexivity].
  destruct (truthy_str t); simpl; [|left; reflexivity].
  destruct (distribute_users_state e p t (map_to_list (_connections st)) st [])
    as [[_ H]|[_ [H|H]]]; [left|left|right]; exact H.
Qed.

Lemma heartbeat_state e w u r st :
  (heartbeat_round e w u r st).2 = st
  \/ (heartbeat_round e w u r st).2 = (disconnect e w u st).2.
Proof.
  unfold heartbeat_round.
  destruct (io_send e w); cbn [snd]; [|right; reflexivity..].
  destruct r; cbn [snd]; auto.
Qed.

Lemma run_op_within_cap e o st : within_cap st -> within_cap (run_op e o st).
Proof.
  intros H. destruct o; simpl.
  - by apply connect_within_cap.
  - by apply disconnect_within_cap.
  - eapply within_cap_same_connections; [apply broadcast_connections|done].
  - eapply within_cap_same_connections; [apply subscribe_connections|done].
  - destruct (distribute_state e p st) as [->|[w [u ->]]];
      [exact H | apply disconnect_within_cap; exact H].
  - destruct (heartbeat_state e websocket user_id w st) as [->| ->];
      [exact H | apply disconnect_within_cap; exact H].
Qed.

Lemma run_within_cap calls st : within_cap st -> within_cap (run calls st).
Proof.
  revert st. induction calls as [|[e o] rest IH]; intros st H; simpl; [done|].
  apply IH. by apply run_op_within_cap.
Qed.

Lemma init_within_cap : within_cap init.
Proof. intros u. unfold connection_count, init; simpl. rewrite lookup_empty. lia. Qed.

(** A user at the cap is turned away and nothing is registered. *)
Lemma connect_rejects_at_cap e w tok st u :
  io_verify e tok = Return (Some u) ->
  (MAX_CONNECTIONS_PER_USER <= connection_count st u)%nat ->
  connect e w tok st = (false, st).
Proof.
  intros Hv Hfull. rewrite connect_unfold, Hv.
  destruct (truthy_str u); simpl; [|reflexivity].
  unfold connection_count in Hfull.
  destruct (_connections st !! u) as [conns|].
  - rewrite bool_decide_eq_true_2; [reflexivity | exact Hfull].
  - unfold MAX_CONNECTIONS_PER_USER in Hfull. lia.
Qed.

(** C6. The cap is tested before [await websocket.accept()] and the
    connection is added after it.  A user has four connections and two calls
    of [connect] arrive; each passes the cap test before the other has
    returned from the handshake, each then registers its connection and
    answers True: the user has six connections, one more than
    MAX_CONNECTIONS_PER_USER.  The same two calls one after the other leave
    five, the second being refused. *)
Theorem overlapping_connects_exceed_cap :
  connection_count
    (ws_state (run_steps Samples.four_connected start)) "alice" = 4
  /\ in_flight
       (run_steps (Samples.four_connected
                   ++ [ConnectBegins Scenario.calm 5 "alice";
                       ConnectBegins Scenario.calm 6 "alice"]) start) "alice" = 2
  /\ connection_count
       (ws_state (run_steps (Samples.four_connected ++ Samples.two_overlapping) start))
       "alice" = 6
  /\ ~ within_cap
         (ws_state (run_steps (Samples.four_connected ++ Samples.two_overlapping)
                      start))
  /\ connection_count
       (ws_state (run_steps (Samples.four_connected ++ Samples.two_in_turn) start))
       "alice" = 5.
Proof.
  split; [vm_compute; reflexivity|]. split; [vm_compute; reflexivity|].
  split; [vm_compute; reflexivity|]. split; [|vm_compute; reflexivity].
  intros H. specialize (H "alice").
  assert (connection_count
            (ws_state (run_steps (Samples.four_connected ++ Samples.two_overlapping)
                         start)) "alice" = 6) as H6 by (vm_compute; reflexivity).
  rewrite H6 in H. unfold MAX_CONNECTIONS_PER_USER in H. lia.
Qed.

(** *** Who is sent a message *)



Lemma send_to_connections_log e u conns st sent x :
  x ∈ (send_to_connections e u conns st sent).2 ->
  x ∈ sent \/ exists w, x = (u, w) /\ w ∈ conns.
Proof.
  revert sent. induction conns as [|w rest IH]; intros sent; simpl; [auto|].
  destruct (io_send e w); [|auto..].
  intros Hx. destruct (IH _ Hx) as [Hin|(w' & -> & Hw')].
  - apply elem_of_app in Hin as [?|Hin]; [auto|]. right. exists w.
    apply list_elem_of_singleton in Hin as ->. split; [done|].
    apply list_elem_of_here.
  - right. exists w'. set_solver.
Qed.


Lemma distribute_users_log e p t users st sent x :
  x ∈ (distribute_users e p t users st sent).2 ->
  x ∈ sent \/ exists entry, entry ∈ users /\ x ∈ due p t st entry.
Proof.
  revert sent. induction users as [|[u conns] rest IH]; intros sent; simpl; [auto|].
  assert (forall sent', x ∈ (distribute_users e p t rest st sent').2 ->
            x ∈ sent' \/ exists entry, entry ∈ (u, conns) :: rest
                                       /\ x ∈ due p t st entry) as IH'.
  { intros sent' Hx. destruct (IH _ Hx) as [?|(en & ? & ?)]; [auto|].
    right. exists en. split; [set_solver | done]. }
  destruct (targeted p u) eqn:Ht; cbn [negb]; [|apply IH'].
  destruct (subscribed st t u) eqn:Hsub; [|apply IH'].
  assert (forall y, y ∈ (send_to_connections e u (elements conns) st sent).2 ->
            y ∈ sent \/ exists entry, entry ∈ (u, conns) :: rest
                                      /\ y ∈ due p t st entry) as Hhere.
  { intros y Hy. apply send_to_connections_log in Hy as [?|(w & -> & Hw)]; [auto|].
    right. exists (u, conns). split; [set_solver|].
    unfold due; cbn [fst snd]. rewrite Ht, Hsub. cbn [andb].
    apply list_elem_of_fmap. by exists w. }
  pose proof (send_to_connections_state e u (elements conns) st sent) as Hst.
  destruct (send_to_connections e u (elements conns) st sent) as [[o st'] sent'].
  cbn [fst snd] in *.
  destruct Hst as [[-> ->]|[Hne _]].
  - intros Hx. destruct (IH' _ Hx) as [Hin|?]; [apply (Hhere x Hin) | auto].
  - destruct o as [[]|y]; [done | exact (Hhere x)].
Qed.

Lemma due_spec p t st u w entry :
  (u, w) ∈ due p t st entry <->
  entry.1 = u /\ w ∈ entry.2 /\ targeted p u = true /\ subscribed st t u = true.
Proof.
  destruct entry as [u' conns]. unfold due; cbn [fst snd]. split.
  - destruct (targeted p u') eqn:Ht, (subscribed st t u') eqn:Hs; cbn [andb];
      try (intros H; by apply elem_of_nil in H).
    intros H. apply list_elem_of_fmap in H as (w' & [= -> ->] & Hw).
    repeat split; try done. by apply elem_of_elements.
  - intros (-> & Hw & -> & ->). cbn [andb].
    apply list_elem_of_fmap. exists w. split; [done | by apply elem_of_elements].
Qed.

(** Every send of [_distribute_message] goes to a registered connection of
    a user who passes both tests in the state the call started in. *)
Lemma distribute_sound e p st u w :
  (u, w) ∈ (_distribute_message e p st).2 ->
  exists t, event p = Some t /\ truthy_str t = true
            /\ targeted p u = true /\ subscribed st t u = true
            /\ registered st u w.
Proof.
  unfold _distribute_message. destruct (event p) as [t|]; cbn [snd].
  2:{ intros H. by apply elem_of_nil in H. }
  destruct (truthy_str t) eqn:Htr; cbn [negb snd].
  2:{ intros H. by apply elem_of_nil in H. }
  intros H. apply distribute_users_log in H as [H|(en & Hen & Hx)].
  { by apply elem_of_nil in H. }
  apply due_spec in Hx as (Hu & Hw & Ht & Hs). destruct en as [u' conns].
  cbn [fst snd] in *. subst u'. apply elem_of_map_to_list in Hen.
  exists t. repeat split; try done. by exists conns.
Qed.


Lemma targeted_nonempty p targets u :
  user_ids p = Some targets -> targets <> [] ->
  targeted p u = true <-> u ∈ targets.
Proof.
  intros Hp Hne. unfold targeted. rewrite Hp. cbn [default truthy_opt_list].
  destruct targets as [|x l]; [done|]. cbn [truthy_list andb].
  rewrite negb_involutive. apply bool_decide_eq_true.
Qed.





(** *** Disconnecting one of several connections *)

Lemma subscribed_none st t u :
  _subscriptions st !! u = None -> subscribed st t u = false.
Proof. intros H. unfold subscribed. by rewrite H. Qed.

Lemma subscribe_subscribed e w u types st t :
  forallb (fun ev => bool_decide (ev ∈ valid_events)) types = true ->
  t ∈ types ->
  subscribed (subscribe e w u types st).2 t u = true.
Proof.
  intros Hvalid Ht. unfold subscribe. rewrite Hvalid. cbn [negb].
  assert (forall c,
    subscribed (set_cache c (set_subscriptions
      (<[u := default ∅ (_subscriptions st !! u) ∪ list_to_set types]>
         (_subscriptions st)) st)) t u = true) as H.
  { intros c. unfold subscribed; cbn [_subscriptions set_cache set_subscriptions].
    rewrite lookup_insert_eq. apply bool_decide_eq_true. set_solver. }
  destruct (io_cache e _); cbn [snd].
  - apply H.
  - apply (H (_cache st)).
  - apply H.
Qed.

(** C10. A user has more than one connection and one of them is
    disconnected: whatever the outside world answers, the user's entry in the
    subscription registry is gone while the other connections stay
    registered; no event type matches the user any more, so no message of any
    kind is sent to the remaining connections; a later subscribe makes the
    subscribed types match again. *)
Theorem disconnect_drops_user_subscriptions e websocket user_id st
    (conns : gset ws) :
  _connections st !! user_id = Some conns ->
  websocket ∈ conns ->
  1 < size conns ->
  let st' := (disconnect e websocket user_id st).2 in
  _subscriptions st' !! user_id = None
  /\ _connections st' !! user_id = Some (conns ∖ {[websocket]})
  /\ conns ∖ {[websocket]} <> ∅
  /\ (forall t, subscribed st' t user_id = false)
  /\ (forall e' p w, (user_id, w) ∉ (_distribute_message e' p st').2)
  /\ (forall e' w types t,
        forallb (fun ev => bool_decide (ev ∈ valid_events)) types = true ->
        t ∈ types ->
        subscribed (subscribe e' w user_id types st').2 t user_id = true).
Proof.
  intros Hc Hw Hsize st'.
  assert (conns ∖ {[websocket]} <> ∅) as Hrest.
  { intros Heq. assert (size (conns ∖ {[websocket]}) = 0) as H0
      by (rewrite Heq; apply size_empty).
    rewrite size_difference in H0 by set_solver.
    rewrite size_singleton in H0. lia. }
  assert (_subscriptions st' !! user_id = None) as Hsubs.
  { subst st'. rewrite disconnect_subscriptions, Hc.
    rewrite bool_decide_eq_true_2 by done. apply lookup_delete_eq. }
  split; [exact Hsubs|]. split.
  { subst st'. rewrite disconnect_connections, Hc.
    rewrite bool_decide_eq_true_2 by done.
    rewrite bool_decide_eq_false_2 by done. apply lookup_insert_eq. }
  split; [exact Hrest|]. split; [intros t; by apply subscribed_none|]. split.
  - intros e' p w H. apply distribute_sound in H as (t & _ & _ & _ & Hs & _).
    rewrite (subscribed_none st' t user_id Hsubs) in Hs. discriminate.
  - intros e' w types t Hv Ht. by apply subscribe_subscribed.
Qed.

Lemma disconnect_drops_user_subscriptions_witness :
  subscribed Scenario.two_tabs "goal" "alice" = true
  /\ registered (disconnect Scenario.calm 1 "alice" Scenario.two_tabs).2 "alice" 2
  /\ forall t,
       subscribed (disconnect Scenario.calm 1 "alice" Scenario.two_tabs).2 t "alice"
       = false.
Proof.
  assert (_connections Scenario.two_tabs !! "alice" = Some ({[1; 2]} : gset ws)) as Hc
    by (vm_compute; reflexivity).
  assert (1 ∈ ({[1; 2]} : gset ws)) as Hin by set_solver.
  assert (1 < size ({[1; 2]} : gset ws)) as Hsz by (vm_compute; lia).
  destruct (disconnect_drops_user_subscriptions Scenario.calm 1 "alice"
              Scenario.two_tabs {[1; 2]} Hc Hin Hsz) as (_ & Hr & _ & Hs & _).
  split; [vm_compute; reflexivity|]. split; [|exact Hs].
  exists ({[1; 2]} ∖ {[1]}). split; [exact Hr | set_solver].
Defined.

(** *** Heartbeat *)

Lemma disconnect_unregisters e w u st : ~ registered (disconnect e w u st).2 u w.
Proof.
  intros (conns & Hc & Hw). rewrite disconnect_connections in Hc.
  destruct (_connections st !! u) as [old|] eqn:Hu; [|congruence].
  case_bool_decide as Hin.
  - case_bool_decide.
    + rewrite lookup_delete_eq in Hc. discriminate.
    + rewrite lookup_insert_eq in Hc. injection Hc as <-.
      apply elem_of_difference in Hw as [_ Hw]. apply Hw. by apply elem_of_singleton.
  - rewrite Hu in Hc. injection Hc as <-. done.
Qed.

(** What decides a heartbeat round: the loop goes on exactly when the ping
    was sent and some message came back in time, whatever the message says;
    then the state is untouched.  Otherwise the connection is out of the
    registry. *)
Lemma heartbeat_round_spec e w u r st :
  ((heartbeat_round e w u r st).1 = true <->
     io_send e w = Sent /\ exists m, r = Received m)
  /\ ((heartbeat_round e w u r st).1 = true -> (heartbeat_round e w u r st).2 = st)
  /\ ((heartbeat_round e w u r st).1 = false ->
      ~ registered (heartbeat_round e w u r st).2 u w).
Proof.
  unfold heartbeat_round. destruct (io_send e w).
  - destruct r; cbn [fst snd]; repeat split; try done; eauto;
      try (intros [_ [m Hm]]; discriminate);
      try (intros _; apply disconnect_unregisters).
  - cbn [fst snd]. repeat split; try done.
    + intros [? _]; discriminate.
    + intros _. apply disconnect_unregisters.
  - cbn [fst snd]. repeat split; try done.
    + intros [? _]; discriminate.
    + intros _. apply disconnect_unregisters.
Qed.

(** C7 at the failing input: the client answers the ping in time with a
    message that is not a pong (here a subscription request); the round goes
    on and the connection stays registered. *)
Theorem heartbeat_accepts_any_message :
  let st := run [(Scenario.calm, Connect 1 "alice")] init in
  let reply := {| msg_type := "subscribe" |} in
  is_pong reply = false
  /\ heartbeat_round Scenario.calm 1 "alice" (Received reply) st = (true, st)
  /\ registered st "alice" 1
  /\ _monitor_heartbeat Scenario.calm 1 "alice"
       [Received reply; Received reply; Received reply] st = (true, st).
Proof.
  cbv zeta. split; [reflexivity|]. split; [reflexivity|]. split; [|reflexivity].
  exists {[1]}. split; [vm_compute; reflexivity | set_solver].
Qed.

End WebSocketFacts.

(** ** Publishing *)

Module EventFacts.
Import EventManager.

Lemma event_type_values_eq :
  event_type_values =
  ["account.update"; "transaction.create"; "budget.update"; "goal.update";
   "investment.update"].
Proof. reflexivity. Qed.

Lemma create_event_channel_known t :
  t ∈ event_type_values -> create_event_channel t = Return ("events:" +:+ t).
Proof.
  intros H. unfold create_event_channel. by rewrite bool_decide_eq_true_2.
Qed.

(** C5, amended. [publish_event] always returns a boolean, never an
    exception; it returns True exactly when the type is one of the five
    values of EVENT_TYPES (account.update, transaction.create, budget.update,
    goal.update, investment.update), the payload serialises and the awaited
    write to the channel [events:<type>] completes.  For every other type, sync.failed
    among them, it returns False and changes nothing. *)
Theorem publish_event_result e event_type message targets st :
  ((publish_event e event_type message targets st).1 = true <->
     event_type ∈ ["account.update"; "transaction.create"; "budget.update";
                   "goal.update"; "investment.update"]
     /\ io_dumps e message = true
     /\ io_cache e ("events:" +:+ event_type) = CacheDone)
  /\ (event_type ∉ ["account.update"; "transaction.create"; "budget.update";
                    "goal.update"; "investment.update"] ->
      publish_event e event_type message targets st = (false, st)).
Proof.
  rewrite <- event_type_values_eq. unfold publish_event.
  destruct (decide (event_type ∈ event_type_values)) as [Hin|Hout].
  - rewrite bool_decide_eq_true_2 by done. cbn [negb].
    rewrite (create_event_channel_known _ Hin).
    split; [|done].
    destruct (io_dumps e message); cbn [negb fst].
    + destruct (io_cache e ("events:" +:+ event_type)) eqn:Hc; cbn [fst].
      * split; [intros _|done]. repeat split; done.
      * split; [done|]. intros (_ & _ & H). discriminate.
      * split; [done|]. intros (_ & _ & H). discriminate.
    + split; [done|]. intros (_ & ? & _). discriminate.
  - rewrite bool_decide_eq_false_2 by done. cbn [negb fst].
    split; [|done]. split; [done|]. intros (? & _). done.
Qed.

Lemma publish_event_result_witness :
  publish_event Scenario.calm "sync.failed" (PData "3 failures") (Some ["alice"]) init
  = (false, init)
  /\ (publish_event Scenario.calm "goal.update" (PData "progress") None init).1
     = true.
Proof.
  destruct (publish_event_result Scenario.calm "sync.failed" (PData "3 failures")
              (Some ["alice"]) init) as [_ Hout].
  destruct (publish_event_result Scenario.calm "goal.update" (PData "progress")
              None init) as [Hin _].
  split.
  - apply Hout. apply (bool_decide_unpack _). vm_compute. exact I.
  - apply Hin. split; [|split; reflexivity].
    apply (bool_decide_unpack _). vm_compute. exact I.
Defined.

(** C5 as stated fails: sync.failed is in the specification's set and is
    refused, with every awaited call completing. *)
Lemma sync_failed_is_not_published :
  "sync.failed" ∈ spec_known_event_types
  /\ publish_event Scenario.calm "sync.failed" (PData "3 failures")
       (Some ["alice"]) init = (false, init)
  /\ ~ (forall e t m targets st,
          (publish_event e t m targets st).1 = true <-> t ∈ spec_known_event_types).
Proof.
  assert ("sync.failed" ∈ spec_known_event_types) as Hin
    by (apply (bool_decide_unpack _); vm_compute; exact I).
  split; [exact Hin|]. split; [reflexivity|].
  intros H.
  destruct (H Scenario.calm "sync.failed" (PData "3 failures") (Some ["alice"]) init)
    as [_ Hpub].
  specialize (Hpub Hin). discriminate.
Qed.

End EventFacts.

(** ** Synchronisation *)

Module SyncFacts.
Import SyncService.

(** *** The repository's own tests, replayed *)

(** tests/test_services/test_sync_service.py, test_sync_account_data: the
    first sync of a user publishes account.update to that user and reports a
    change. *)
Example test_sync_account_data :
  exists r st,
    sync_account_data Scenario.steady_env "u1" "token_1" init = (Return r, st)
    /\ as_user_id r = "u1"
    /\ as_balances r
       = [PlaidService.balance_of (io_now Scenario.calm) Scenario.acc_1]
    /\ changes_detected r = true
    /\ map (fun c => (call_type c, call_payload c, call_user_ids c)) (published st)
       = [("account.update", PAccount "u1" (as_balances r), Some ["u1"])].
Proof.
  eexists _, _. split; [vm_compute; reflexivity|].
  repeat split; vm_compute; reflexivity.
Qed.

(** test_sync_transactions: the aggregator is asked with no cursor, the
    batch is published to the user, the result carries the count and the new
    cursor. *)
Example test_sync_transactions :
  exists r st,
    sync_transactions Scenario.steady_env "u1" "token_1" init = (Return r, st)
    /\ _sync_cursors init !! "u1" = None
    /\ ts_user_id r = "u1"
    /\ new_transactions r = 1
    /\ ts_cursor r = "c1"
    /\ map (fun c => (call_type c, call_payload c, call_user_ids c)) (published st)
       = [("transaction.create", PTransactions "u1" [Scenario.tx_1], Some ["u1"])].
Proof.
  eexists _, _. split; [vm_compute; reflexivity|].
  repeat split; vm_compute; reflexivity.
Qed.

(** test_schedule_sync: scheduling registers a task for the user and
    cancelling takes it out. *)
Example test_schedule_sync :
  let r := schedule_sync "u1" ["token_1"; "token_2"] 120 init in
  r.1 = true
  /\ is_Some (_sync_tasks r.2 !! "u1")
  /\ _sync_tasks (cancel_sync "u1" r.2).2 !! "u1" = None.
Proof.
  cbv zeta. split; [reflexivity|]. split; [|vm_compute; reflexivity].
  exists 0. vm_compute. reflexivity.
Qed.

(** *** Balances *)

(** What [sync_account_data] answers and does, for any state and any
    answer of the aggregator. *)
Lemma sync_account_data_spec en user_id token st :
  match PlaidService.get_balances (plaid en) (io_now (world en)) token with
  | Raise x => sync_account_data en user_id token st = (Raise x, st)
  | Return balances =>
    exists r st',
      sync_account_data en user_id token st = (Return r, st')
      /\ as_balances r = balances
      /\ changes_detected r
         = negb (truthy_opt_list (balance_entries (cache st) !! user_id))
           || negb (bool_decide (Some balances = balance_entries (cache st) !! user_id))
      /\ (changes_detected r = false -> st' = st)
      /\ (changes_detected r = true ->
          balance_entries (cache st') !! user_id = Some balances
          /\ exists ok,
               published st' = published st ++
                 [{| call_type := "account.update";
                     call_payload := PAccount user_id balances;
                     call_user_ids := Some [user_id];
                     call_result := ok |}])
  end.
Proof.
  unfold sync_account_data.
  destruct (PlaidService.get_balances _ _ _) as [balances|x]; [|reflexivity].
  destruct (negb (truthy_opt_list (balance_entries (cache st) !! user_id))
            || negb (bool_decide (Some balances = balance_entries (cache st) !! user_id)))
    eqn:Hcmp.
  - eexists _, _. split; [reflexivity|]. cbn [as_balances changes_detected].
    repeat split; try done.
    + cbn [publish cache set_cache set_balance_entries balance_entries].
      apply lookup_insert_eq.
    + eexists. reflexivity.
  - eexists _, _. split; [reflexivity|]. cbn [as_balances changes_detected].
    repeat split; done.
Qed.

(** A stamp that differs from the cached one makes the lists differ. *)
Lemma restamped_differs t0 t1 (accounts : list PlaidService.account) :
  t0 <> t1 -> accounts <> [] ->
  map (PlaidService.balance_of t1) accounts
  <> map (PlaidService.balance_of t0) accounts
  /\ map amounts (map (PlaidService.balance_of t1) accounts)
     = map amounts (map (PlaidService.balance_of t0) accounts).
Proof.
  intros Ht Hne. split.
  - destruct accounts as [|a l]; [done|]. simpl. intros [=]. done.
  - rewrite !map_map. reflexivity.
Qed.

(** C9 at the failing input: two fetches an hour apart give the same
    account with the same amounts; the second sync reports a change all the
    same, overwrites the cache and publishes a second account.update.  With
    the clock standing still the same answer is no change. *)
Theorem balance_change_reported_without_change :
  let st1 := (sync_account_data Scenario.steady_env "u1" "token_1" init).2 in
  let stamped now := map (PlaidService.balance_of now) [Scenario.acc_1] in
  let t0 := io_now Scenario.calm in
  let t1 := io_now Scenario.calm_later in
  balance_entries (cache st1) !! "u1" = Some (stamped t0)
  /\ PlaidService.get_balances Scenario.steady t1 "token_1" = Return (stamped t1)
  /\ map amounts (stamped t1) = map amounts (stamped t0)
  /\ (exists r st2,
        sync_account_data Scenario.steady_env_later "u1" "token_1" st1
        = (Return r, st2)
        /\ changes_detected r = true
        /\ balance_entries (cache st2) !! "u1" = Some (stamped t1)
        /\ map call_type (published st2) = ["account.update"; "account.update"])
  /\ (exists r,
        sync_account_data Scenario.steady_env "u1" "token_1" st1 = (Return r, st1)
        /\ changes_detected r = false).
Proof.
  cbv zeta. split; [vm_compute; reflexivity|]. split; [reflexivity|].
  split; [reflexivity|]. split.
  - eexists _, _. split; [vm_compute; reflexivity|].
    split; [reflexivity|]. split; vm_compute; reflexivity.
  - eexists. split; [vm_compute; reflexivity | reflexivity].
Qed.

(** *** Cursors *)

(** Writing the same cursor again, after a write that returned, returns
    and leaves the cursor cache as it is. *)
Lemma save_cursor_entries_again u c m :
  (save_cursor_entries u c m).1 = Return () ->
  save_cursor_entries u c (save_cursor_entries u c m).2
  = (Return (), (save_cursor_entries u c m).2).
Proof.
  assert (forall l, u ∉ l ->
            (<[u := CStr c]> m !! "keys" = None \/
             <[u := CStr c]> m !! "keys" = Some (CKeys l) \/
             (l = [] /\ <[u := CStr c]> m !! "keys" = Some (CStr ""))) ->
            save_cursor_entries u c
              (<["keys" := CKeys (l ++ [u])]> (<[u := CStr c]> m))
            = (Return (), <["keys" := CKeys (l ++ [u])]> (<[u := CStr c]> m)))
    as Happended.
  { intros l Hl Hkeys. unfold save_cursor_entries.
    destruct (decide (u = "keys")) as [->|Hne].
    - (* the user id is [keys] and the cursor is empty *)
      rewrite lookup_insert_eq in Hkeys.
      destruct Hkeys as [?|[?|[-> [= ->]]]]; try discriminate.
      rewrite !insert_insert_eq, lookup_insert_eq. cbn [truthy_str String.eqb negb].
      by rewrite bool_decide_eq_false_2 by apply not_elem_of_nil.
    - rewrite (insert_insert_ne _ u "keys") by done.
      rewrite insert_insert_eq, lookup_insert_eq.
      rewrite bool_decide_eq_true_2; [done|].
      apply elem_of_app. right. apply list_elem_of_here. }
  assert (save_cursor_entries u c (<[u := CStr c]> m) = save_cursor_entries u c m)
    as Hsame.
  { unfold save_cursor_entries. by rewrite insert_insert_eq. }
  unfold save_cursor_entries at 1 3 4.
  destruct (<[u := CStr c]> m !! "keys") as [[s|l]|] eqn:Hk.
  - destruct (truthy_str s) eqn:Hs; cbn [negb].
    + destruct (substring_of u s) eqn:Hsub; cbn [fst snd]; [|discriminate].
      intros _. rewrite Hsame. unfold save_cursor_entries.
      by rewrite Hk, Hs, Hsub.
    + rewrite bool_decide_eq_false_2 by apply not_elem_of_nil. cbn [fst snd].
      intros _. apply (Happended []); [apply not_elem_of_nil|].
      right. right. split; [done|]. f_equal. f_equal.
      unfold truthy_str in Hs. by apply negb_false_iff, String.eqb_eq in Hs.
  - destruct (decide (u ∈ l)) as [Hin|Hout].
    + rewrite bool_decide_eq_true_2 by done. cbn [fst snd].
      intros _. rewrite Hsame. unfold save_cursor_entries.
      by rewrite Hk, bool_decide_eq_true_2.
    + rewrite bool_decide_eq_false_2 by done. cbn [fst snd].
      intros _. apply (Happended l); auto.
  - rewrite bool_decide_eq_false_2 by apply not_elem_of_nil. cbn [fst snd].
    intros _. apply (Happended []); [apply not_elem_of_nil | auto].
Qed.


Lemma save_published u c st :
  published (_save_sync_cursor u c st).2 = published st.
Proof. reflexivity. Qed.

(** The call [publish_event] that [sync_transactions] makes for a batch. *)
Lemma sync_transactions_unfold en u tok st txs nc :
  PlaidService.sync_transactions (plaid en) tok (_sync_cursors st !! u)
  = Return (txs, nc) ->
  let saved := if truthy_str nc then _save_sync_cursor u nc st else (Return (), st) in
  sync_transactions en u tok st
  = match saved.1 with
    | Raise x => (Raise x, saved.2)
    | Return _ =>
      (Return {| ts_user_id := u; new_transactions := length txs;
                 ts_cursor := nc; ts_sync_time := io_now (world en) |},
       if truthy_list txs
       then publish (world en) "transaction.create" (PTransactions u txs)
              (Some [u]) saved.2
       else saved.2)
    end.
Proof.
  intros H. unfold sync_transactions. rewrite H.
  destruct (truthy_str nc); cbn [fst snd]; [|reflexivity].
  destruct (_save_sync_cursor u nc st) as [[[]|x] st1]; reflexivity.
Qed.

(** C2, amended. When the aggregator call raises, [sync_transactions]
    raises the same and the state, cursor included, is as before.  When it
    returns, the stored cursor becomes the answer's next_cursor exactly when
    that is not empty; the cursor is written first and stays written whatever
    follows: the batch being published with success, [publish_event]
    answering False, or the rest of the save raising before anything is
    published. *)
Theorem cursor_follows_aggregator en user_id token st :
  (forall x,
     PlaidService.sync_transactions (plaid en) token (_sync_cursors st !! user_id)
     = Raise x ->
     sync_transactions en user_id token st = (Raise x, st))
  /\ (forall txs nc,
        PlaidService.sync_transactions (plaid en) token (_sync_cursors st !! user_id)
        = Return (txs, nc) ->
        _sync_cursors (sync_transactions en user_id token st).2
        = (if truthy_str nc then <[user_id := nc]> (_sync_cursors st)
           else _sync_cursors st)
        /\ match (sync_transactions en user_id token st).1 with
           | Return r =>
             ts_cursor r = nc
             /\ published (sync_transactions en user_id token st).2
                = published st ++
                  (if truthy_list txs
                   then [{| call_type := "transaction.create";
                            call_payload := PTransactions user_id txs;
                            call_user_ids := Some [user_id];
                            call_result :=
                              (EventManager.publish_event (world en)
                                 "transaction.create" (PTransactions user_id txs)
                                 (Some [user_id]) (_event_manager st)).1 |}]
                   else [])
           | Raise _ =>
             published (sync_transactions en user_id token st).2 = published st
           end).
Proof.
  split.
  - intros x H. unfold sync_transactions. by rewrite H.
  - intros txs nc H. rewrite (sync_transactions_unfold _ _ _ _ _ _ H). cbv zeta.
    destruct (truthy_str nc).
    + destruct (_save_sync_cursor user_id nc st) as [o st1] eqn:E.
      assert (_sync_cursors st1 = <[user_id := nc]> (_sync_cursors st)
              /\ published st1 = published st
              /\ _event_manager st1 = _event_manager st) as (Hc & Hp & He).
      { replace st1 with (_save_sync_cursor user_id nc st).2 by (by rewrite E).
        repeat split; reflexivity. }
      cbn [fst snd]. destruct o as [[]|x]; cbn [fst snd].
      * destruct (truthy_list txs); cbn [publish _sync_cursors published].
        -- rewrite Hc, Hp, He. done.
        -- rewrite Hc, Hp, app_nil_r. done.
      * done.
    + cbn [fst snd]. destruct (truthy_list txs); cbn [publish _sync_cursors published].
      * done.
      * by rewrite app_nil_r.
Qed.

Lemma cursor_follows_aggregator_witness :
  sync_transactions Scenario.unreachable_env "u1" "token_1" init
  = (Raise ApiException, init)
  /\ _sync_cursors (sync_transactions Scenario.steady_env "u1" "token_1" init).2
     = <["u1" := "c1"]> (_sync_cursors init).
Proof.
  destruct (cursor_follows_aggregator Scenario.unreachable_env "u1" "token_1" init)
    as [Hraise _].
  destruct (cursor_follows_aggregator Scenario.steady_env "u1" "token_1" init)
    as [_ Hret].
  split.
  - apply Hraise. reflexivity.
  - apply (Hret [Scenario.tx_1] "c1"). reflexivity.
Defined.

(** C2 as stated fails twice over.  With the managers on the cache of
    core/cache.py the batch is never broadcast and [publish_event] answers
    False, yet the cursor has moved.  For the user id [keys] the call raises
    after the cursor is written and before anything is published, and the
    cursor has moved. *)
Lemma cursor_advances_without_batch :
  let r := sync_transactions Scenario.steady_env_plain_cache "u1" "token_1" init in
  let r' := sync_transactions Scenario.steady_env "keys" "token_1" init in
  _sync_cursors init !! "u1" = None
  /\ _sync_cursors r.2 !! "u1" = Some "c1"
  /\ map call_result (published r.2) = [false]
  /\ EventManager._ws_manager (_event_manager r.2) = WebSocketManager.init
  /\ _sync_cursors init !! "keys" = None
  /\ r'.1 = Raise AttributeError
  /\ _sync_cursors r'.2 !! "keys" = Some "c1"
  /\ published r'.2 = [].
Proof. cbv zeta. repeat split; vm_compute; reflexivity. Qed.

(** *** Replay *)

(** C1, amended. A run of [sync_transactions] returned, and the cursor it
    leaves for the user is the one it started from; the aggregator, asked
    again with that cursor, gives the same answer.  Then the second run
    returns the very same result: it counts every added record of the answer
    as new again (zero only when the answer adds nothing) and, when there is
    one, publishes one more transaction.create event carrying all of them; no
    record is skipped.  What the second run leaves unchanged is the stored
    cursor, in memory and in the cache. *)
Theorem replay_counts_batch_again en user_id token st r1 st1 :
  sync_transactions en user_id token st = (Return r1, st1) ->
  _sync_cursors st1 !! user_id = _sync_cursors st !! user_id ->
  exists txs nc st2,
    PlaidService.sync_transactions (plaid en) token (_sync_cursors st1 !! user_id)
    = Return (txs, nc)
    /\ sync_transactions en user_id token st1 = (Return r1, st2)
    /\ new_transactions r1 = length txs
    /\ (new_transactions r1 = 0 <-> txs = [])
    /\ _sync_cursors st2 = _sync_cursors st1
    /\ cursor_entries (cache st2) = cursor_entries (cache st1)
    /\ published st2
       = published st1 ++
         (if truthy_list txs
          then [{| call_type := "transaction.create";
                   call_payload := PTransactions user_id txs;
                   call_user_ids := Some [user_id];
                   call_result :=
                     (EventManager.publish_event (world en) "transaction.create"
                        (PTransactions user_id txs) (Some [user_id])
                        (_event_manager st1)).1 |}]
          else []).
Proof.
  intros Hrun Hcur.
  destruct (PlaidService.sync_transactions (plaid en) token
              (_sync_cursors st !! user_id)) as [[txs nc]|x] eqn:Hp.
  2:{ unfold sync_transactions in Hrun. rewrite Hp in Hrun. discriminate. }
  exists txs, nc.
  assert (PlaidService.sync_transactions (plaid en) token
            (_sync_cursors st1 !! user_id) = Return (txs, nc)) as Hp1
    by (by rewrite Hcur).
  rewrite (sync_transactions_unfold _ _ _ _ _ _ Hp) in Hrun.
  rewrite (sync_transactions_unfold _ _ _ _ _ _ Hp1).
  cbv zeta in *.
  set (pub := fun s : state =>
         if truthy_list txs
         then publish (world en) "transaction.create" (PTransactions user_id txs)
                (Some [user_id]) s
         else s) in *.
  assert (forall s, cache (pub s) = cache s) as Hpc
    by (intros s; unfold pub; by destruct (truthy_list txs)).
  assert (forall s, _sync_cursors (pub s) = _sync_cursors s) as Hps
    by (intros s; unfold pub; by destruct (truthy_list txs)).
  assert (forall s,
            published (pub s)
            = published s ++
              (if truthy_list txs
               then [{| call_type := "transaction.create";
                        call_payload := PTransactions user_id txs;
                        call_user_ids := Some [user_id];
                        call_result :=
                          (EventManager.publish_event (world en)
                             "transaction.create" (PTransactions user_id txs)
                             (Some [user_id]) (_event_manager s)).1 |}]
               else [])) as Hpp.
  { intros s. unfold pub. destruct (truthy_list txs); [done|].
    by rewrite app_nil_r. }
  assert (length txs = 0 <-> txs = []) as Hlen
    by (destruct txs; split; done).
  destruct (truthy_str nc) eqn:Hnc.
  - remember (_save_sync_cursor user_id nc st) as saved eqn:Esaved.
    assert (saved.1 = (save_cursor_entries user_id nc (cursor_entries (cache st))).1
            /\ cursor_entries (cache saved.2)
               = (save_cursor_entries user_id nc (cursor_entries (cache st))).2
            /\ _sync_cursors saved.2 = <[user_id := nc]> (_sync_cursors st))
      as (Ho & Hent & Hcs) by (subst saved; repeat split; reflexivity).
    clear Esaved.
    destruct (saved.1) as [[]|x] eqn:Hs1; [|discriminate].
    injection Hrun as Hr Hst'.
    assert (pub saved.2 = st1) as Hst by exact Hst'. clear Hst'.
    remember (_save_sync_cursor user_id nc st1) as saved2 eqn:Esaved2.
    assert (saved2.1
            = (save_cursor_entries user_id nc (cursor_entries (cache st1))).1
            /\ cursor_entries (cache saved2.2)
               = (save_cursor_entries user_id nc (cursor_entries (cache st1))).2
            /\ _sync_cursors saved2.2 = <[user_id := nc]> (_sync_cursors st1)
            /\ published saved2.2 = published st1
            /\ _event_manager saved2.2 = _event_manager st1)
      as (Ho2 & Hent2 & Hcs2 & Hpub2 & Hem2)
      by (subst saved2; repeat split; reflexivity).
    clear Esaved2.
    assert (cursor_entries (cache st1)
            = (save_cursor_entries user_id nc (cursor_entries (cache st))).2)
      as Hst1 by (rewrite <- Hst, Hpc; exact Hent).
    assert (_sync_cursors st1 = <[user_id := nc]> (_sync_cursors st)) as Hcur1
      by (rewrite <- Hst, Hps; exact Hcs).
    rewrite Hst1, save_cursor_entries_again in Ho2, Hent2 by (by rewrite <- Ho).
    cbn [fst snd] in Ho2, Hent2. rewrite Ho2.
    exists (pub saved2.2). split; [done|]. split; [by rewrite Hr|].
    rewrite <- Hr. cbn [new_transactions]. split; [done|]. split; [exact Hlen|].
    rewrite Hps, Hpc, Hpp, Hcs2, Hent2, Hpub2, Hem2, Hcur1, Hst1.
    split; [apply insert_insert_eq | done].
  - cbn [fst snd] in *. injection Hrun as Hr Hst'.
    assert (pub st = st1) as Hst by exact Hst'. clear Hst'.
    exists (pub st1). split; [done|]. split; [by rewrite Hr|].
    rewrite <- Hr. cbn [new_transactions]. split; [done|]. split; [exact Hlen|].
    rewrite Hps, Hpc, Hpp. done.
Qed.

Lemma replay_counts_batch_again_witness :
  let st := (sync_transactions Scenario.steady_env "u1" "token_1" init).2 in
  let st1 := (sync_transactions Scenario.steady_env "u1" "token_1" st).2 in
  let r := {| ts_user_id := "u1"; new_transactions := 1; ts_cursor := "c1";
              ts_sync_time := io_now Scenario.calm |} in
  exists st2,
    sync_transactions Scenario.steady_env "u1" "token_1" st1 = (Return r, st2)
    /\ _sync_cursors st2 = _sync_cursors st1.
Proof.
  cbv zeta.
  destruct (replay_counts_batch_again Scenario.steady_env "u1" "token_1"
              (sync_transactions Scenario.steady_env "u1" "token_1" init).2
              {| ts_user_id := "u1"; new_transactions := 1; ts_cursor := "c1";
                 ts_sync_time := io_now Scenario.calm |}
              (sync_transactions Scenario.steady_env "u1" "token_1"
                 (sync_transactions Scenario.steady_env "u1" "token_1" init).2).2)
    as (txs & nc & st2 & _ & Hrun & _ & _ & Hsame & _).
  - vm_compute. reflexivity.
  - vm_compute. reflexivity.
  - exists st2. split; [exact Hrun | exact Hsame].
Defined.

(** C1 as stated fails: the aggregator answers the cursor [c1] with one
    added transaction and the cursor [c1]; run after run with that cursor and
    that answer reports one new transaction and publishes it once more. *)
Lemma replay_is_not_a_no_op :
  let st1 := (sync_transactions Scenario.steady_env "u1" "token_1" init).2 in
  let run2 := sync_transactions Scenario.steady_env "u1" "token_1" st1 in
  let run3 := sync_transactions Scenario.steady_env "u1" "token_1" run2.2 in
  _sync_cursors st1 !! "u1" = Some "c1"
  /\ _sync_cursors run2.2 !! "u1" = Some "c1"
  /\ PlaidService.sync_transactions Scenario.steady "token_1" (Some "c1")
     = Return ([Scenario.tx_1], "c1")
  /\ (exists r, run3.1 = Return r /\ new_transactions r = 1)
  /\ map call_payload (published run3.2)
     = [PTransactions "u1" [Scenario.tx_1]; PTransactions "u1" [Scenario.tx_1];
        PTransactions "u1" [Scenario.tx_1]].
Proof.
  cbv zeta. split; [vm_compute; reflexivity|]. split; [vm_compute; reflexivity|].
  split; [reflexivity|]. split.
  - eexists. split; [vm_compute; reflexivity | reflexivity].
  - vm_compute. reflexivity.
Qed.

(** *** The periodic task *)

Lemma extends_refl st : extends st st.
Proof.
  repeat split; try done. exists []. by rewrite app_nil_r.
Qed.

Lemma extends_trans st1 st2 st3 :
  extends st1 st2 -> extends st2 st3 -> extends st1 st3.
Proof.
  intros (H1 & H2 & x & H3 & H4) (H5 & H6 & y & H7 & H8).
  repeat split; [congruence | congruence |].
  exists (x ++ y). rewrite H7, H3, app_assoc. split; [done|].
  by apply Forall_app.
Qed.

Lemma extends_publish e t m targets st :
  t = "account.update" \/ t = "transaction.create" ->
  extends st (publish e t m targets st).
Proof.
  intros Ht. repeat split; try done. eexists. split; [reflexivity|].
  apply Forall_cons. split; [exact Ht | apply Forall_nil_2].
Qed.

Lemma extends_same st st' :
  _sync_tasks st' = _sync_tasks st -> tasks st' = tasks st ->
  published st' = published st -> extends st st'.
Proof.
  intros H1 H2 H3. repeat split; try done. exists []. by rewrite app_nil_r.
Qed.

Lemma sync_account_data_extends en u tok st :
  extends st (sync_account_data en u tok st).2.
Proof.
  unfold sync_account_data.
  destruct (PlaidService.get_balances _ _ _) as [balances|x];
    [|apply extends_refl].
  destruct (negb _ || negb _); cbn [snd]; [|apply extends_refl].
  eapply extends_trans; [|apply extends_publish; by left].
  by apply extends_same.
Qed.

Lemma sync_transactions_extends en u tok st :
  extends st (sync_transactions en u tok st).2.
Proof.
  destruct (PlaidService.sync_transactions (plaid en) tok (_sync_cursors st !! u))
    as [[txs nc]|x] eqn:Hp.
  2:{ unfold sync_transactions. rewrite Hp. apply extends_refl. }
  rewrite (sync_transactions_unfold _ _ _ _ _ _ Hp). cbv zeta.
  assert (extends st
            (if truthy_str nc then _save_sync_cursor u nc st else (Return (), st)).2)
    as Hsaved.
  { destruct (truthy_str nc); [by apply extends_same | apply extends_refl]. }
  destruct ((if truthy_str nc then _save_sync_cursor u nc st else (Return (), st)).1)
    as [[]|x]; cbn [snd]; [|exact Hsaved].
  destruct (truthy_list txs); [|exact Hsaved].
  eapply extends_trans; [exact Hsaved | apply extends_publish; by right].
Qed.

Lemma sync_tokens_extends en u tokens st :
  extends st (sync_tokens en u tokens st).2.
Proof.
  revert st. induction tokens as [|tok rest IH]; intros st; simpl.
  - apply extends_refl.
  - pose proof (sync_account_data_extends en u tok st) as H1.
    destruct (sync_account_data en u tok st) as [[r|x] st1]; cbn [snd] in *;
      [|exact H1].
    pose proof (sync_transactions_extends en u tok st1) as H2.
    destruct (sync_transactions en u tok st1) as [[r'|x] st2]; cbn [snd] in *.
    + eapply extends_trans; [exact H1|]. eapply extends_trans; [exact H2|]. apply IH.
    + eapply extends_trans; [exact H1 | exact H2].
Qed.

(** A round sleeps 60 seconds after a failure and the interval after a
    success, keeps the schedule's user, tokens and interval, and publishes
    only the two sync events. *)
Lemma sync_task_round_spec en sch st :
  let r := sync_task_round en sch st in
  (r.1.1 = 60%Z \/ r.1.1 = (sch_interval sch * 60)%Z)
  /\ sch_user_id r.1.2 = sch_user_id sch
  /\ sch_access_tokens r.1.2 = sch_access_tokens sch
  /\ sch_interval r.1.2 = sch_interval sch
  /\ extends st r.2.
Proof.
  unfold sync_task_round.
  pose proof (sync_tokens_extends en (sch_user_id sch) (sch_access_tokens sch) st)
    as H.
  destruct (sync_tokens en (sch_user_id sch) (sch_access_tokens sch) st)
    as [[[]|x] st1]; cbn [fst snd] in *.
  - split; [by right|]. do 3 (split; [reflexivity|]).
    eapply extends_trans; [exact H|]. by apply extends_same.
  - split; [by left|]. do 3 (split; [reflexivity|]). exact H.
Qed.

(** With the aggregator out of reach a round changes nothing and sleeps 60
    seconds. *)
Lemma sync_task_round_unreachable en sch st :
  sch_access_tokens sch <> [] ->
  (forall tok, exists x,
     PlaidService.get_balances (plaid en) (io_now (world en)) tok = Raise x) ->
  sync_task_round en sch st = (60%Z, sch, st).
Proof.
  intros Hne Hfail. unfold sync_task_round.
  destruct (sch_access_tokens sch) as [|tok rest]; [done|]. simpl.
  unfold sync_account_data. destruct (Hfail tok) as [x ->]. reflexivity.
Qed.

Lemma sync_task_spec ens sch st :
  let r := sync_task ens sch st in
  length r.1.1 = length ens
  /\ Forall (fun d => d = 60%Z \/ d = (sch_interval sch * 60)%Z) r.1.1
  /\ extends st r.2.
Proof.
  revert sch st. induction ens as [|en rest IH]; intros sch st; simpl.
  - split; [done|]. split; [apply Forall_nil_2 | apply extends_refl].
  - pose proof (sync_task_round_spec en sch st) as (Hd & _ & _ & Hi & He).
    destruct (sync_task_round en sch st) as [[d sch1] st1]. cbn [fst snd] in *.
    pose proof (IH sch1 st1) as (Hl & Hf & He').
    destruct (sync_task rest sch1 st1) as [[ds sch2] st2]. cbn [fst snd] in *.
    cbn [fst snd length]. split; [|split].
    + by rewrite Hl.
    + apply Forall_cons. split; [exact Hd|]. by rewrite <- Hi.
    + eapply extends_trans; [exact He | exact He'].
Qed.

Lemma sync_task_unreachable ens sch st :
  sch_access_tokens sch <> [] ->
  (forall en, en ∈ ens -> forall tok, exists x,
     PlaidService.get_balances (plaid en) (io_now (world en)) tok = Raise x) ->
  sync_task ens sch st = (replicate (length ens) 60%Z, sch, st).
Proof.
  intros Hne. induction ens as [|en rest IH]; intros Hfail; simpl; [done|].
  rewrite (sync_task_round_unreachable en sch st Hne)
    by (apply Hfail; apply list_elem_of_here).
  rewrite IH by (intros en' Hin; apply Hfail; by apply list_elem_of_further).
  reflexivity.
Qed.

Lemma extends_no_other_event st st' c :
  extends st st' -> c ∈ published st' -> c ∈ published st \/ sync_event c.
Proof.
  intros (_ & _ & extra & -> & Hall) Hin.
  apply elem_of_app in Hin as [?|Hin]; [by left|]. right.
  rewrite Forall_forall in Hall. by apply Hall.
Qed.

(** *** Which rounds fail *)

Lemma sync_tokens_cat en u l1 l2 st :
  sync_tokens en u (l1 ++ l2) st
  = match sync_tokens en u l1 st with
    | (Return _, st1) => sync_tokens en u l2 st1
    | (Raise x, st1) => (Raise x, st1)
    end.
Proof.
  revert st. induction l1 as [|tok l1 IH]; intros st; [done|].
  cbn [app sync_tokens].
  destruct (sync_account_data en u tok st) as [[r|x] st1]; [|done].
  destruct (sync_transactions en u tok st1) as [[r'|x] st2]; [|done].
  apply IH.
Qed.

Lemma account_sync_keeps_cursors en u tok st :
  _sync_cursors (sync_account_data en u tok st).2 = _sync_cursors st.
Proof.
  unfold sync_account_data.
  destruct (PlaidService.get_balances _ _ _); [|done]. by destruct (_ || _).
Qed.

(** A token whose balance request or whose transaction request raises,
    after the tokens before it were synced, makes the round raise the
    same. *)
Lemma sync_tokens_fail en u l1 tok l2 st st1 x :
  sync_tokens en u l1 st = (Return (), st1) ->
  PlaidService.get_balances (plaid en) (io_now (world en)) tok = Raise x
  \/ ((exists balances,
         PlaidService.get_balances (plaid en) (io_now (world en)) tok
         = Return balances)
      /\ PlaidService.sync_transactions (plaid en) tok (_sync_cursors st1 !! u)
         = Raise x) ->
  (sync_tokens en u (l1 ++ tok :: l2) st).1 = Raise x.
Proof.
  intros Hl1 Hfail. rewrite sync_tokens_cat, Hl1. cbn [sync_tokens].
  destruct Hfail as [Hb|[[balances Hb] Ht]].
  - unfold sync_account_data. by rewrite Hb.
  - pose proof (account_sync_keeps_cursors en u tok st1) as Hcur.
    pose proof (sync_account_data_spec en u tok st1) as Hspec. rewrite Hb in Hspec.
    destruct Hspec as (r & st2 & Ha & _). rewrite Ha in *. cbn [snd] in Hcur.
    unfold sync_transactions. by rewrite Hcur, Ht.
Qed.

Lemma sync_task_round_sleep en sch st :
  (sync_task_round en sch st).1.1
  = match (sync_tokens en (sch_user_id sch) (sch_access_tokens sch) st).1 with
    | Raise _ => 60%Z
    | Return _ => (sch_interval sch * 60)%Z
    end.
Proof.
  unfold sync_task_round.
  by destruct (sync_tokens en (sch_user_id sch) (sch_access_tokens sch) st)
    as [[[]|x] st1].
Qed.

Lemma sync_task_schedule ens sch st :
  sch_user_id (sync_task ens sch st).1.2 = sch_user_id sch
  /\ sch_access_tokens (sync_task ens sch st).1.2 = sch_access_tokens sch
  /\ sch_interval (sync_task ens sch st).1.2 = sch_interval sch.
Proof.
  revert sch st. induction ens as [|en rest IH]; intros sch st; [done|].
  cbn [sync_task].
  pose proof (sync_task_round_spec en sch st) as (_ & Hu & Ht & Hi & _).
  destruct (sync_task_round en sch st) as [[d sch1] st1]. cbn [fst snd] in *.
  pose proof (IH sch1 st1) as (Hu' & Ht' & Hi').
  destruct (sync_task rest sch1 st1) as [[ds sch2] st2]. cbn [fst snd] in *.
  by rewrite Hu', Ht', Hi'.
Qed.

Lemma sync_task_cat ens1 ens2 sch st :
  sync_task (ens1 ++ ens2) sch st
  = ((sync_task ens1 sch st).1.1
     ++ (sync_task ens2 (sync_task ens1 sch st).1.2 (sync_task ens1 sch st).2).1.1,
     (sync_task ens2 (sync_task ens1 sch st).1.2 (sync_task ens1 sch st).2).1.2,
     (sync_task ens2 (sync_task ens1 sch st).1.2 (sync_task ens1 sch st).2).2).
Proof.
  revert sch st. induction ens1 as [|en rest IH]; intros sch st.
  - cbn [app sync_task fst snd]. by destruct (sync_task ens2 sch st) as [[? ?] ?].
  - cbn [app sync_task]. destruct (sync_task_round en sch st) as [[d sch1] st1].
    rewrite IH. destruct (sync_task rest sch1 st1) as [[ds sch2] st2].
    cbn [fst snd]. by destruct (sync_task ens2 sch2 st2) as [[? ?] ?].
Qed.

(** The sleep after each round of the loop, by the outcome of that round in
    the state the rounds before it left. *)
Lemma sync_task_sleep_at ens1 en ens2 sch st :
  (sync_task (ens1 ++ en :: ens2) sch st).1.1 !! length ens1
  = Some match (sync_tokens en (sch_user_id sch) (sch_access_tokens sch)
                  (sync_task ens1 sch st).2).1 with
         | Raise _ => 60%Z
         | Return _ => (sch_interval sch * 60)%Z
         end.
Proof.
  rewrite sync_task_cat. cbn [fst snd].
  pose proof (sync_task_spec ens1 sch st) as (Hlen & _).
  pose proof (sync_task_schedule ens1 sch st) as (Hu & Ht & Hi).
  cbv zeta in Hlen. rewrite <- Hlen, lookup_app_r by lia.
  rewrite Nat.sub_diag. cbn [sync_task].
  pose proof (sync_task_round_sleep en (sync_task ens1 sch st).1.2
                (sync_task ens1 sch st).2) as Hs.
  rewrite Hu, Ht, Hi in Hs.
  destruct (sync_task_round en _ _) as [[d sch1] st1].
  destruct (sync_task ens2 sch1 st1) as [[ds sch2] st2].
  cbn [fst snd] in *. by rewrite <- Hs.
Qed.

(** C8, amended. The periodic task, for any number of rounds under any
    answers of the aggregator and of the outside world: every round is
    followed by a sleep and the next round, the loop has no exit.  A round
    fails when the balance request or the transaction request of one of its
    tokens raises, the tokens before it having been synced; the sleep after a
    failed round is 60 seconds, the same after every failure, and the schedule
    is left as it was; the sleep after a completed round is the interval.
    Nothing but account.update and transaction.create is ever published, so
    no sync.failed, and the task registry is not touched.  With the aggregator
    out of reach for n rounds in a row the n sleeps are all 60 seconds and
    schedule and state are what they were before the first. *)
Theorem sync_task_retries_for_ever ens sch st :
  (length (sync_task ens sch st).1.1 = length ens
   /\ (forall c, c ∈ published (sync_task ens sch st).2 ->
         c ∈ published st \/ call_type c = "account.update"
         \/ call_type c = "transaction.create")
   /\ _sync_tasks (sync_task ens sch st).2 = _sync_tasks st
   /\ tasks (sync_task ens sch st).2 = tasks st)
  /\ (forall ens1 en ens2,
        ens = ens1 ++ en :: ens2 ->
        (sync_task ens sch st).1.1 !! length ens1
        = Some match (sync_tokens en (sch_user_id sch) (sch_access_tokens sch)
                        (sync_task ens1 sch st).2).1 with
               | Raise _ => 60%Z
               | Return _ => (sch_interval sch * 60)%Z
               end)
  /\ (forall en st0 l1 tok l2 st1 x,
        sch_access_tokens sch = l1 ++ tok :: l2 ->
        sync_tokens en (sch_user_id sch) l1 st0 = (Return (), st1) ->
        PlaidService.get_balances (plaid en) (io_now (world en)) tok = Raise x
        \/ ((exists balances,
               PlaidService.get_balances (plaid en) (io_now (world en)) tok
               = Return balances)
            /\ PlaidService.sync_transactions (plaid en) tok
                 (_sync_cursors st1 !! sch_user_id sch) = Raise x) ->
        (sync_tokens en (sch_user_id sch) (sch_access_tokens sch) st0).1 = Raise x
        /\ (sync_task_round en sch st0).1 = (60%Z, sch))
  /\ (sch_access_tokens sch <> [] ->
      (forall en, en ∈ ens -> forall tok, exists x,
         PlaidService.get_balances (plaid en) (io_now (world en)) tok = Raise x) ->
      sync_task ens sch st = (replicate (length ens) 60%Z, sch, st)).
Proof.
  pose proof (sync_task_spec ens sch st) as (Hl & Hf & He).
  split; [|split; [|split; [|apply sync_task_unreachable]]].
  - split; [exact Hl|]. split.
    + intros c Hc. by apply (extends_no_other_event st _ c He).
    + destruct He as (H1 & H2 & _). by split.
  - intros ens1 en ens2 ->. apply sync_task_sleep_at.
  - intros en st0 l1 tok l2 st1 x Htok Hl1 Hfail.
    assert ((sync_tokens en (sch_user_id sch) (sch_access_tokens sch) st0).1
            = Raise x) as Hr
      by (rewrite Htok; by apply (sync_tokens_fail en _ l1 tok l2 st0 st1 x)).
    split; [exact Hr|]. unfold sync_task_round.
    by destruct (sync_tokens en (sch_user_id sch) (sch_access_tokens sch) st0)
      as [[[]|y] st2].
Qed.

Lemma sync_task_retries_for_ever_witness :
  sync_task (replicate 3 Scenario.unreachable_env) Scenario.hourly init
  = ([60; 60; 60]%Z, Scenario.hourly, init)
  /\ (sync_task_round Samples.transactions_down_env Scenario.hourly init).1
     = (60%Z, Scenario.hourly).
Proof.
  destruct (sync_task_retries_for_ever (replicate 3 Scenario.unreachable_env)
              Scenario.hourly init) as (_ & _ & Hfail & H).
  split.
  - apply H.
    + discriminate.
    + intros en Hin tok. exists ApiException.
      apply elem_of_replicate in Hin as [-> _]. reflexivity.
  - apply (Hfail Samples.transactions_down_env init [] "token_1" [] init ApiException);
      [reflexivity | reflexivity |].
    right. split; [eexists|]; reflexivity.
Defined.

(** C8 as stated fails: after eight failed rounds in a row the delays are
    what they were after the first, the schedule is as it was, and no number
    of failed rounds makes the task publish sync.failed. *)
Lemma no_backoff_and_no_sync_failed :
  sync_task (replicate 8 Scenario.unreachable_env) Scenario.hourly init
  = ([60; 60; 60; 60; 60; 60; 60; 60]%Z, Scenario.hourly, init)
  /\ ~ (exists n c,
          c ∈ published (sync_task (replicate n Scenario.unreachable_env)
                           Scenario.hourly init).2
          /\ call_type c = "sync.failed").
Proof.
  split; [vm_compute; reflexivity|].
  intros (n & c & Hin & Ht).
  pose proof (sync_task_spec (replicate n Scenario.unreachable_env)
                Scenario.hourly init) as (_ & _ & He).
  destruct (extends_no_other_event _ _ c He Hin) as [H|[H|H]].
  - by apply elem_of_nil in H.
  - rewrite Ht in H. discriminate.
  - rewrite Ht in H. discriminate.
Qed.

(** *** The task registry *)

Lemma fresh_task_unused (ts : gmap nat task) : ts !! fresh_task ts = None.
Proof. apply not_elem_of_dom. unfold fresh_task. apply is_fresh. Qed.

Lemma init_registry_ok : registry_ok init.
Proof.
  intros u t. unfold live_for, init; simpl. split.
  - rewrite lookup_empty. discriminate.
  - intros (k & H & _). rewrite lookup_empty in H. discriminate.
Qed.

(** What [cancel_sync] does to the registry and the tasks. *)
Lemma cancel_sync_registry u st :
  _sync_tasks (cancel_sync u st).2 = delete u (_sync_tasks st)
  /\ tasks (cancel_sync u st).2
     = match _sync_tasks st !! u with
       | Some t =>
         alter (fun k => {| task_user := task_user k; task_tokens := task_tokens k;
                            task_interval := task_interval k;
                            task_cancelled := true |}) t (tasks st)
       | None => tasks st
       end.
Proof.
  unfold cancel_sync. destruct (_sync_tasks st !! u) as [t|] eqn:Hu;
    cbn [snd _sync_tasks tasks set_cache set_tasks]; split; try reflexivity.
  symmetry. by apply delete_id.
Qed.

Lemma cancel_sync_ok u st : registry_ok st -> registry_ok (cancel_sync u st).2.
Proof.
  intros Hok v t'. unfold live_for.
  destruct (cancel_sync_registry u st) as [-> ->].
  destruct (_sync_tasks st !! u) as [t|] eqn:Hu.
  - (* the user's task [t] is cancelled and taken out of the registry *)
    pose proof (proj1 (Hok u t) Hu) as (k & Hk & Hlive & Huser).
    split.
    + intros Hv. apply lookup_delete_Some in Hv as [Hne Hv].
      apply Hok in Hv as (k' & Hk' & Hlive' & Huser').
      assert (t <> t') as Htt by (intros ->; congruence).
      exists k'. by rewrite lookup_alter_ne.
    + intros (k' & Hk' & Hlive' & Huser').
      destruct (decide (t = t')) as [<-|Htt].
      * rewrite lookup_alter_eq, Hk in Hk'. simpl in Hk'.
        injection Hk' as <-. discriminate.
      * rewrite lookup_alter_ne in Hk' by done.
        assert (_sync_tasks st !! v = Some t') as Hv
          by (apply Hok; by exists k').
        apply lookup_delete_Some. split; [|done]. intros <-. congruence.
  - rewrite delete_id by done. apply Hok.
Qed.

Lemma cancel_sync_unregistered u st : _sync_tasks (cancel_sync u st).2 !! u = None.
Proof.
  destruct (cancel_sync_registry u st) as [-> _]. apply lookup_delete_eq.
Qed.

(** What [schedule_sync] does to the registry and the tasks. *)
Lemma schedule_sync_registry u tokens interval st :
  let st1 := (cancel_sync u st).2 in
  let t := fresh_task (tasks st1) in
  (schedule_sync u tokens interval st).1 = true
  /\ _sync_tasks (schedule_sync u tokens interval st).2
     = <[u := t]> (_sync_tasks st1)
  /\ exists k,
       tasks (schedule_sync u tokens interval st).2 = <[t := k]> (tasks st1)
       /\ task_user k = u /\ task_tokens k = tokens /\ task_cancelled k = false
       /\ (DEFAULT_SYNC_INTERVAL <= task_interval k)%Z.
Proof.
  cbv zeta. unfold schedule_sync.
  cbn [fst snd _sync_tasks tasks set_cache set_tasks].
  split; [reflexivity|]. split; [reflexivity|].
  eexists. split; [reflexivity|]. cbn [task_user task_tokens task_cancelled
                                       task_interval].
  repeat split. unfold DEFAULT_SYNC_INTERVAL.
  destruct (interval <? 60)%Z eqn:H; [lia|]. apply Z.ltb_ge in H. lia.
Qed.

Lemma schedule_sync_ok u tokens interval st :
  registry_ok st -> registry_ok (schedule_sync u tokens interval st).2.
Proof.
  intros Hok.
  pose proof (cancel_sync_ok u st Hok) as Hok1.
  pose proof (cancel_sync_unregistered u st) as Hnone.
  destruct (schedule_sync_registry u tokens interval st)
    as (_ & Hreg & k & Hts & Hu & _ & Hlive & _).
  cbv zeta in *. set (st1 := (cancel_sync u st).2) in *.
  pose proof (fresh_task_unused (tasks st1)) as Hfresh.
  set (t := fresh_task (tasks st1)) in *.
  intros v t'. unfold live_for. rewrite Hreg, Hts. split.
  - intros Hv. apply lookup_insert_Some in Hv as [[<- <-]|[Hne Hv]].
    + exists k. by rewrite lookup_insert_eq.
    + apply Hok1 in Hv as (k' & Hk' & ? & ?).
      exists k'. rewrite lookup_insert_ne; [done|]. intros <-. congruence.
  - intros (k' & Hk' & Hlive' & Huser').
    apply lookup_insert_Some in Hk' as [[<- <-]|[Hne Hk']].
    + rewrite Hu in Huser'. subst v. apply lookup_insert_eq.
    + assert (_sync_tasks st1 !! v = Some t') as Hv
        by (apply Hok1; by exists k').
      rewrite lookup_insert_ne; [done|]. intros <-. congruence.
Qed.

Lemma extends_registry_ok st st' : extends st st' -> registry_ok st -> registry_ok st'.
Proof.
  intros (H1 & H2 & _) Hok u t. unfold live_for. rewrite H1, H2. apply Hok.
Qed.

Lemma run_registry_ok calls st : registry_ok st -> registry_ok (run_registry calls st).
Proof.
  revert st. induction calls as [|o rest IH]; intros st Hok; simpl; [done|].
  apply IH. destruct o; cbn [run_registry_op].
  - by apply schedule_sync_ok.
  - by apply cancel_sync_ok.
  - eapply extends_registry_ok; [apply sync_tokens_extends | done].
Qed.

Lemma registry_ok_unique st u t1 t2 :
  registry_ok st -> live_for st u t1 -> live_for st u t2 -> t1 = t2.
Proof.
  intros Hok H1 H2. apply Hok in H1, H2. congruence.
Qed.

(** The task registry.  In every state reached from the start by any calls
    of schedule_sync and cancel_sync and any syncing: a user has at most one
    live task, the one in the registry.  A schedule_sync for a user returns
    True and registers a task that did not exist before, live, with the
    tokens it was given; the task the user had, if any, is cancelled. *)
Theorem one_live_task_per_user (calls : list registry_op) (st : state) :
  st = run_registry calls init ->
  (forall user_id t1 t2,
     live_for st user_id t1 -> live_for st user_id t2 -> t1 = t2)
  /\ (forall user_id t, _sync_tasks st !! user_id = Some t <-> live_for st user_id t)
  /\ (forall user_id access_tokens interval_minutes,
        let r := schedule_sync user_id access_tokens interval_minutes st in
        r.1 = true
        /\ exists t k,
             _sync_tasks r.2 !! user_id = Some t
             /\ tasks st !! t = None
             /\ tasks r.2 !! t = Some k
             /\ task_user k = user_id /\ task_tokens k = access_tokens
             /\ task_cancelled k = false
             /\ (forall t0, _sync_tasks st !! user_id = Some t0 -> ~ live r.2 t0)).
Proof.
  intros ->. pose proof (run_registry_ok calls init init_registry_ok) as Hok.
  set (st := run_registry calls init) in *.
  split; [intros u t1 t2; by apply registry_ok_unique|]. split; [exact Hok|].
  intros u tokens interval r.
  pose proof (schedule_sync_ok u tokens interval st Hok) as Hok'.
  destruct (schedule_sync_registry u tokens interval st)
    as (Hret & Hreg & k & Hts & Hu & Htok & Hlive & _).
  cbv zeta in *. fold r in Hret, Hreg, Hts, Hok'.
  pose proof (fresh_task_unused (tasks (cancel_sync u st).2)) as Hfresh.
  set (t := fresh_task (tasks (cancel_sync u st).2)) in *.
  split; [exact Hret|]. exists t, k.
  split; [rewrite Hreg; apply lookup_insert_eq|].
  assert (tasks st !! t = None) as Hnew.
  { destruct (cancel_sync_registry u st) as [_ Hc]. rewrite Hc in Hfresh.
    destruct (_sync_tasks st !! u) as [t0|]; [|done].
    destruct (tasks st !! t) eqn:E; [|done].
    destruct (decide (t0 = t)) as [->|Hne].
    - rewrite lookup_alter_eq, E in Hfresh. discriminate.
    - rewrite lookup_alter_ne in Hfresh by done. congruence. }
  split; [exact Hnew|]. split; [rewrite Hts; apply lookup_insert_eq|].
  do 3 (split; [done|]).
  intros t0 Ht0 (k0 & Hk0 & Hlive0).
  assert (t0 <> t) as Hne.
  { intros ->. apply Hok in Ht0 as (k1 & Hk1 & _). congruence. }
  assert (live_for r.2 u t0) as Hl.
  { exists k0. split; [done|]. split; [done|].
    rewrite Hts, lookup_insert_ne in Hk0 by done.
    destruct (cancel_sync_registry u st) as [_ Hc]. rewrite Hc, Ht0 in Hk0.
    rewrite lookup_alter_eq in Hk0.
    destruct (tasks st !! t0) as [k1|]; [|discriminate].
    simpl in Hk0. injection Hk0 as <-. discriminate. }
  apply Hok' in Hl. rewrite Hreg, lookup_insert_eq in Hl. congruence.
Qed.

Lemma one_live_task_per_user_witness :
  let st := run_registry [ScheduleSync "u1" ["token_1"] 120;
                          ScheduleSync "u2" ["token_2"] 30;
                          CancelSync "u2"] init in
  _sync_tasks st !! "u1" = Some 0
  /\ forall t, live_for st "u1" t -> t = 0.
Proof.
  cbv zeta.
  destruct (one_live_task_per_user
              [ScheduleSync "u1" ["token_1"] 120; ScheduleSync "u2" ["token_2"] 30;
               CancelSync "u2"] _ eq_refl) as (Huniq & Hreg & _).
  assert (_sync_tasks
            (run_registry [ScheduleSync "u1" ["token_1"] 120;
                           ScheduleSync "u2" ["token_2"] 30; CancelSync "u2"] init)
            !! "u1" = Some 0) as H0 by (vm_compute; reflexivity).
  split; [exact H0|]. intros t Ht. apply (Huniq "u1"); [exact Ht|].
  apply Hreg. exact H0.
Defined.

(** A sync is scheduled for a user whose task is live: the new task takes
    the place of the old one, which is cancelled. *)
Lemma second_schedule_is_not_skipped :
  let st1 := (schedule_sync "u1" ["token_1"] 60 init).2 in
  let r := schedule_sync "u1" ["token_1"] 60 st1 in
  _sync_tasks st1 !! "u1" = Some 0
  /\ live st1 0
  /\ r.1 = true
  /\ _sync_tasks r.2 !! "u1" = Some 1
  /\ live r.2 1
  /\ ~ live r.2 0
  /\ r.2 <> st1.
Proof.
  cbv zeta.
  assert (tasks (schedule_sync "u1" ["token_1"] 60
                   (schedule_sync "u1" ["token_1"] 60 init).2).2 !! 0
          = Some {| task_user := "u1"; task_tokens := ["token_1"];
                    task_interval := 60; task_cancelled := true |}) as H0
    by (vm_compute; reflexivity).
  split; [vm_compute; reflexivity|]. split.
  { eexists. split; [vm_compute; reflexivity | reflexivity]. }
  split; [reflexivity|]. split; [vm_compute; reflexivity|]. split.
  { eexists. split; [vm_compute; reflexivity | reflexivity]. }
  split.
  - intros (k & Hk & Hlive). rewrite H0 in Hk. injection Hk as <-. discriminate.
  - intros Heq. rewrite Heq in H0.
    assert (tasks (schedule_sync "u1" ["token_1"] 60 init).2 !! 0
            = Some {| task_user := "u1"; task_tokens := ["token_1"];
                      task_interval := 60; task_cancelled := false |}) as H1
      by (vm_compute; reflexivity).
    rewrite H1 in H0. discriminate.
Qed.

End SyncFacts.

(** * Further properties *)

(** ** The connection registry, continued *)

Module RegistryFacts.
Import WebSocketManager WebSocketSteps.

(** *** Subscribing *)

Lemma subscribe_subscriptions e w u types st :
  _subscriptions (subscribe e w u types st).2
  = if forallb (fun ev => bool_decide (ev ∈ valid_events)) types
    then <[u := default ∅ (_subscriptions st !! u) ∪ list_to_set types]>
           (_subscriptions st)
    else _subscriptions st.
Proof.
  unfold subscribe. destruct (forallb _ types); cbn [negb]; [|reflexivity].
  destruct (io_cache e _); reflexivity.
Qed.

Lemma subscribe_result e w u types st :
  (subscribe e w u types st).1
  = forallb (fun ev => bool_decide (ev ∈ valid_events)) types
    && match io_cache e (CONNECTION_PREFIX +:+ ":"
                         +:+ create_connection_id (io_now e) u) with
       | CacheDone => true
       | _ => false
       end.
Proof.
  unfold subscribe. destruct (forallb _ types); cbn [negb andb]; [|reflexivity].
  destruct (io_cache e _); reflexivity.
Qed.

(** X1. [subscribe] takes the request whole or not at all: one event type
    outside [valid_events] and nothing is subscribed, not even the valid
    ones.  Otherwise the user's set grows by the requested types, whatever
    the cache answers; other users and the connection registry are left
    alone; and asking again for the same types changes no subscription. *)
Theorem subscribe_all_or_nothing e e' websocket websocket' user_id event_types st :
  (forallb (fun ev => bool_decide (ev ∈ valid_events)) event_types = false ->
   subscribe e websocket user_id event_types st = (false, st))
  /\ (forallb (fun ev => bool_decide (ev ∈ valid_events)) event_types = true ->
      _subscriptions (subscribe e websocket user_id event_types st).2 !! user_id
      = Some (default ∅ (_subscriptions st !! user_id) ∪ list_to_set event_types)
      /\ (forall v, v <> user_id ->
           _subscriptions (subscribe e websocket user_id event_types st).2 !! v
           = _subscriptions st !! v)
      /\ _connections (subscribe e websocket user_id event_types st).2
         = _connections st
      /\ _subscriptions
           (subscribe e' websocket' user_id event_types
              (subscribe e websocket user_id event_types st).2).2
         = _subscriptions (subscribe e websocket user_id event_types st).2).
Proof.
  split.
  - intros H. unfold subscribe. by rewrite H.
  - intros H. rewrite !subscribe_subscriptions, H.
    split; [apply lookup_insert_eq|]. split.
    { intros v Hv. by apply lookup_insert_ne. }
    split; [apply WebSocketFacts.subscribe_connections|].
    rewrite lookup_insert_eq. cbn [default]. rewrite insert_insert_eq.
    unfold id. f_equal. rewrite <- (assoc_L (∪)). f_equal. apply (idemp_L (∪)).
Qed.

Lemma subscribe_all_or_nothing_witness :
  subscribe Scenario.calm 1 "alice" ["goal"; "goal.update"] Scenario.two_tabs
  = (false, Scenario.two_tabs)
  /\ _subscriptions
       (subscribe Scenario.calm 1 "alice" ["budget"] Scenario.two_tabs).2 !! "alice"
     = Some ({["goal"]} ∪ list_to_set ["budget"]).
Proof.
  destruct (subscribe_all_or_nothing Scenario.calm Scenario.calm 1 1 "alice"
              ["goal"; "goal.update"] Scenario.two_tabs) as [Hbad _].
  destruct (subscribe_all_or_nothing Scenario.calm Scenario.calm 1 1 "alice"
              ["budget"] Scenario.two_tabs) as [_ Hgood].
  split; [apply Hbad; vm_compute; reflexivity|].
  destruct (Hgood eq_refl) as [H _].
  assert (_subscriptions Scenario.two_tabs !! "alice" = Some ({["goal"]} : gset string))
    as Hs by (vm_compute; reflexivity).
  rewrite Hs in H. exact H.
Defined.

(** *** The two vocabularies of event types *)

Lemma connect_subscriptions e w tok st :
  _subscriptions (connect e w tok st).2 = _subscriptions st.
Proof.
  rewrite WebSocketFacts.connect_unfold.
  destruct (io_verify e tok) as [[u|]|]; try reflexivity.
  destruct (truthy_str u); cbn [negb]; [|reflexivity].
  destruct (match _connections st !! u with Some _ => _ | None => _ end);
    [reflexivity|].
  destruct (io_accept e w); cbn [negb]; [|reflexivity].
  destruct (io_cache e _); reflexivity.
Qed.

Lemma broadcast_subscriptions e t m targets st :
  _subscriptions (broadcast e t m targets st).2 = _subscriptions st.
Proof.
  unfold broadcast. destruct (io_dumps e m); cbn [negb]; [|reflexivity].
  destruct (io_cache e _); reflexivity.
Qed.

Lemma disconnect_subscriptions_subset e w u st v types :
  _subscriptions (disconnect e w u st).2 !! v = Some types ->
  _subscriptions st !! v = Some types.
Proof.
  rewrite WebSocketFacts.disconnect_subscriptions.
  destruct (_connections st !! u) as [conns|].
  - case_bool_decide; [|done].
    intros Hv. by apply lookup_delete_Some in Hv as [_ Hv].
  - intros Hv. by apply lookup_delete_Some in Hv as [_ Hv].
Qed.

Lemma run_subscriptions_valid calls st :
  (forall u types t, _subscriptions st !! u = Some types -> t ∈ types ->
     t ∈ valid_events) ->
  forall u types t,
    _subscriptions (run calls st) !! u = Some types -> t ∈ types -> t ∈ valid_events.
Proof.
  revert st. induction calls as [|[e o] rest IH]; intros st Hst; [exact Hst|].
  cbn [run]. apply IH. clear IH rest. intros u types t.
  destruct o; cbn [run_op].
  - rewrite connect_subscriptions. apply Hst.
  - intros H. apply disconnect_subscriptions_subset in H. by apply (Hst u).
  - rewrite broadcast_subscriptions. apply Hst.
  - rewrite subscribe_subscriptions.
    destruct (forallb _ event_types) eqn:Hv; [|apply Hst].
    destruct (decide (user_id = u)) as [->|Hne].
    + rewrite lookup_insert_eq. intros [= <-] Ht.
      apply elem_of_union in Ht as [Ht|Ht].
      * destruct (_subscriptions st !! u) as [old|] eqn:Hold; cbn [default] in Ht;
          [by apply (Hst u old) | by apply not_elem_of_empty in Ht].
      * apply elem_of_list_to_set in Ht.
        rewrite forallb_forall in Hv. apply list_elem_of_In in Ht.
        apply Hv in Ht. by apply bool_decide_eq_true in Ht.
    + rewrite lookup_insert_ne by done. apply Hst.
  - destruct (WebSocketFacts.distribute_state e p st) as [->|[w [v ->]]];
      [apply Hst|].
    intros H. apply disconnect_subscriptions_subset in H. by apply (Hst u).
  - destruct (WebSocketFacts.heartbeat_state e websocket user_id w st) as [->| ->];
      [apply Hst|].
    intros H. apply disconnect_subscriptions_subset in H. by apply (Hst u).
Qed.

Lemma vocabularies_disjoint t :
  t ∈ EventManager.event_type_values -> t ∉ valid_events.
Proof.
  intros H Hv. apply list_elem_of_In in H, Hv.
  cbv in H, Hv.
  repeat (destruct H as [<-|H]; [repeat (destruct Hv as [Hv|Hv]; try discriminate)|]);
    done.
Qed.

(** X2. The types [subscribe] accepts (transaction, budget, goal,
    notification) and the types [publish_event] accepts (the values of
    EVENT_TYPES) have nothing in common.  So in every state reached from the
    empty manager by any calls, no user is subscribed to a type that can be
    published, and a message carrying such a type is sent to nobody. *)
Theorem published_types_reach_nobody (calls : list (io * op)) (st : state) t :
  st = run calls init ->
  t ∈ EventManager.event_type_values ->
  (forall u, subscribed st t u = false)
  /\ (forall e p, event p = Some t -> (_distribute_message e p st).2 = []).
Proof.
  intros -> Ht.
  assert (forall u, subscribed (run calls init) t u = false) as Hnone.
  { intros u. unfold subscribed.
    destruct (_subscriptions (run calls init) !! u) as [types|] eqn:Hu; [|done].
    apply bool_decide_eq_false. intros Hin.
    apply (vocabularies_disjoint t Ht).
    apply (run_subscriptions_valid calls init) with (u := u) (types := types);
      [|done|done].
    intros v ? ? H. unfold init in H; cbn in H. by rewrite lookup_empty in H. }
  split; [exact Hnone|]. intros e p Hev.
  destruct ((_distribute_message e p (run calls init)).2) as [|[u w] l] eqn:Hsent;
    [done|].
  assert ((u, w) ∈ (_distribute_message e p (run calls init)).2) as Hin
    by (rewrite Hsent; apply list_elem_of_here).
  apply WebSocketFacts.distribute_sound in Hin as (t' & Hev' & _ & _ & Hs & _).
  rewrite Hev in Hev'. injection Hev' as <-. by rewrite Hnone in Hs.
Qed.

Lemma published_types_reach_nobody_witness :
  subscribed Scenario.three_users "goal.update" "A" = false
  /\ (_distribute_message Scenario.calm
        {| event := Some "goal.update"; data := PData "progress";
           timestamp := io_now Scenario.calm; user_ids := None |}
        Scenario.three_users).2 = [].
Proof.
  assert ("goal.update" ∈ EventManager.event_type_values) as Ht
    by (apply (bool_decide_unpack _); vm_compute; exact I).
  destruct (published_types_reach_nobody
              [(Scenario.calm, Connect 1 "A"); (Scenario.calm, Connect 2 "B");
               (Scenario.calm, Connect 3 "C");
               (Scenario.calm, Subscribe 1 "A" ["goal"]);
               (Scenario.calm, Subscribe 2 "B" ["goal"]);
               (Scenario.calm, Subscribe 3 "C" ["goal"])]
              Scenario.three_users "goal.update" eq_refl Ht) as [Hsub Hsent].
  split; [apply Hsub | by apply Hsent].
Defined.

(** *** Shape of the registry *)

Lemma connect_connections e w tok st :
  _connections (connect e w tok st).2 = _connections st
  \/ exists u, _connections (connect e w tok st).2
               = <[u := default ∅ (_connections st !! u) ∪ {[w]}]> (_connections st).
Proof.
  rewrite WebSocketFacts.connect_unfold.
  destruct (io_verify e tok) as [[u|]|]; try (by left).
  destruct (truthy_str u); cbn [negb]; [|by left].
  destruct (match _connections st !! u with Some _ => _ | None => _ end);
    [by left|].
  destruct (io_accept e w); cbn [negb]; [|by left].
  right. exists u. destruct (io_cache e _); reflexivity.
Qed.

Lemma disconnect_no_empty e w u st :
  (forall v conns, _connections st !! v = Some conns -> conns <> ∅) ->
  forall v conns, _connections (disconnect e w u st).2 !! v = Some conns -> conns <> ∅.
Proof.
  intros Hst v conns. rewrite WebSocketFacts.disconnect_connections.
  destruct (_connections st !! u) as [old|] eqn:Hu; [|apply Hst].
  case_bool_decide; [|apply Hst]. case_bool_decide as Hempty.
  - intros Hv. apply lookup_delete_Some in Hv as [_ Hv]. by apply (Hst v).
  - destruct (decide (u = v)) as [->|Hne].
    + rewrite lookup_insert_eq. by intros [= <-].
    + rewrite lookup_insert_ne by done. apply Hst.
Qed.

Lemma run_no_empty calls st :
  (forall v conns, _connections st !! v = Some conns -> conns <> ∅) ->
  forall v conns, _connections (run calls st) !! v = Some conns -> conns <> ∅.
Proof.
  revert st. induction calls as [|[e o] rest IH]; intros st Hst; [exact Hst|].
  cbn [run]. apply IH. clear IH rest. destruct o; cbn [run_op].
  - destruct (connect_connections e websocket token st) as [->|[u ->]];
      [exact Hst|].
    intros v conns. destruct (decide (u = v)) as [->|Hne].
    + rewrite lookup_insert_eq. intros [= <-] Hempty.
      assert (websocket ∈ (∅ : gset ws)) as Hin
        by (rewrite <- Hempty; apply elem_of_union; right; by apply elem_of_singleton).
      by apply not_elem_of_empty in Hin.
    + rewrite lookup_insert_ne by done. apply Hst.
  - by apply disconnect_no_empty.
  - rewrite WebSocketFacts.broadcast_connections. exact Hst.
  - rewrite WebSocketFacts.subscribe_connections. exact Hst.
  - destruct (WebSocketFacts.distribute_state e p st) as [->|[w [v ->]]];
      [exact Hst | by apply disconnect_no_empty].
  - destruct (WebSocketFacts.heartbeat_state e websocket user_id w st) as [->| ->];
      [exact Hst | by apply disconnect_no_empty].
Qed.

(** *** Calls of connect that overlap *)

Lemma connect_check_Some e w tok st p :
  connect_check e w tok st = Some p ->
  (connection_count st (pc_user_id p) < MAX_CONNECTIONS_PER_USER)%nat
  /\ pc_websocket p = w.
Proof.
  unfold connect_check, connection_count.
  destruct (io_verify e tok) as [[u|]|]; try done.
  destruct (truthy_str u); cbn [negb]; [|done].
  destruct (_connections st !! u) as [conns|] eqn:Hu.
  - case_bool_decide as Hfull; [done|]. intros [= <-]. cbn [pc_user_id pc_websocket].
    rewrite Hu. split; [lia | done].
  - intros [= <-]. cbn [pc_user_id pc_websocket]. rewrite Hu.
    unfold MAX_CONNECTIONS_PER_USER. split; [lia | done].
Qed.

Lemma connect_register_connections e p st :
  _connections (connect_register e p st).2 = _connections st
  \/ _connections (connect_register e p st).2
     = <[pc_user_id p := default ∅ (_connections st !! pc_user_id p)
                         ∪ {[pc_websocket p]}]> (_connections st).
Proof.
  unfold connect_register. destruct (io_accept e _); cbn [negb]; [|by left].
  right. by destruct (io_cache e _).
Qed.

Lemma connect_register_count e p st u :
  (connection_count (connect_register e p st).2 u
   <= connection_count st u + (if decide (pc_user_id p = u) then 1 else 0))%nat.
Proof.
  unfold connection_count.
  destruct (connect_register_connections e p st) as [-> | ->]; [lia|].
  destruct (decide (pc_user_id p = u)) as [<-|Hne].
  - rewrite lookup_insert_eq.
    pose proof (WebSocketFacts.size_add
                  (default ∅ (_connections st !! pc_user_id p)) (pc_websocket p)) as H.
    destruct (_connections st !! pc_user_id p); cbn [default] in *; unfold id in *;
      [lia | rewrite size_empty in H; lia].
  - rewrite lookup_insert_ne by done. lia.
Qed.

Lemma run_op_count e o st u :
  (forall w tok, o <> Connect w tok) ->
  (connection_count (run_op e o st) u <= connection_count st u)%nat.
Proof.
  intros Ho.
  assert (forall st', _connections st' = _connections st ->
            (connection_count st' u <= connection_count st u)%nat) as Hsame
    by (intros st' H; unfold connection_count; by rewrite H).
  destruct o; cbn [run_op].
  - by destruct (Ho websocket token).
  - apply WebSocketFacts.disconnect_count.
  - apply Hsame, WebSocketFacts.broadcast_connections.
  - apply Hsame, WebSocketFacts.subscribe_connections.
  - destruct (WebSocketFacts.distribute_state e p st) as [->|(w & v & ->)];
      [done | apply WebSocketFacts.disconnect_count].
  - destruct (WebSocketFacts.heartbeat_state e websocket user_id w st) as [->| ->];
      [done | apply WebSocketFacts.disconnect_count].
Qed.

Lemma in_flight_app st l p u :
  in_flight {| ws_state := st; ws_accepting := l ++ [p] |} u
  = (in_flight {| ws_state := st; ws_accepting := l |} u
     + (if decide (pc_user_id p = u) then 1 else 0))%nat.
Proof.
  unfold in_flight. cbn [ws_accepting]. rewrite filter_app, length_app.
  f_equal. rewrite filter_cons, filter_nil. by destruct (decide (pc_user_id p = u)).
Qed.

Lemma in_flight_delete st st' l i p u :
  l !! i = Some p ->
  in_flight {| ws_state := st; ws_accepting := l |} u
  = (in_flight {| ws_state := st'; ws_accepting := delete i l |} u
     + (if decide (pc_user_id p = u) then 1 else 0))%nat.
Proof.
  unfold in_flight. cbn [ws_accepting]. revert i.
  induction l as [|q l IH]; intros i Hi; [done|].
  destruct i as [|i]; cbn in Hi.
  - injection Hi as ->. cbn [delete list_delete]. rewrite filter_cons.
    destruct (decide (pc_user_id p = u)); cbn [length];
      [by rewrite Nat.add_1_r | by rewrite Nat.add_0_r].
  - cbn [delete list_delete]. rewrite !filter_cons.
    destruct (decide (pc_user_id q = u)); cbn [length]; by rewrite (IH i Hi).
Qed.

(** One step keeps the sum of a user's connections and that user's calls
    in flight within [4 + n], when the call that passes its test, if any, is
    one of at most [n] in flight. *)
Lemma run_step_bound n s sys :
  match passing s sys with
  | Some p => (in_flight sys (pc_user_id p) < n)%nat
  | None => True
  end ->
  (forall u, connection_count (ws_state sys) u + in_flight sys u <= 4 + n)%nat ->
  forall u, (connection_count (ws_state (run_step s sys)) u
             + in_flight (run_step s sys) u <= 4 + n)%nat.
Proof.
  intros Hpass Hsys u. destruct sys as [st l]. destruct s as [e w tok|e i|e o];
    cbn [run_step passing ws_state ws_accepting] in *.
  - destruct (connect_check e w tok st) as [p|] eqn:Hc; [|apply Hsys].
    destruct (connect_check_Some e w tok st p Hc) as [Hroom _].
    cbn [ws_state]. rewrite in_flight_app. specialize (Hsys u).
    cbn [ws_state] in Hsys. unfold MAX_CONNECTIONS_PER_USER in Hroom.
    destruct (decide (pc_user_id p = u)) as [<-|]; lia.
  - destruct (l !! i) as [p|] eqn:Hi; [|apply Hsys].
    cbn [ws_state]. pose proof (connect_register_count e p st u) as Hcount.
    specialize (Hsys u). cbn [ws_state] in Hsys.
    rewrite (in_flight_delete st (connect_register e p st).2 l i p u Hi) in Hsys.
    destruct (decide (pc_user_id p = u)); lia.
  - specialize (Hsys u). cbn [ws_state] in Hsys.
    assert (forall st', in_flight {| ws_state := st'; ws_accepting := l |} u
                        = in_flight {| ws_state := st; ws_accepting := l |} u)
      as Hfl by reflexivity.
    rewrite Hfl.
    destruct o as [w tok| | | | |];
      [|match goal with
        | |- context [run_op e ?o st] =>
          pose proof (run_op_count e o st u ltac:(intros ? ?; discriminate)); lia
        end..].
    cbn [run_op]. unfold connect.
    destruct (connect_check e w tok st) as [p|] eqn:Hc; [|cbn [snd]; lia].
    destruct (connect_check_Some e w tok st p Hc) as [Hroom _].
    pose proof (connect_register_count e p st u) as Hcount.
    unfold MAX_CONNECTIONS_PER_USER in Hroom.
    destruct (decide (pc_user_id p = u)) as [<-|]; lia.
Qed.

Lemma run_steps_bound n steps sys :
  overlap_within n steps sys = true ->
  (forall u, connection_count (ws_state sys) u + in_flight sys u <= 4 + n)%nat ->
  forall u, (connection_count (ws_state (run_steps steps sys)) u
             + in_flight (run_steps steps sys) u <= 4 + n)%nat.
Proof.
  revert sys. induction steps as [|s steps IH]; intros sys Hover Hsys; [exact Hsys|].
  cbn [overlap_within] in Hover. apply andb_true_iff in Hover as [Hs Hrest].
  cbn [run_steps]. apply IH; [exact Hrest|]. apply run_step_bound; [|exact Hsys].
  destruct (passing s sys); [by apply bool_decide_eq_true in Hs | done].
Qed.

Lemma run_op_no_empty e o st :
  (forall v conns, _connections st !! v = Some conns -> conns <> ∅) ->
  forall v conns, _connections (run_op e o st) !! v = Some conns -> conns <> ∅.
Proof. intros Hst. exact (run_no_empty [(e, o)] st Hst). Qed.

Lemma run_steps_no_empty steps sys :
  (forall v conns, _connections (ws_state sys) !! v = Some conns -> conns <> ∅) ->
  forall v conns,
    _connections (ws_state (run_steps steps sys)) !! v = Some conns -> conns <> ∅.
Proof.
  revert sys. induction steps as [|s steps IH]; intros sys Hsys; [exact Hsys|].
  cbn [run_steps]. apply IH. clear IH steps.
  destruct sys as [st l]. destruct s as [e w tok|e i|e o];
    cbn [run_step ws_state ws_accepting] in *.
  - by destruct (connect_check e w tok st).
  - destruct (l !! i) as [p|]; [|exact Hsys]. cbn [ws_state].
    destruct (connect_register_connections e p st) as [-> | ->]; [exact Hsys|].
    intros v conns. destruct (decide (pc_user_id p = v)) as [<-|Hne].
    + rewrite lookup_insert_eq. intros [= <-] Hempty.
      assert (pc_websocket p ∈ (∅ : gset ws)) as Hin
        by (rewrite <- Hempty; apply elem_of_union; right; by apply elem_of_singleton).
      by apply not_elem_of_empty in Hin.
    + rewrite lookup_insert_ne by done. apply Hsys.
  - by apply run_op_no_empty.
Qed.

(** X3. The registry when calls of [connect] overlap.  [connect] tests the
    cap, awaits the handshake and then adds the connection without a second
    test.  In every state reached from the empty manager by steps of calls,
    no entry of the registry is empty: the entry of a user whose last
    connection goes is deleted.  And when no more than [n] calls of [connect]
    of one user are ever between their test and their registration, a user's
    connections and calls in flight together are at most [4 + n]: five when
    the calls of [connect] of a user never overlap. *)
Theorem registry_under_overlap (n : nat) (steps : list step) :
  (forall u conns,
     _connections (ws_state (run_steps steps start)) !! u = Some conns ->
     conns <> ∅ /\ 1 <= size conns)
  /\ (overlap_within n steps start = true ->
      forall u,
        connection_count (ws_state (run_steps steps start)) u
        + in_flight (run_steps steps start) u <= 4 + n).
Proof.
  split.
  - intros u conns Hu.
    assert (conns <> ∅) as Hne.
    { apply (run_steps_no_empty steps start) with (v := u); [|done].
      intros v ? H. cbn [start ws_state init _connections] in H.
      by rewrite lookup_empty in H. }
    split; [exact Hne|].
    destruct (size conns) eqn:Hsz; [|lia].
    by apply size_empty_inv, leibniz_equiv in Hsz.
  - intros Hover. apply run_steps_bound; [exact Hover|].
    intros u.
    assert (connection_count (ws_state start) u = 0) as ->
      by (unfold connection_count; cbn [start ws_state init _connections];
          by rewrite lookup_empty).
    assert (in_flight start u = 0) as -> by reflexivity.
    lia.
Qed.

Lemma registry_under_overlap_witness :
  connection_count
    (ws_state (run_steps (Samples.four_connected ++ Samples.two_in_turn) start))
    "alice"
  + in_flight (run_steps (Samples.four_connected ++ Samples.two_in_turn) start)
      "alice" <= 4 + 1
  /\ connection_count
       (ws_state (run_steps (Samples.four_connected ++ Samples.two_overlapping) start))
       "alice"
     + in_flight (run_steps (Samples.four_connected ++ Samples.two_overlapping) start)
         "alice" <= 4 + 2.
Proof.
  split.
  - apply (registry_under_overlap 1 (Samples.four_connected ++ Samples.two_in_turn)).
    vm_compute. reflexivity.
  - apply (registry_under_overlap 2
             (Samples.four_connected ++ Samples.two_overlapping)).
    vm_compute. reflexivity.
Defined.

(** X4. What [disconnect] does in each case.  A connection that is not in
    the user's set: the call gives False and changes nothing, the
    subscriptions stay.  A user who is not in the registry: the user's
    subscriptions are deleted all the same.  A registered connection: it
    leaves the user's set, the entry going with the last connection; the
    user's subscriptions are deleted; no other user is touched.  True is
    returned only when the cache call and the close both completed, but the
    clean-up of the registries is done before either. *)
Theorem disconnect_outcomes e websocket user_id st :
  (forall conns, _connections st !! user_id = Some conns -> websocket ∉ conns ->
     disconnect e websocket user_id st = (false, st))
  /\ (_connections st !! user_id = None ->
      _connections (disconnect e websocket user_id st).2 = _connections st
      /\ _subscriptions (disconnect e websocket user_id st).2
         = delete user_id (_subscriptions st))
  /\ (forall conns, _connections st !! user_id = Some conns -> websocket ∈ conns ->
      _connections (disconnect e websocket user_id st).2 !! user_id
      = (if bool_decide (conns ∖ {[websocket]} = ∅) then None
         else Some (conns ∖ {[websocket]}))
      /\ _subscriptions (disconnect e websocket user_id st).2 !! user_id = None
      /\ (forall v, v <> user_id ->
           _connections (disconnect e websocket user_id st).2 !! v
           = _connections st !! v
           /\ _subscriptions (disconnect e websocket user_id st).2 !! v
              = _subscriptions st !! v))
  /\ ((disconnect e websocket user_id st).1 = true ->
      io_cache e (CONNECTION_PREFIX +:+ ":"
                  +:+ create_connection_id (io_now e) user_id) = CacheDone
      /\ io_close e websocket = true).
Proof.
  split; [|split; [|split]].
  - intros conns Hu Hw. unfold disconnect. rewrite Hu.
    by rewrite bool_decide_eq_false_2.
  - intros Hu.
    rewrite WebSocketFacts.disconnect_connections,
      WebSocketFacts.disconnect_subscriptions, Hu. done.
  - intros conns Hu Hw.
    rewrite WebSocketFacts.disconnect_connections,
      WebSocketFacts.disconnect_subscriptions, Hu.
    rewrite !bool_decide_eq_true_2 by done. split.
    { case_bool_decide; [apply lookup_delete_eq | apply lookup_insert_eq]. }
    split; [apply lookup_delete_eq|].
    intros v Hv. split; [|by apply lookup_delete_ne].
    case_bool_decide; [by apply lookup_delete_ne | by apply lookup_insert_ne].
  - unfold disconnect.
    destruct (match _connections st !! user_id with Some _ => _ | None => _ end);
      [|discriminate].
    destruct (io_cache e _); try discriminate.
    destruct (io_close e websocket); [done | discriminate].
Qed.

Lemma disconnect_outcomes_witness :
  disconnect Scenario.calm 7 "alice" Scenario.two_tabs = (false, Scenario.two_tabs)
  /\ _connections (disconnect Scenario.plain_cache 2 "alice" Scenario.two_tabs).2
       !! "alice" = Some {[1]}
  /\ _subscriptions (disconnect Scenario.calm 9 "bob" Scenario.two_tabs).2
     = delete "bob" (_subscriptions Scenario.two_tabs).
Proof.
  destruct (disconnect_outcomes Scenario.calm 7 "alice" Scenario.two_tabs)
    as (Habsent & _).
  destruct (disconnect_outcomes Scenario.plain_cache 2 "alice" Scenario.two_tabs)
    as (_ & _ & Hreg & _).
  destruct (disconnect_outcomes Scenario.calm 9 "bob" Scenario.two_tabs)
    as (_ & Hunknown & _).
  assert (_connections Scenario.two_tabs !! "alice" = Some ({[1; 2]} : gset ws)) as Hc
    by (vm_compute; reflexivity).
  split; [|split].
  - apply (Habsent _ Hc). apply (bool_decide_unpack _). vm_compute. exact I.
  - destruct (Hreg _ Hc) as [H _].
    { apply (bool_decide_unpack _). vm_compute. exact I. }
    rewrite H. vm_compute. reflexivity.
  - apply Hunknown. vm_compute. reflexivity.
Defined.

(** X5. What [connect] does in each case.  A token that does not verify to
    a user id, a user at the cap or a handshake that fails: False, and the
    state is as before.  Otherwise the connection is registered under the
    user, whatever the cache then answers, and True is returned exactly when
    the cache call completed: a False can leave a registered connection
    behind.  Subscriptions and other users are not touched. *)
Theorem connect_outcomes e websocket token st user_id :
  io_verify e token = Return (Some user_id) ->
  truthy_str user_id = true ->
  (MAX_CONNECTIONS_PER_USER <= connection_count st user_id \/ io_accept e websocket = false ->
   connect e websocket token st = (false, st))
  /\ (connection_count st user_id < MAX_CONNECTIONS_PER_USER ->
      io_accept e websocket = true ->
      registered (connect e websocket token st).2 user_id websocket
      /\ ((connect e websocket token st).1 = true <->
          io_cache e (CONNECTION_PREFIX +:+ ":"
                      +:+ create_connection_id (io_now e) user_id) = CacheDone)
      /\ _subscriptions (connect e websocket token st).2 = _subscriptions st
      /\ (forall v, v <> user_id ->
           _connections (connect e websocket token st).2 !! v
           = _connections st !! v)).
Proof.
  intros Hv Htr. rewrite !WebSocketFacts.connect_unfold. unfold connection_count.
  rewrite Hv, Htr. cbn [negb].
  split.
  - intros [Hfull|Hacc].
    + destruct (_connections st !! user_id) as [conns|].
      * by rewrite bool_decide_eq_true_2.
      * unfold MAX_CONNECTIONS_PER_USER in Hfull. lia.
    + rewrite Hacc. cbn [negb].
      by destruct (match _connections st !! user_id with Some _ => _ | None => _ end).
  - intros Hroom Hacc. rewrite Hacc. cbn [negb].
    assert ((match _connections st !! user_id with
             | Some conns => bool_decide (MAX_CONNECTIONS_PER_USER ≤ size conns)%nat
             | None => false
             end) = false) as ->.
    { destruct (_connections st !! user_id); [|done].
      apply bool_decide_eq_false. lia. }
    assert (websocket ∈ default ∅ (_connections st !! user_id) ∪ {[websocket]}) as Hin
      by (apply elem_of_union; right; by apply elem_of_singleton).
    destruct (io_cache e _) eqn:Hc; cbn [fst snd _connections _subscriptions
                                         set_cache set_connections];
      (split; [eexists; split; [apply lookup_insert_eq | exact Hin]|]);
      (split; [split; [done | try discriminate; done]|]);
      (split; [reflexivity|]); intros v Hne; by apply lookup_insert_ne.
Qed.

Lemma connect_outcomes_witness :
  registered (connect Scenario.plain_cache 3 "alice" Scenario.two_tabs).2 "alice" 3
  /\ (connect Scenario.plain_cache 3 "alice" Scenario.two_tabs).1 = false.
Proof.
  destruct (connect_outcomes Scenario.plain_cache 3 "alice" Scenario.two_tabs "alice"
              eq_refl eq_refl) as [_ H].
  destruct H as (Hreg & _); [vm_compute; lia | reflexivity |].
  split; [exact Hreg | reflexivity].
Defined.

(** *** Delivery and failure *)





(** *** The heartbeat loop *)

(** X7. The heartbeat loop over any number of rounds.  It is still running
    after them exactly when there was no round, or every ping was sent and
    every round brought some message in time; the state is then untouched.
    Otherwise it has stopped at the first round that did not, with the state
    of one [disconnect] of the connection: the connection is out of the
    registry, and what later rounds would have brought changes nothing. *)
Theorem heartbeat_loop e websocket user_id rounds st :
  ((_monitor_heartbeat e websocket user_id rounds st).1 = true <->
     rounds = []
     \/ (io_send e websocket = Sent /\ Forall (fun r => exists m, r = Received m) rounds))
  /\ ((_monitor_heartbeat e websocket user_id rounds st).1 = true ->
      (_monitor_heartbeat e websocket user_id rounds st).2 = st)
  /\ ((_monitor_heartbeat e websocket user_id rounds st).1 = false ->
      (_monitor_heartbeat e websocket user_id rounds st).2
      = (disconnect e websocket user_id st).2
      /\ ~ registered (_monitor_heartbeat e websocket user_id rounds st).2
            user_id websocket).
Proof.
  induction rounds as [|r rest IH]; cbn [_monitor_heartbeat].
  - cbn [fst snd]. repeat split; try done. by left.
  - unfold heartbeat_round. destruct (io_send e websocket) eqn:Hs.
    + destruct r; cbn [fst snd].
      * destruct IH as (IH1 & IH2 & IH3). split; [|split; [exact IH2 | exact IH3]].
        rewrite IH1. split.
        -- intros [->|[_ H]]; right; (split; [reflexivity|]).
           ++ apply Forall_cons. split; [eauto | apply Forall_nil_2].
           ++ apply Forall_cons. split; [eauto | exact H].
        -- intros [?|[_ H]]; [discriminate|]. apply Forall_cons in H as [_ H].
           right. by split.
      * split; [|split]; [|discriminate|].
        -- split; [discriminate|]. intros [?|[_ H]]; [discriminate|].
           apply Forall_cons in H as [[m ?] _]. discriminate.
        -- intros _. split; [reflexivity | apply WebSocketFacts.disconnect_unregisters].
      * split; [|split]; [|discriminate|].
        -- split; [discriminate|]. intros [?|[_ H]]; [discriminate|].
           apply Forall_cons in H as [[m ?] _]. discriminate.
        -- intros _. split; [reflexivity | apply WebSocketFacts.disconnect_unregisters].
      * split; [|split]; [|discriminate|].
        -- split; [discriminate|]. intros [?|[_ H]]; [discriminate|].
           apply Forall_cons in H as [[m ?] _]. discriminate.
        -- intros _. split; [reflexivity | apply WebSocketFacts.disconnect_unregisters].
    + cbn [fst snd]. split; [|split]; [|discriminate|].
      * split; [discriminate|]. intros [?|[? _]]; discriminate.
      * intros _. split; [reflexivity | apply WebSocketFacts.disconnect_unregisters].
    + cbn [fst snd]. split; [|split]; [|discriminate|].
      * split; [discriminate|]. intros [?|[? _]]; discriminate.
      * intros _. split; [reflexivity | apply WebSocketFacts.disconnect_unregisters].
Qed.

Lemma heartbeat_loop_witness :
  _monitor_heartbeat Scenario.calm 1 "alice"
    [Received {| msg_type := "pong" |}; TimedOut; Received {| msg_type := "pong" |}]
    Scenario.two_tabs
  = (false, (disconnect Scenario.calm 1 "alice" Scenario.two_tabs).2).
Proof.
  destruct (heartbeat_loop Scenario.calm 1 "alice"
              [Received {| msg_type := "pong" |}; TimedOut;
               Received {| msg_type := "pong" |}] Scenario.two_tabs)
    as (_ & _ & Hstop).
  destruct (_monitor_heartbeat Scenario.calm 1 "alice"
              [Received {| msg_type := "pong" |}; TimedOut;
               Received {| msg_type := "pong" |}] Scenario.two_tabs) as [b st'] eqn:E.
  assert (b = false) as -> by (change b with (b, st').1; rewrite <- E; reflexivity).
  destruct (Hstop eq_refl) as [Hst _]. cbn [snd] in Hst. by rewrite Hst.
Defined.

(** *** Broadcasting *)

(** X8. [broadcast] returns True exactly when the payload serialises and the
    cache write completes.  Then the cache holds, under [ws_events:<type>], a
    message with that type and payload whose target list is the one given,
    or none when that was empty; the registries are untouched; and whoever
    that stored message is then sent to is a registered connection of a
    subscriber of the type who is in the target list, when one was given. *)
Theorem broadcast_then_distribute e e' t m targets st :
  ((broadcast e t m targets st).1 = true <->
     io_dumps e m = true /\ io_cache e (EVENT_CHANNEL_PREFIX +:+ ":" +:+ t) = CacheDone)
  /\ _connections (broadcast e t m targets st).2 = _connections st
  /\ _subscriptions (broadcast e t m targets st).2 = _subscriptions st
  /\ ((broadcast e t m targets st).1 = true ->
      let p := {| event := Some t; data := m; timestamp := io_now e;
                  user_ids := if truthy_opt_list targets then targets else None |} in
      _cache (broadcast e t m targets st).2 !! (EVENT_CHANNEL_PREFIX +:+ ":" +:+ t)
      = Some (SPayload p)
      /\ forall u w,
           (u, w) ∈ (_distribute_message e' p (broadcast e t m targets st).2).2 ->
           registered st u w /\ subscribed st t u = true
           /\ (forall l, targets = Some l -> l <> [] -> u ∈ l)).
Proof.
  split; [|split; [apply WebSocketFacts.broadcast_connections|
                   split; [apply broadcast_subscriptions|]]].
  - unfold broadcast. destruct (io_dumps e m); cbn [negb fst].
    + destruct (io_cache e _); cbn [fst]; split; try done;
        intros [_ ?]; discriminate.
    + split; [done | intros [? _]; discriminate].
  - intros Hok. cbv zeta.
    assert (io_dumps e m = true
            /\ io_cache e (EVENT_CHANNEL_PREFIX +:+ ":" +:+ t) = CacheDone)
      as [Hd Hc].
    { revert Hok. unfold broadcast. destruct (io_dumps e m); cbn [negb fst];
        [|discriminate]. destruct (io_cache e _); cbn [fst]; try discriminate.
      done. }
    pose proof (WebSocketFacts.broadcast_connections e t m targets st) as Hconn.
    pose proof (broadcast_subscriptions e t m targets st) as Hsub.
    split.
    + unfold broadcast. rewrite Hd. cbn [negb]. rewrite Hc. cbn [snd _cache set_cache].
      apply lookup_insert_eq.
    + intros u w Hin.
      apply WebSocketFacts.distribute_sound in Hin
        as (t' & Hev & _ & Htg & Hs & (conns & Hr & Hw)).
      cbn [event] in Hev. injection Hev as <-.
      split; [exists conns; by rewrite <- Hconn|]. split.
      { revert Hs. unfold subscribed. by rewrite Hsub. }
      intros l -> Hl.
      apply (WebSocketFacts.targeted_nonempty _ l u) in Htg; [done| |done].
      cbn [user_ids truthy_opt_list]. by destruct l.
Qed.

Lemma broadcast_then_distribute_witness :
  registered Scenario.three_users "B" 2
  /\ subscribed Scenario.three_users "goal" "B" = true
  /\ "B" ∈ ["B"].
Proof.
  destruct (broadcast_then_distribute Scenario.calm Scenario.calm "goal"
              (PData "progress") (Some ["B"]) Scenario.three_users)
    as (_ & _ & _ & H).
  destruct (H eq_refl) as [_ Hto].
  destruct (Hto "B" 2) as (Hr & Hs & Hl).
  { apply (bool_decide_unpack _). vm_compute. exact I. }
  split; [exact Hr|]. split; [exact Hs|]. by apply (Hl ["B"]).
Defined.

End RegistryFacts.

(** ** Event channels *)

Module ChannelFacts.
Import EventManager.

Lemma channel_injective t t' : "events:" +:+ t = "events:" +:+ t' -> t = t'.
Proof. simpl. intros H. by injection H. Qed.

Lemma channel_of_known t :
  t ∈ event_type_values -> create_event_channel t = Return ("events:" +:+ t).
Proof.
  intros H. unfold create_event_channel. by rewrite bool_decide_eq_true_2.
Qed.

(** X9. When [publish_event] returns True the cache holds, under
    [events:<type>], the event with the type, payload and target list given,
    in place of whatever event of that type was there; the events of other
    types and the subscriptions are untouched.  The answer says nothing about
    the broadcast: with the event stored and the write to the WebSocket
    channel failing, True is returned all the same. *)
Theorem publish_event_stores e t m targets st :
  ((publish_event e t m targets st).1 = true ->
   _cache (publish_event e t m targets st).2 !! ("events:" +:+ t)
   = Some {| type := Some t; payload_of := m; timestamp := io_now e;
             target_users := targets |}
   /\ (forall t', t' <> t ->
        _cache (publish_event e t m targets st).2 !! ("events:" +:+ t')
        = _cache st !! ("events:" +:+ t'))
   /\ _subscriptions (publish_event e t m targets st).2 = _subscriptions st
   /\ _ws_manager (publish_event e t m targets st).2
      = (WebSocketManager.broadcast e t m targets (_ws_manager st)).2)
  /\ (t ∈ event_type_values -> io_dumps e m = true ->
      io_cache e ("events:" +:+ t) = CacheDone ->
      io_cache e ("ws_events:" +:+ t) <> CacheDone ->
      (publish_event e t m targets st).1 = true
      /\ (WebSocketManager.broadcast e t m targets (_ws_manager st)).1 = false).
Proof.
  split.
  - unfold publish_event.
    destruct (decide (t ∈ event_type_values)) as [Hin|Hout].
    2:{ rewrite bool_decide_eq_false_2 by done. discriminate. }
    rewrite bool_decide_eq_true_2 by done. cbn [negb].
    rewrite (channel_of_known t Hin).
    destruct (io_dumps e m); cbn [negb]; [|discriminate].
    destruct (io_cache e ("events:" +:+ t)); cbn [fst snd]; try discriminate.
    intros _. cbn [_cache _subscriptions _ws_manager].
    split; [apply lookup_insert_eq|]. split; [|done].
    intros t' Hne. apply lookup_insert_ne. intros H.
    apply channel_injective in H. congruence.
  - intros Hin Hd Hc Hws. split.
    + unfold publish_event. rewrite bool_decide_eq_true_2 by done. cbn [negb].
      rewrite (channel_of_known t Hin), Hd. cbn [negb]. by rewrite Hc.
    + unfold WebSocketManager.broadcast. rewrite Hd. cbn [negb].
      change (WebSocketManager.EVENT_CHANNEL_PREFIX +:+ ":" +:+ t)
        with ("ws_events:" +:+ t).
      by destruct (io_cache e ("ws_events:" +:+ t)).
Qed.

Lemma publish_event_stores_witness :
  (publish_event Samples.ws_channels_down "goal.update" (PData "progress")
     (Some ["A"]) init).1 = true
  /\ (WebSocketManager.broadcast Samples.ws_channels_down "goal.update"
        (PData "progress") (Some ["A"]) (_ws_manager init)).1 = false
  /\ _cache (publish_event Samples.ws_channels_down "goal.update" (PData "progress")
               (Some ["A"]) init).2 !! "events:goal.update"
     = Some {| type := Some "goal.update"; payload_of := PData "progress";
               timestamp := io_now Samples.ws_channels_down;
               target_users := Some ["A"] |}.
Proof.
  destruct (publish_event_stores Samples.ws_channels_down "goal.update"
              (PData "progress") (Some ["A"]) init) as [Hstore Hans].
  destruct Hans as [Ht Hb];
    [apply (bool_decide_unpack _); vm_compute; exact I
    | reflexivity | reflexivity | vm_compute; discriminate |].
  split; [exact Ht|]. split; [exact Hb|].
  destruct (Hstore Ht) as [H _]. exact H.
Defined.

(** *** The polling loop *)

Lemma handle_event_fields e m st :
  _subscriptions (handle_event e m st) = _subscriptions st
  /\ _cache (handle_event e m st) = _cache st
  /\ WebSocketManager._connections (_ws_manager (handle_event e m st))
     = WebSocketManager._connections (_ws_manager st)
  /\ WebSocketManager._subscriptions (_ws_manager (handle_event e m st))
     = WebSocketManager._subscriptions (_ws_manager st).
Proof.
  unfold handle_event. destruct (type m) as [t|]; [|done].
  destruct (truthy_str t); cbn [negb]; [|done].
  case_bool_decide; [done|]. cbn [_subscriptions _cache _ws_manager].
  split; [done|]. split; [done|].
  split; [apply WebSocketFacts.broadcast_connections
         | apply RegistryFacts.broadcast_subscriptions].
Qed.

Lemma poll_channels_fields e l m :
  _subscriptions (EventSubscriptions.poll_channels e l m).2 = _subscriptions m
  /\ _cache (EventSubscriptions.poll_channels e l m).2 = _cache m
  /\ WebSocketManager._connections
       (_ws_manager (EventSubscriptions.poll_channels e l m).2)
     = WebSocketManager._connections (_ws_manager m)
  /\ WebSocketManager._subscriptions
       (_ws_manager (EventSubscriptions.poll_channels e l m).2)
     = WebSocketManager._subscriptions (_ws_manager m).
Proof.
  revert m. induction l as [|t rest IH]; intros m;
    cbn [EventSubscriptions.poll_channels]; [done|].
  destruct (create_event_channel t) as [channel|x]; [|done].
  destruct (io_cache e channel); try done.
  destruct (_cache m !! channel) as [message|]; [|apply IH].
  destruct (IH (handle_event e message m)) as (H1 & H2 & H3 & H4).
  destruct (handle_event_fields e message m) as (G1 & G2 & G3 & G4).
  rewrite H1, H2, H3, H4. done.
Qed.

Lemma poll_channels_returns e l m :
  Forall (fun t => t ∈ event_type_values) l ->
  (EventSubscriptions.poll_channels e l m).1 = Return () <->
  Forall (fun t => io_cache e ("events:" +:+ t) = CacheDone) l.
Proof.
  intros Hl. revert m. induction Hl as [|t rest Ht Hrest IH]; intros m;
    cbn [EventSubscriptions.poll_channels].
  - split; [intros _; apply Forall_nil_2 | done].
  - rewrite (channel_of_known t Ht). rewrite Forall_cons.
    destruct (io_cache e ("events:" +:+ t)) eqn:Hc.
    + destruct (_cache m !! ("events:" +:+ t)); rewrite IH; tauto.
    + cbn [fst]. split; [discriminate | intros [? _]; discriminate].
    + cbn [fst]. split; [discriminate | intros [? _]; discriminate].
Qed.

(** X10. One turn of the polling loop of the event manager never takes an
    event out of the cache and never changes a subscription or a connection:
    whatever it handled, the next turn finds the same events and handles them
    again.  It completes exactly when the awaited read of each of the five
    channels completes; when the first read raises, nothing at all is
    done. *)
Theorem poll_never_consumes e m :
  _cache (EventSubscriptions._start_redis_subscriber e m).2 = _cache m
  /\ _subscriptions (EventSubscriptions._start_redis_subscriber e m).2
     = _subscriptions m
  /\ WebSocketManager._connections
       (_ws_manager (EventSubscriptions._start_redis_subscriber e m).2)
     = WebSocketManager._connections (_ws_manager m)
  /\ WebSocketManager._subscriptions
       (_ws_manager (EventSubscriptions._start_redis_subscriber e m).2)
     = WebSocketManager._subscriptions (_ws_manager m)
  /\ ((EventSubscriptions._start_redis_subscriber e m).1 = Return () <->
      forall t, t ∈ event_type_values -> io_cache e ("events:" +:+ t) = CacheDone)
  /\ (io_cache e "events:account.update" <> CacheDone ->
      (EventSubscriptions._start_redis_subscriber e m).2 = m).
Proof.
  unfold EventSubscriptions._start_redis_subscriber.
  destruct (poll_channels_fields e event_type_values m) as (H1 & H2 & H3 & H4).
  split; [exact H2|]. split; [exact H1|]. split; [exact H3|]. split; [exact H4|].
  split.
  - rewrite poll_channels_returns by (apply Forall_forall; auto).
    by rewrite Forall_forall.
  - intros Hc. change event_type_values
      with ("account.update" :: ["transaction.create"; "budget.update";
                                 "goal.update"; "investment.update"]).
    cbn [EventSubscriptions.poll_channels].
    rewrite (channel_of_known "account.update")
      by (apply (bool_decide_unpack _); vm_compute; exact I).
    change ("events:" +:+ "account.update") with "events:account.update".
    destruct (io_cache e "events:account.update"); done.
Qed.

Lemma poll_never_consumes_witness :
  (EventSubscriptions._start_redis_subscriber Scenario.plain_cache
     Samples.goal_published).2 = Samples.goal_published.
Proof.
  destruct (poll_never_consumes Scenario.plain_cache Samples.goal_published)
    as (_ & _ & _ & _ & _ & H).
  apply H. vm_compute. discriminate.
Defined.

Lemma known_type_truthy t : t ∈ event_type_values -> truthy_str t = true.
Proof.
  intros H. apply list_elem_of_In in H. cbv in H.
  repeat (destruct H as [<-|H]; [reflexivity|]). done.
Qed.

Lemma ws_channel_injective t t' : "ws_events:" +:+ t = "ws_events:" +:+ t' -> t = t'.
Proof. simpl. intros H. by injection H. Qed.

(** Handling an event of one type leaves the WebSocket channel of another
    type alone. *)
Lemma handle_event_other_channel e msg m t t' :
  type msg = Some t' -> t' <> t ->
  WebSocketManager._cache (_ws_manager (handle_event e msg m)) !! ("ws_events:" +:+ t)
  = WebSocketManager._cache (_ws_manager m) !! ("ws_events:" +:+ t).
Proof.
  intros Hty Hne. unfold handle_event. rewrite Hty.
  destruct (truthy_str t'); cbn [negb]; [|done].
  case_bool_decide; [done|]. cbn [_ws_manager].
  unfold WebSocketManager.broadcast.
  destruct (io_dumps e (payload_of msg)); cbn [negb]; [|done].
  change (WebSocketManager.EVENT_CHANNEL_PREFIX +:+ ":" +:+ t')
    with ("ws_events:" +:+ t').
  assert ("ws_events:" +:+ t' <> "ws_events:" +:+ t) as Hk
    by (intros H'; apply ws_channel_injective in H'; congruence).
  destruct (io_cache e ("ws_events:" +:+ t'));
    cbn [snd WebSocketManager._cache WebSocketManager.set_cache]; try done;
    by apply lookup_insert_ne.
Qed.

Lemma poll_channels_other_channels e l m t :
  t ∉ l ->
  Forall (fun t' => t' ∈ event_type_values) l ->
  (forall t' msg, t' ∈ l -> _cache m !! ("events:" +:+ t') = Some msg ->
     type msg = Some t') ->
  WebSocketManager._cache
    (_ws_manager (EventSubscriptions.poll_channels e l m).2) !! ("ws_events:" +:+ t)
  = WebSocketManager._cache (_ws_manager m) !! ("ws_events:" +:+ t).
Proof.
  intros Ht Hl. revert m. induction Hl as [|t' rest Ht' Hrest IH]; intros m Hwf;
    cbn [EventSubscriptions.poll_channels]; [done|].
  apply not_elem_of_cons in Ht as [Hne Ht].
  rewrite (channel_of_known t' Ht').
  destruct (io_cache e ("events:" +:+ t')); try done.
  destruct (_cache m !! ("events:" +:+ t')) as [msg|] eqn:Hmsg.
  - rewrite IH; [|done|].
    + apply (handle_event_other_channel e msg m t t'); [|congruence].
      apply (Hwf t'); [apply list_elem_of_here | done].
    + intros t'' msg' Hin. destruct (handle_event_fields e msg m) as (_ & -> & _).
      apply Hwf. by apply list_elem_of_further.
  - apply IH; [done|]. intros t'' msg' Hin. apply Hwf. by apply list_elem_of_further.
Qed.

Lemma poll_channels_retargets e l m t msg :
  NoDup l -> t ∈ l ->
  Forall (fun t' => t' ∈ event_type_values) l ->
  Forall (fun t' => io_cache e ("events:" +:+ t') = CacheDone) l ->
  (forall t' msg', t' ∈ l -> _cache m !! ("events:" +:+ t') = Some msg' ->
     type msg' = Some t') ->
  _cache m !! ("events:" +:+ t) = Some msg ->
  subscribers m t (target_users msg) <> ∅ ->
  io_dumps e (payload_of msg) = true ->
  io_cache e ("ws_events:" +:+ t) = CacheDone ->
  WebSocketManager._cache
    (_ws_manager (EventSubscriptions.poll_channels e l m).2) !! ("ws_events:" +:+ t)
  = Some (WebSocketManager.SPayload
            {| WebSocketManager.event := Some t;
               WebSocketManager.data := payload_of msg;
               WebSocketManager.timestamp := io_now e;
               WebSocketManager.user_ids :=
                 Some (elements (subscribers m t (target_users msg))) |}).
Proof.
  intros Hnd Hin Hl Hreads. revert m.
  induction l as [|t' rest IH]; intros m Hwf Hmsg Hsubs Hd Hc;
    [by apply elem_of_nil in Hin|].
  apply NoDup_cons in Hnd as [Hnotin Hnd].
  apply Forall_cons in Hl as [Ht' Hl].
  apply Forall_cons in Hreads as [Hr Hreads].
  cbn [EventSubscriptions.poll_channels].
  rewrite (channel_of_known t' Ht'), Hr.
  apply elem_of_cons in Hin as [->|Hin].
  - (* the channel of [t] is read now; the later ones leave its payload *)
    rewrite Hmsg.
    rewrite poll_channels_other_channels; [|done|done|].
    2:{ intros t'' msg' Hin'. destruct (handle_event_fields e msg m) as (_ & -> & _).
        apply Hwf. by apply list_elem_of_further. }
    assert (type msg = Some t') as Hty
      by (apply (Hwf t'); [apply list_elem_of_here | done]).
    unfold handle_event. rewrite Hty, (known_type_truthy t' Ht'). cbn [negb].
    rewrite bool_decide_eq_false_2 by done. cbn [_ws_manager].
    unfold WebSocketManager.broadcast. rewrite Hd. cbn [negb].
    change (WebSocketManager.EVENT_CHANNEL_PREFIX +:+ ":" +:+ t')
      with ("ws_events:" +:+ t').
    rewrite Hc. cbn [snd WebSocketManager._cache WebSocketManager.set_cache].
    rewrite lookup_insert_eq. do 3 f_equal.
    assert (elements (subscribers m t' (target_users msg)) <> []) as Hne.
    { intros Hnil. apply Hsubs. apply elements_empty_inv in Hnil.
      by apply leibniz_equiv in Hnil. }
    cbn [truthy_opt_list]. by destruct (elements _).
  - assert (t' <> t) as Hne by (intros ->; done).
    assert (forall m', _subscriptions m' = _subscriptions m ->
              subscribers m' t (target_users msg) = subscribers m t (target_users msg))
      as Hsame by (intros m' Hm'; unfold subscribers; by rewrite Hm').
    destruct (_cache m !! ("events:" +:+ t')) as [msg'|] eqn:Hmsg'.
    + destruct (handle_event_fields e msg' m) as (Hs & Hcache & _).
      rewrite <- (Hsame (handle_event e msg' m) Hs).
      apply IH; try done.
      * intros t'' msg'' Hin'. rewrite Hcache. apply Hwf. by apply list_elem_of_further.
      * by rewrite Hcache.
      * by rewrite (Hsame _ Hs).
    + apply IH; try done.
      intros t'' msg'' Hin'. apply Hwf. by apply list_elem_of_further.
Qed.

Lemma event_type_values_nodup : NoDup event_type_values.
Proof. apply (bool_decide_unpack _). vm_compute. exact I. Qed.

(** X11. From publishing to the WebSocket channel.  The cache holds an event
    under the channel of each type as [publish_event] leaves them, the reads
    of the polling loop complete, and the event of one type has a subscriber
    among its targets: after one turn of the loop the WebSocket channel of
    that type holds the event's payload addressed to exactly those
    subscribers, in place of the message the publication itself had
    broadcast. *)
Theorem poll_retargets e m t msg :
  t ∈ event_type_values ->
  (forall t', t' ∈ event_type_values -> io_cache e ("events:" +:+ t') = CacheDone) ->
  (forall t' msg', t' ∈ event_type_values ->
     _cache m !! ("events:" +:+ t') = Some msg' -> type msg' = Some t') ->
  _cache m !! ("events:" +:+ t) = Some msg ->
  subscribers m t (target_users msg) <> ∅ ->
  io_dumps e (payload_of msg) = true ->
  io_cache e ("ws_events:" +:+ t) = CacheDone ->
  WebSocketManager._cache
    (_ws_manager (EventSubscriptions._start_redis_subscriber e m).2)
    !! ("ws_events:" +:+ t)
  = Some (WebSocketManager.SPayload
            {| WebSocketManager.event := Some t;
               WebSocketManager.data := payload_of msg;
               WebSocketManager.timestamp := io_now e;
               WebSocketManager.user_ids :=
                 Some (elements (subscribers m t (target_users msg))) |}).
Proof.
  intros Ht Hreads Hwf Hmsg Hsubs Hd Hc.
  unfold EventSubscriptions._start_redis_subscriber.
  apply poll_channels_retargets; try done.
  - apply event_type_values_nodup.
  - by apply Forall_forall.
  - by apply Forall_forall.
Qed.

Lemma poll_retargets_witness :
  WebSocketManager._cache
    (_ws_manager
       (EventSubscriptions._start_redis_subscriber Scenario.calm
          Samples.goal_published).2) !! "ws_events:goal.update"
  = Some (WebSocketManager.SPayload
            {| WebSocketManager.event := Some "goal.update";
               WebSocketManager.data := PData "progress";
               WebSocketManager.timestamp := "2023-01-01T00:00:00";
               WebSocketManager.user_ids := Some ["A"] |}).
Proof.
  etransitivity.
  - apply (poll_retargets Scenario.calm Samples.goal_published "goal.update"
             {| type := Some "goal.update"; payload_of := PData "progress";
                timestamp := "2023-01-01T00:00:00";
                target_users := Some ["A"; "B"] |}).
    + apply (bool_decide_unpack _). vm_compute. exact I.
    + reflexivity.
    + intros t' msg' Hin. apply list_elem_of_In in Hin. cbv in Hin.
      repeat (destruct Hin as [<-|Hin];
              [vm_compute; intros Heq; by inversion Heq|]).
      done.
    + vm_compute. reflexivity.
    + intros Hempty.
      assert ("A" ∈ subscribers Samples.goal_published "goal.update"
                      (Some ["A"; "B"])) as HA
        by (apply (bool_decide_unpack _); vm_compute; exact I).
      cbn [target_users] in Hempty. rewrite Hempty in HA.
      by apply not_elem_of_empty in HA.
    + reflexivity.
    + reflexivity.
  - vm_compute. reflexivity.
Defined.

End ChannelFacts.

(** ** Subscriptions of the event manager *)

Module SubscriptionFacts.
Import EventManager EventSubscriptions.

Lemma subscription_key_injective u t t' :
  subscription_key u t = subscription_key u t' -> t = t'.
Proof.
  unfold subscription_key. intros H.
  by repeat apply (inj (String.app _)) in H.
Qed.

Lemma known_types_forallb l :
  forallb (fun t => bool_decide (t ∈ event_type_values)) l = true
  <-> Forall (fun t => t ∈ event_type_values) l.
Proof.
  induction l as [|t l IH]; cbn [forallb].
  - split; [constructor | done].
  - rewrite andb_true_iff, Forall_cons, IH.
    by rewrite bool_decide_eq_true.
Qed.

Lemma unknown_type_forallb l t :
  t ∈ l -> t ∉ event_type_values ->
  forallb (fun t => bool_decide (t ∈ event_type_values)) l = false.
Proof.
  intros Hin Hnot. apply not_true_is_false. intros H.
  apply known_types_forallb in H. rewrite Forall_forall in H. by apply Hnot, H.
Qed.

(** The cache loop of [subscribe] completes exactly when each write does. *)
Lemma write_subscriptions_done e u l entries :
  Forall (fun t => t ∈ event_type_values) l ->
  (write_subscriptions e u l entries).1 = Return ()
  <-> Forall (fun t => io_cache e (subscription_key u t) = CacheDone) l.
Proof.
  intros Hl. revert entries. induction Hl as [|t l Ht Hl IH]; intros entries;
    cbn [write_subscriptions].
  - split; [constructor | done].
  - rewrite (ChannelFacts.channel_of_known t Ht), Forall_cons.
    destruct (io_cache e (subscription_key u t)) eqn:Hc; cbn [fst].
    + rewrite IH. split; [by intros ? | by intros [_ ?]].
    + split; [done | by intros [? _]].
    + split; [done | by intros [? _]].
Qed.

Lemma write_subscriptions_other e u l entries k :
  k ∉ subscription_key u <$> l ->
  (write_subscriptions e u l entries).2 !! k = entries !! k.
Proof.
  revert entries. induction l as [|t l IH]; intros entries Hk;
    cbn [write_subscriptions]; [done|].
  rewrite fmap_cons in Hk. apply not_elem_of_cons in Hk as [Hne Hk].
  destruct (create_event_channel t); [|done].
  destruct (io_cache e (subscription_key u t)); cbn [snd]; [|done|].
  - rewrite IH by done. by apply lookup_insert_ne.
  - by apply lookup_insert_ne.
Qed.

Lemma write_subscriptions_written e u l entries t :
  Forall (fun t => t ∈ event_type_values) l ->
  Forall (fun t => io_cache e (subscription_key u t) = CacheDone) l ->
  t ∈ l ->
  (write_subscriptions e u l entries).2 !! subscription_key u t
  = Some {| sub_user_id := u; sub_event_type := t; subscribed_at := io_now e |}.
Proof.
  intros Hl. revert entries. induction Hl as [|t0 l Ht0 Hl IH]; intros entries Hd Hin;
    [by apply elem_of_nil in Hin|].
  apply Forall_cons in Hd as [Hd0 Hd]. cbn [write_subscriptions].
  rewrite (ChannelFacts.channel_of_known t0 Ht0), Hd0.
  destruct (decide (t ∈ l)) as [Hl'|Hl']; [by apply IH|].
  apply elem_of_cons in Hin as [->|Hin]; [|done].
  rewrite write_subscriptions_other.
  - by rewrite lookup_insert_eq.
  - intros Hk. apply list_elem_of_fmap in Hk as (t' & Heq & Hin').
    apply subscription_key_injective in Heq. by subst.
Qed.

Lemma write_subscriptions_records e u l entries :
  (forall k r, entries !! k = Some r ->
     k = subscription_key (sub_user_id r) (sub_event_type r)
     /\ sub_event_type r ∈ event_type_values) ->
  forall k r, (write_subscriptions e u l entries).2 !! k = Some r ->
    k = subscription_key (sub_user_id r) (sub_event_type r)
    /\ sub_event_type r ∈ event_type_values.
Proof.
  revert entries. induction l as [|t l IH]; intros entries Hinv;
    cbn [write_subscriptions]; [done|].
  unfold create_event_channel. case_bool_decide as Ht; [|done].
  assert (forall k r,
    <[subscription_key u t :=
        {| sub_user_id := u; sub_event_type := t; subscribed_at := io_now e |}]>
      entries !! k = Some r ->
    k = subscription_key (sub_user_id r) (sub_event_type r)
    /\ sub_event_type r ∈ event_type_values) as Hw.
  { intros k r. destruct (decide (k = subscription_key u t)) as [->|Hne].
    - rewrite lookup_insert_eq. by intros [= <-].
    - rewrite lookup_insert_ne by done. apply Hinv. }
  destruct (io_cache e (subscription_key u t)); cbn [snd]; [by apply IH|done|done].
Qed.

(** The loop of [unsubscribe] with every delete completing. *)
Lemma remove_subscriptions_done e u l subs entries :
  Forall (fun t => io_cache e (subscription_key u t) = CacheDone) l ->
  exists entries',
    remove_subscriptions e u l subs entries
    = (Return (), subs ∖ list_to_set l, entries')
    /\ forall k, entries' !! k
         = if decide (k ∈ subscription_key u <$> l) then None else entries !! k.
Proof.
  intros Hl. revert subs entries. induction Hl as [|t l Ht Hl IH]; intros subs entries;
    cbn [remove_subscriptions].
  - exists entries. split; [|done]. f_equal. f_equal.
    rewrite list_to_set_nil. by rewrite difference_empty_L.
  - rewrite Ht.
    destruct (IH (subs ∖ {[t]}) (delete (subscription_key u t) entries))
      as (entries' & -> & Hlook).
    exists entries'. split.
    + rewrite list_to_set_cons. by rewrite difference_difference_l_L.
    + intros k. rewrite Hlook, fmap_cons.
      destruct (decide (k = subscription_key u t)) as [->|Hne].
      * rewrite lookup_delete_eq.
        rewrite (decide_True (P := _ ∈ _ :: _)) by apply list_elem_of_here.
        by destruct (decide _).
      * rewrite lookup_delete_ne by done.
        destruct (decide (k ∈ subscription_key u <$> l)) as [Hin|Hin].
        -- rewrite decide_True; [done | by apply list_elem_of_further].
        -- rewrite decide_False; [done|].
           intros Hin'. apply elem_of_cons in Hin' as [?|?]; done.
Qed.

(** Whatever the cache does, the loop of [unsubscribe] only takes types
    out of the user's set and entries out of the cache. *)
Lemma remove_subscriptions_shrinks e u l subs entries :
  (remove_subscriptions e u l subs entries).1.2 ⊆ subs
  /\ forall k r, (remove_subscriptions e u l subs entries).2 !! k = Some r ->
       entries !! k = Some r.
Proof.
  revert subs entries. induction l as [|t l IH]; intros subs entries;
    cbn [remove_subscriptions]; [done|].
  assert (subs ∖ {[t]} ⊆ subs) as Hsub by apply subseteq_difference_l, reflexivity.
  assert (forall k r, delete (subscription_key u t) entries !! k = Some r ->
            entries !! k = Some r) as Hdel
    by (intros k r H; by apply lookup_delete_Some in H as [_ H]).
  destruct (io_cache e (subscription_key u t)); cbn [fst snd]; [|done|done].
  destruct (IH (subs ∖ {[t]}) (delete (subscription_key u t) entries)) as [H1 H2].
  split; [by etransitivity | intros k r H; by apply Hdel, H2].
Qed.

(** What [subscribe] leaves once the request has passed the checks. *)
Lemma subscribe_state a e u types st :
  a u = Return true -> Forall (fun t => t ∈ event_type_values) types ->
  _subscriptions (manager (subscribe a e u types st).2)
  = <[u := default ∅ (_subscriptions (manager st) !! u) ∪ list_to_set types]>
      (_subscriptions (manager st))
  /\ forall k, k ∉ subscription_key u <$> types ->
       sub_entries (subscribe a e u types st).2 !! k = sub_entries st !! k.
Proof.
  intros Ha Hknown. unfold subscribe. rewrite Ha.
  rewrite (proj2 (known_types_forallb types) Hknown).
  cbn [negb fst snd manager sub_entries set_subscriptions _subscriptions].
  split; [done|]. intros k Hk. by apply write_subscriptions_other.
Qed.

Lemma subscribe_in_vocabulary a e u types st :
  in_vocabulary st -> in_vocabulary (subscribe a e u types st).2.
Proof.
  intros [Hs Hc]. unfold subscribe.
  destruct (a u) as [[|]|]; [|done|done].
  destruct (forallb _ types) eqn:Hall; cbn [negb]; [|done].
  apply known_types_forallb in Hall.
  cbn [snd]. split; cbn [manager sub_entries set_subscriptions _subscriptions].
  - intros u' subs t. destruct (decide (u' = u)) as [->|Hne].
    + rewrite lookup_insert_eq. intros [= <-] Hin.
      apply elem_of_union in Hin as [Hin|Hin].
      * destruct (_subscriptions (manager st) !! u) as [old|] eqn:Hold;
          cbn [default] in Hin; [by apply (Hs u old) | by apply not_elem_of_empty in Hin].
      * apply elem_of_list_to_set in Hin. rewrite Forall_forall in Hall. by apply Hall.
    + rewrite lookup_insert_ne by done. apply Hs.
  - by apply write_subscriptions_records.
Qed.

Lemma unsubscribe_in_vocabulary a e u types st :
  in_vocabulary st -> in_vocabulary (unsubscribe a e u types st).2.
Proof.
  intros [Hs Hc]. unfold unsubscribe.
  destruct (a u) as [[|]|]; [|done|done].
  destruct (_subscriptions (manager st) !! u) as [subs|] eqn:Hu; [|done].
  set (l := if truthy_opt_list types then default [] types else elements subs).
  destruct (remove_subscriptions_shrinks e u l subs (sub_entries st)) as [Hsub Hent].
  destruct (remove_subscriptions e u l subs (sub_entries st)) as [[r subs'] entries'].
  cbn [fst snd] in Hsub, Hent.
  assert (forall m, (forall u' s t, m !! u' = Some s -> t ∈ s -> t ∈ event_type_values) ->
     in_vocabulary {| manager := set_subscriptions m (manager st);
                      sub_entries := entries' |}) as Hin.
  { intros m Hm. split; cbn [manager sub_entries set_subscriptions _subscriptions];
      [exact Hm | intros k r' Hk; by apply Hc, Hent]. }
  assert (forall u' s t,
    <[u := subs']> (_subscriptions (manager st)) !! u' = Some s -> t ∈ s ->
    t ∈ event_type_values) as Hins.
  { intros u' s t. destruct (decide (u' = u)) as [->|Hne].
    - rewrite lookup_insert_eq. intros [= <-] Ht. apply (Hs u subs); [done|].
      by apply Hsub.
    - rewrite lookup_insert_ne by done. apply Hs. }
  destruct r as [[]|]; cbn [snd]; apply Hin; [|done].
  case_bool_decide; [|done].
  intros u' s t Hl. apply lookup_delete_Some in Hl as [_ Hl]. by apply (Hs u' s).
Qed.

Lemma run_in_vocabulary calls st :
  in_vocabulary st -> in_vocabulary (run calls st).
Proof.
  revert st. induction calls as [|[[a e] o] calls IH]; intros st Hst; [done|].
  cbn [run]. apply IH. destruct o as [u types|u types]; cbn [run_op].
  - by apply subscribe_in_vocabulary.
  - by apply unsubscribe_in_vocabulary.
Qed.

(** X12. [subscribe] of the event manager.  A user whose token does not
    verify, or a request naming one type outside [EVENT_TYPES], is answered
    False with nothing changed.  Otherwise the user's set becomes the old
    one joined with the requested types whatever the cache does, the other
    users keep theirs, and the answer is True exactly when every cache write
    completes: a False from a failed write leaves the user subscribed. *)
Theorem subscribe_outcomes a e u types st :
  (a u <> Return true -> subscribe a e u types st = (false, st))
  /\ ((exists t, t ∈ types /\ t ∉ event_type_values) ->
      subscribe a e u types st = (false, st))
  /\ (a u = Return true -> Forall (fun t => t ∈ event_type_values) types ->
      _subscriptions (manager (subscribe a e u types st).2) !! u
      = Some (default ∅ (_subscriptions (manager st) !! u) ∪ list_to_set types)
      /\ (forall u', u' <> u ->
           _subscriptions (manager (subscribe a e u types st).2) !! u'
           = _subscriptions (manager st) !! u')
      /\ ((subscribe a e u types st).1 = true
          <-> Forall (fun t => io_cache e (subscription_key u t) = CacheDone) types)
      /\ ((subscribe a e u types st).1 = true ->
          forall t, t ∈ types ->
            sub_entries (subscribe a e u types st).2 !! subscription_key u t
            = Some {| sub_user_id := u; sub_event_type := t;
                      subscribed_at := io_now e |})).
Proof.
  split; [|split].
  - intros Ha. unfold subscribe. by destruct (a u) as [[|]|].
  - intros (t & Hin & Hnot). unfold subscribe.
    rewrite (unknown_type_forallb types t Hin Hnot). cbn [negb].
    by destruct (a u) as [[|]|].
  - intros Ha Hknown. unfold subscribe. rewrite Ha.
    rewrite (proj2 (known_types_forallb types) Hknown). cbn [negb fst snd manager
      sub_entries set_subscriptions _subscriptions].
    assert ((match (write_subscriptions e u types (sub_entries st)).1 with
             | Return _ => true | Raise _ => false end) = true
            <-> Forall (fun t => io_cache e (subscription_key u t) = CacheDone) types)
      as Hdone.
    { rewrite <- (write_subscriptions_done e u types (sub_entries st) Hknown).
      destruct (write_subscriptions e u types (sub_entries st)).1 as [[]|]; by split. }
    split; [by rewrite lookup_insert_eq|].
    split; [by intros u' Hne; rewrite lookup_insert_ne|].
    split; [done|].
    intros Hr t Hin. apply write_subscriptions_written; [done| |done]. by apply Hdone.
Qed.

Lemma subscribe_outcomes_witness :
  (EventSubscriptions.subscribe Samples.everyone Scenario.plain_cache "A"
     ["goal.update"] EventSubscriptions.init).1 = false
  /\ _subscriptions
       (manager (EventSubscriptions.subscribe Samples.everyone Scenario.plain_cache
                   "A" ["goal.update"] EventSubscriptions.init).2) !! "A"
     = Some (∅ ∪ list_to_set ["goal.update"])
  /\ EventSubscriptions.subscribe Samples.nobody Scenario.calm "A" ["goal.update"]
       EventSubscriptions.init = (false, EventSubscriptions.init)
  /\ EventSubscriptions.subscribe Samples.everyone Scenario.calm "A"
       ["goal.update"; "goal"] EventSubscriptions.init
     = (false, EventSubscriptions.init).
Proof.
  destruct (subscribe_outcomes Samples.everyone Scenario.plain_cache "A"
              ["goal.update"] EventSubscriptions.init) as (_ & _ & H3).
  destruct H3 as (Hset & _ & Hiff & _); [reflexivity | | ].
  { apply Forall_cons. split; [|constructor].
    apply (bool_decide_unpack _). vm_compute. exact I. }
  split.
  { apply not_true_is_false. intros Htrue. apply Hiff in Htrue.
    apply Forall_cons in Htrue as [Hc _]. vm_compute in Hc. discriminate. }
  split; [exact Hset|].
  split.
  - apply (proj1 (subscribe_outcomes Samples.nobody Scenario.calm "A"
                    ["goal.update"] EventSubscriptions.init)).
    vm_compute. discriminate.
  - apply (proj1 (proj2 (subscribe_outcomes Samples.everyone Scenario.calm "A"
                           ["goal.update"; "goal"] EventSubscriptions.init))).
    exists "goal". split.
    + apply (bool_decide_unpack _). vm_compute. exact I.
    + apply (bool_decide_unpack _). vm_compute. exact I.
Defined.

(** X13. [unsubscribe] of the event manager.  A user whose token does not
    verify is answered False and a user without subscriptions True, both
    with nothing changed and no cache call.  For a subscribed user whose
    cache deletes complete the answer is True, the types named (all of the
    user's when the list is missing or empty) leave the set, the user's
    entry is removed when the set becomes empty, the other users keep
    theirs, and the cache entries of the removed types are gone. *)
Theorem unsubscribe_outcomes a e u types st :
  (a u <> Return true -> unsubscribe a e u types st = (false, st))
  /\ (a u = Return true -> _subscriptions (manager st) !! u = None ->
      unsubscribe a e u types st = (true, st))
  /\ (forall subs removed,
        a u = Return true -> _subscriptions (manager st) !! u = Some subs ->
        removed = (if truthy_opt_list types then default [] types else elements subs) ->
        Forall (fun t => io_cache e (subscription_key u t) = CacheDone) removed ->
        (unsubscribe a e u types st).1 = true
        /\ _subscriptions (manager (unsubscribe a e u types st).2) !! u
           = (if bool_decide (subs ∖ list_to_set removed = ∅) then None
              else Some (subs ∖ list_to_set removed))
        /\ (truthy_opt_list types = false ->
            _subscriptions (manager (unsubscribe a e u types st).2) !! u = None)
        /\ (forall u', u' <> u ->
             _subscriptions (manager (unsubscribe a e u types st).2) !! u'
             = _subscriptions (manager st) !! u')
        /\ (forall k, sub_entries (unsubscribe a e u types st).2 !! k
             = if decide (k ∈ subscription_key u <$> removed) then None
               else sub_entries st !! k)).
Proof.
  split; [|split].
  - intros Ha. unfold unsubscribe. by destruct (a u) as [[|]|].
  - intros Ha Hu. unfold unsubscribe. by rewrite Ha, Hu.
  - intros subs removed Ha Hu -> Hdone. unfold unsubscribe. rewrite Ha, Hu.
    destruct (remove_subscriptions_done e u _ subs (sub_entries st) Hdone)
      as (entries' & -> & Hlook).
    cbn [fst snd manager sub_entries set_subscriptions _subscriptions].
    split; [done|]. split; [|split; [|split]].
    + case_bool_decide; [apply lookup_delete_eq | apply lookup_insert_eq].
    + intros Hall. rewrite Hall. rewrite list_to_set_elements_L, difference_diag_L.
      rewrite bool_decide_eq_true_2 by done. apply lookup_delete_eq.
    + intros u' Hne.
      case_bool_decide; [by apply lookup_delete_ne | by apply lookup_insert_ne].
    + exact Hlook.
Qed.

Lemma unsubscribe_outcomes_witness :
  (EventSubscriptions.unsubscribe Samples.everyone Scenario.calm "A"
     (Some ["goal.update"]) Samples.two_subscriptions).1 = true
  /\ _subscriptions
       (manager (EventSubscriptions.unsubscribe Samples.everyone Scenario.calm "A"
                   (Some ["goal.update"]) Samples.two_subscriptions).2) !! "A"
     = Some {["budget.update"]}
  /\ sub_entries
       (EventSubscriptions.unsubscribe Samples.everyone Scenario.calm "A"
          (Some ["goal.update"]) Samples.two_subscriptions).2 !! "sub:A:goal.update" = None
  /\ EventSubscriptions.unsubscribe Samples.everyone Scenario.calm "B" None
       Samples.two_subscriptions = (true, Samples.two_subscriptions)
  /\ EventSubscriptions.unsubscribe Samples.nobody Scenario.calm "A" None
       Samples.two_subscriptions = (false, Samples.two_subscriptions).
Proof.
  destruct (unsubscribe_outcomes Samples.everyone Scenario.calm "A"
              (Some ["goal.update"]) Samples.two_subscriptions) as (_ & _ & H3).
  destruct (H3 (∅ ∪ list_to_set ["goal.update"; "budget.update"]) ["goal.update"])
    as (Hr & Hset & _ & _ & Hentries).
  { reflexivity. }
  { vm_compute. reflexivity. }
  { reflexivity. }
  { apply Forall_cons. split; [reflexivity | constructor]. }
  split; [exact Hr|]. split.
  { rewrite Hset. vm_compute. reflexivity. }
  split.
  { rewrite (Hentries "sub:A:goal.update"). vm_compute. reflexivity. }
  split.
  - apply (proj1 (proj2 (unsubscribe_outcomes Samples.everyone Scenario.calm "B"
                           None Samples.two_subscriptions))); vm_compute; reflexivity.
  - apply (proj1 (unsubscribe_outcomes Samples.nobody Scenario.calm "A" None
                    Samples.two_subscriptions)).
    vm_compute. discriminate.
Defined.

(** X14. Subscribing and then unsubscribing from everything.  Whatever the
    cache did during [subscribe], an [unsubscribe] without a type list whose
    deletes complete answers True and leaves the user without an entry, the
    other users as they were before the two calls, no cache entry of the
    user for a type requested, and the cache entries of other keys as they
    were. *)
Theorem subscribe_then_unsubscribe a e1 e2 u types st :
  a u = Return true ->
  Forall (fun t => t ∈ event_type_values) types ->
  (forall t, io_cache e2 (subscription_key u t) = CacheDone) ->
  (unsubscribe a e2 u None (subscribe a e1 u types st).2).1 = true
  /\ _subscriptions
       (manager (unsubscribe a e2 u None (subscribe a e1 u types st).2).2)
     = delete u (_subscriptions (manager st))
  /\ (forall t, t ∈ types ->
        sub_entries (unsubscribe a e2 u None (subscribe a e1 u types st).2).2
          !! subscription_key u t = None)
  /\ (forall k, (forall t, k <> subscription_key u t) ->
        sub_entries (unsubscribe a e2 u None (subscribe a e1 u types st).2).2 !! k
        = sub_entries st !! k).
Proof.
  intros Ha Hknown Hdone. set (st1 := (subscribe a e1 u types st).2).
  destruct (subscribe_state a e1 u types st Ha Hknown) as [Hsubs Hentries].
  fold st1 in Hsubs, Hentries.
  set (subs := default ∅ (_subscriptions (manager st) !! u) ∪ list_to_set types)
    in Hsubs.
  assert (_subscriptions (manager st1) !! u = Some subs) as Hu
    by (rewrite Hsubs; apply lookup_insert_eq).
  unfold unsubscribe. rewrite Ha, Hu. cbn [truthy_opt_list].
  destruct (remove_subscriptions_done e2 u (elements subs) subs (sub_entries st1))
    as (entries' & -> & Hlook); [by apply Forall_forall|].
  cbn [fst snd manager sub_entries set_subscriptions _subscriptions].
  rewrite list_to_set_elements_L, difference_diag_L.
  rewrite bool_decide_eq_true_2 by done.
  split; [done|]. split; [by rewrite Hsubs, delete_insert_eq|]. split.
  - intros t Hin. rewrite Hlook. rewrite decide_True; [done|].
    apply list_elem_of_fmap_2, elem_of_elements, elem_of_union_r.
    by apply elem_of_list_to_set.
  - intros k Hk. rewrite Hlook. rewrite decide_False.
    + apply Hentries. intros Hin. apply list_elem_of_fmap in Hin as (t & -> & _).
      by apply (Hk t).
    + intros Hin. apply list_elem_of_fmap in Hin as (t & -> & _). by apply (Hk t).
Qed.

Lemma subscribe_then_unsubscribe_witness :
  (EventSubscriptions.unsubscribe Samples.everyone Scenario.calm "A" None
     Samples.half_written).1 = true
  /\ _subscriptions
       (manager (EventSubscriptions.unsubscribe Samples.everyone Scenario.calm
                   "A" None Samples.half_written).2)
     = delete "A" (_subscriptions (manager EventSubscriptions.init)).
Proof.
  unfold Samples.half_written.
  destruct (subscribe_then_unsubscribe Samples.everyone Scenario.plain_cache
              Scenario.calm "A" ["goal.update"; "budget.update"]
              EventSubscriptions.init) as (Hr & Hs & _).
  - reflexivity.
  - repeat (apply Forall_cons; split;
            [apply (bool_decide_unpack _); vm_compute; exact I|]).
    constructor.
  - reflexivity.
  - split; [exact Hr | exact Hs].
Defined.

(** X15. Whatever calls of [subscribe] and [unsubscribe] were made on a new
    event manager, by whatever users and with whatever cache behaviour,
    every type a user is subscribed to is a value of [EVENT_TYPES], and every
    subscription record in the cache sits under the key of its own user and
    type and names a value of [EVENT_TYPES]. *)
Theorem subscriptions_stay_in_vocabulary calls :
  (forall u subs t,
     _subscriptions (manager (run calls init)) !! u = Some subs -> t ∈ subs ->
     t ∈ event_type_values)
  /\ (forall k r, sub_entries (run calls init) !! k = Some r ->
        k = subscription_key (sub_user_id r) (sub_event_type r)
        /\ sub_event_type r ∈ event_type_values).
Proof.
  apply run_in_vocabulary. split; [intros u subs t H | intros k r H];
    cbn [init EventManager.init manager sub_entries _subscriptions] in H;
    by rewrite lookup_empty in H.
Qed.

End SubscriptionFacts.

(** ** Cursors across a restart *)

Module StartupFacts.
Import SyncService SyncStartup.

Lemma mirrored_same st st' :
  _sync_cursors st' = _sync_cursors st ->
  cursor_entries (cache st') = cursor_entries (cache st) ->
  mirrored st -> mirrored st'.
Proof. intros H1 H2. unfold mirrored. by rewrite H1, H2. Qed.

Lemma init_mirrored : mirrored init.
Proof.
  exists []. cbn [init cache _sync_cursors empty_cache cursor_entries].
  split; [right; split; [done | apply lookup_empty]|].
  split; [constructor|]. split; [apply not_elem_of_nil|].
  split.
  { intros u. rewrite lookup_empty. split; [by intros ?%elem_of_nil | by intros [? ?]]. }
  split; [intros u c; by rewrite lookup_empty|].
  intros u _ _. apply lookup_empty.
Qed.

(** The cache half of [_save_sync_cursor] when the entry [keys] holds a
    list or is missing and the user is not called [keys]. *)
Lemma save_cursor_entries_list u c m l :
  u <> "keys" ->
  (m !! "keys" = Some (CKeys l) \/ (l = [] /\ m !! "keys" = None)) ->
  save_cursor_entries u c m
  = (Return (),
     if bool_decide (u ∈ l) then <[u := CStr c]> m
     else <["keys" := CKeys (l ++ [u])]> (<[u := CStr c]> m)).
Proof.
  intros Hu Hkeys. unfold save_cursor_entries.
  rewrite (lookup_insert_ne m u "keys") by done.
  destruct Hkeys as [->|[-> ->]]; by case_bool_decide.
Qed.

Lemma save_mirrored u c st :
  u <> "keys" -> truthy_str c = true -> mirrored st ->
  (_save_sync_cursor u c st).1 = Return ()
  /\ mirrored (_save_sync_cursor u c st).2.
Proof.
  intros Hu Hc (l & Hkeys & Hnd & Hnk & Hdom & Hcur & Hnone).
  unfold _save_sync_cursor.
  cbn [fst snd cache set_sync_cursors set_cache set_cursor_entries cursor_entries
       _sync_cursors].
  rewrite (save_cursor_entries_list u c _ l Hu Hkeys). cbn [fst snd].
  split; [done|].
  set (m := cursor_entries (cache st)) in *.
  set (m' := if bool_decide (u ∈ l) then <[u := CStr c]> m
             else <["keys" := CKeys (l ++ [u])]> (<[u := CStr c]> m)).
  set (l' := if bool_decide (u ∈ l) then l else l ++ [u]).
  assert (m' !! "keys" = Some (CKeys l')) as Hk'.
  { unfold m', l'. case_bool_decide as Hin.
    - rewrite lookup_insert_ne by done.
      destruct Hkeys as [?|[-> _]]; [done | by apply elem_of_nil in Hin].
    - apply lookup_insert_eq. }
  assert (forall v, v <> "keys" -> m' !! v = <[u := CStr c]> m !! v) as Hv'.
  { intros v Hv. unfold m'. case_bool_decide; [done|]. by rewrite lookup_insert_ne. }
  assert (forall v, v ∈ l' <-> v = u \/ v ∈ l) as Hl'.
  { intros v. unfold l'. case_bool_decide as Hin.
    - split; [by right | by intros [->|?]].
    - rewrite elem_of_app, list_elem_of_singleton. tauto. }
  exists l'.
  cbn [cache _sync_cursors cursor_entries set_cache set_sync_cursors
       set_cursor_entries]. fold m m'.
  split; [by left|]. split; [|split; [|split; [|split]]].
  - unfold l'. case_bool_decide as Hin; [done|].
    apply NoDup_app. split; [done|]. split; [|apply NoDup_singleton].
    intros x Hx Hx'. apply list_elem_of_singleton in Hx'. by subst.
  - rewrite Hl'. intros [?|?]; [by subst | done].
  - intros v. rewrite Hl'. destruct (decide (v = u)) as [->|Hne].
    + rewrite lookup_insert_eq. split; [by eexists | by left].
    + rewrite lookup_insert_ne by done. rewrite <- Hdom.
      split; [by intros [?|?] | by right].
  - intros v c'. destruct (decide (v = u)) as [->|Hne].
    + rewrite lookup_insert_eq. intros [= <-]. split; [done|].
      rewrite Hv' by done. apply lookup_insert_eq.
    + rewrite lookup_insert_ne by done. intros Hv.
      destruct (Hcur v c' Hv) as [Ht He]. split; [done|].
      assert (v <> "keys") as Hvk.
      { intros ->. apply Hnk, Hdom. by eexists. }
      rewrite Hv' by done. by rewrite lookup_insert_ne.
  - intros v Hvk. destruct (decide (v = u)) as [->|Hne].
    + by rewrite lookup_insert_eq.
    + rewrite lookup_insert_ne by done. intros Hv.
      rewrite Hv' by done. rewrite lookup_insert_ne by done. by apply Hnone.
Qed.

Lemma sync_account_data_mirrored en u tok st :
  mirrored st -> mirrored (sync_account_data en u tok st).2.
Proof.
  intros Hm. unfold sync_account_data.
  destruct (PlaidService.get_balances _ _ _); [|done].
  destruct (_ || _); [|done]. by apply (mirrored_same st).
Qed.

Lemma sync_transactions_mirrored en u tok st :
  u <> "keys" -> mirrored st -> mirrored (sync_transactions en u tok st).2.
Proof.
  intros Hu Hm. unfold sync_transactions.
  destruct (PlaidService.sync_transactions _ _ _) as [[txs nc]|]; [|done].
  assert (forall st1, mirrored st1 ->
            mirrored (if truthy_list txs
                      then publish (world en) "transaction.create"
                             (PTransactions u txs) (Some [u]) st1
                      else st1)) as Hpub.
  { intros st1 H1. destruct (truthy_list txs); [|done]. by apply (mirrored_same st1). }
  destruct (truthy_str nc) eqn:Hnc.
  - destruct (save_mirrored u nc st Hu Hnc Hm) as [Hr Hs].
    destruct (_save_sync_cursor u nc st) as [[[]|x] st1]; cbn [fst snd] in *;
      [by apply Hpub | done].
  - by apply Hpub.
Qed.

Lemma sync_tokens_mirrored en u tokens st :
  u <> "keys" -> mirrored st -> mirrored (sync_tokens en u tokens st).2.
Proof.
  intros Hu. revert st. induction tokens as [|tok tokens IH]; intros st Hm;
    cbn [sync_tokens]; [done|].
  pose proof (sync_account_data_mirrored en u tok st Hm) as H1.
  destruct (sync_account_data en u tok st) as [[r|x] st1]; cbn [snd] in *; [|done].
  pose proof (sync_transactions_mirrored en u tok st1 Hu H1) as H2.
  destruct (sync_transactions en u tok st1) as [[r2|x] st2]; cbn [snd] in *; [|done].
  by apply IH.
Qed.

Lemma cancel_sync_cursors u st :
  _sync_cursors (cancel_sync u st).2 = _sync_cursors st
  /\ cursor_entries (cache (cancel_sync u st).2) = cursor_entries (cache st).
Proof. unfold cancel_sync. by destruct (_sync_tasks st !! u). Qed.

Lemma schedule_sync_cursors u tokens interval st :
  _sync_cursors (schedule_sync u tokens interval st).2 = _sync_cursors st
  /\ cursor_entries (cache (schedule_sync u tokens interval st).2)
     = cursor_entries (cache st).
Proof.
  unfold schedule_sync.
  cbn [snd set_tasks set_cache set_schedule_entries _sync_cursors cache
       cursor_entries].
  apply cancel_sync_cursors.
Qed.

Lemma run_registry_mirrored calls st :
  Forall avoids_keys calls -> mirrored st -> mirrored (run_registry calls st).
Proof.
  intros Hcalls. revert st. induction Hcalls as [|o calls Ho Hcalls IH]; intros st Hm;
    [done|].
  cbn [run_registry]. apply IH.
  destruct o as [u tokens interval|u|en u tok]; cbn [run_registry_op avoids_keys] in *.
  - destruct (schedule_sync_cursors u tokens interval st). by apply (mirrored_same st).
  - destruct (cancel_sync_cursors u st). by apply (mirrored_same st).
  - by apply sync_tokens_mirrored.
Qed.

Lemma strings_of_fmap (l : list string) : strings_of (JString <$> l) = Some l.
Proof. induction l as [|s l IH]; [done|]. cbn [fmap list_fmap strings_of] in *. by rewrite IH. Qed.

Lemma cursor_keys_of_list (l : list string) :
  cursor_keys_of (JArray (JString <$> l)) = Some (Return l).
Proof.
  unfold cursor_keys_of. destruct l as [|s l]; [done|].
  assert (truthy_json (JArray (JString <$> s :: l)) = true) as -> by reflexivity.
  cbn [negb]. by rewrite strings_of_fmap.
Qed.

Lemma load_cursors_mirrored loads entries (cursors : gmap string string) l acc :
  (forall u, u ∈ l ->
     exists c, cursors !! u = Some c /\ entries !! u = Some (CStr c)) ->
  forall u,
    load_cursors loads entries l acc !! u
    = if decide (u ∈ l)
      then from_option Some (acc !! u) (cursors !! u ≫= kept_cursor loads)
      else acc !! u.
Proof.
  revert acc. induction l as [|u0 l IH]; intros acc Hl u; cbn [load_cursors].
  - rewrite decide_False; [done | apply not_elem_of_nil].
  - destruct (Hl u0) as (c & Hc & He); [apply list_elem_of_here|]. rewrite He.
    assert (forall v, v ∈ l ->
              exists c, cursors !! v = Some c /\ entries !! v = Some (CStr c)) as Hl'
      by (intros v Hv; apply Hl; by apply list_elem_of_further).
    assert (cursors !! u0 ≫= kept_cursor loads
            = if truthy_json (read_back loads (CStr c))
              then Some (read_back loads (CStr c)) else None) as Hk
      by (by rewrite Hc).
    destruct (truthy_json (read_back loads (CStr c))); rewrite (IH _ Hl');
      destruct (decide (u ∈ l)) as [Hin|Hout];
      destruct (decide (u = u0)) as [->|Hne];
      rewrite ?Hk, ?lookup_insert_eq, ?(lookup_insert_ne acc u0 u) by done;
      cbn [from_option];
      try (rewrite decide_True by (by apply list_elem_of_further));
      try (rewrite decide_True by apply list_elem_of_here);
      try (rewrite decide_False
             by (intros Hin'; apply elem_of_cons in Hin' as [?|?]; done));
      rewrite ?Hk; done.
Qed.

Lemma mirrored_restart loads st :
  mirrored st ->
  restart loads (cache st)
  = Some (Return (omap (kept_cursor loads) (_sync_cursors st))).
Proof.
  intros (l & Hkeys & Hnd & Hnk & Hdom & Hcur & Hnone).
  unfold restart, _load_sync_states.
  assert (match cursor_entries (cache st) !! "keys" with
          | None => Some (Return [])
          | Some entry => cursor_keys_of (read_back loads entry)
          end = Some (Return l)) as ->.
  { destruct Hkeys as [->|[-> ->]]; [|done]. cbn [read_back].
    apply cursor_keys_of_list. }
  do 2 f_equal. apply map_eq. intros u.
  rewrite (load_cursors_mirrored loads _ (_sync_cursors st)).
  - rewrite lookup_omap, lookup_empty.
    destruct (decide (u ∈ l)) as [Hin|Hout].
    + by destruct (_sync_cursors st !! u ≫= kept_cursor loads).
    + assert (_sync_cursors st !! u = None) as ->
        by (apply eq_None_not_Some; by rewrite <- Hdom).
      done.
  - intros v Hv. apply Hdom in Hv as [c Hc]. exists c.
    by destruct (Hcur v c Hc).
Qed.

(** X16. A service started on the cache that an earlier service left.  For
    any sequence of scheduling, cancelling and syncing calls on a new service
    in which no sync is for a user whose id is the literal [keys],
    [_load_sync_states] run on the resulting cache gives every user with a
    cursor what [cache.get] reads back for that cursor, kept when it tests
    true: the cursor itself when it is not a JSON document, the value it
    parses to otherwise.  When no cursor in memory is a JSON document the
    dictionary rebuilt is exactly the one in memory. *)
Theorem restart_restores_cursors loads calls :
  Forall avoids_keys calls ->
  restart loads (cache (run_registry calls init))
  = Some (Return (omap (kept_cursor loads) (_sync_cursors (run_registry calls init))))
  /\ ((forall u c, _sync_cursors (run_registry calls init) !! u = Some c ->
         loads c = None) ->
      restart loads (cache (run_registry calls init))
      = Some (Return (JString <$> _sync_cursors (run_registry calls init)))).
Proof.
  intros Hcalls.
  assert (mirrored (run_registry calls init)) as Hm
    by (apply run_registry_mirrored; [done | apply init_mirrored]).
  split; [by apply mirrored_restart|].
  intros Hraw. rewrite (mirrored_restart loads _ Hm). do 2 f_equal.
  destruct Hm as (l & _ & _ & _ & _ & Hcur & _).
  apply map_eq. intros u. rewrite lookup_omap, lookup_fmap.
  destruct (_sync_cursors (run_registry calls init) !! u) as [c|] eqn:Hu; [|done].
  cbn [mbind option_bind fmap option_fmap option_map].
  unfold kept_cursor, read_back. rewrite (Hraw u c Hu).
  destruct (Hcur u c Hu) as [Ht _]. cbn [truthy_json]. by rewrite Ht.
Qed.

Lemma restart_restores_cursors_witness :
  restart Samples.loads_sample (cache (run_registry Samples.two_users_synced init))
  = Some (Return (JString <$> _sync_cursors
                                (run_registry Samples.two_users_synced init)))
  /\ _sync_cursors (run_registry Samples.two_users_synced init) !! "u2" = Some "c1".
Proof.
  split.
  - apply (restart_restores_cursors Samples.loads_sample Samples.two_users_synced).
    + unfold Samples.two_users_synced.
      repeat (apply Forall_cons; split; [cbn [avoids_keys]; done|]). constructor.
    + intros u c. destruct (decide (u = "u1")) as [->|H1];
        [vm_compute; by intros [= <-]|].
      destruct (decide (u = "u2")) as [->|H2]; [vm_compute; by intros [= <-]|].
      intros Hu. exfalso. revert Hu.
      assert (_sync_cursors (run_registry Samples.two_users_synced init)
              = {["u1" := "c1"; "u2" := "c1"]}) as -> by (vm_compute; reflexivity).
      rewrite lookup_insert_ne by done. by rewrite lookup_singleton_ne.
  - vm_compute. reflexivity.
Defined.

(** A cursor that is a JSON document does not come back as it was saved:
    the cursor 12345 is restored as a number, the cursor null not at all. *)
Example restart_parses_cursors :
  let st := run_registry
              [SyncToken Samples.odd_cursors_env "u1" "token_1";
               SyncToken Samples.odd_cursors_env "u2" "token_null"] init in
  _sync_cursors st = {["u1" := "12345"; "u2" := "null"]}
  /\ restart Samples.loads_sample (cache st)
     = Some (Return {["u1" := JNumber "12345" false]}).
Proof. cbv zeta. split; vm_compute; reflexivity. Qed.

(** The user whose id is [keys] is the exception: the cursor is held in
    memory, the save raises, and a restart finds no cursor at all. *)
Example restart_forgets_user_named_keys :
  let st := run_registry [SyncToken Scenario.steady_env "keys" "token_1"] init in
  _sync_cursors st !! "keys" = Some "c1"
  /\ restart Samples.loads_sample (cache st) = Some (Return ∅).
Proof. vm_compute. split; reflexivity. Qed.

End StartupFacts.

(** ** Scheduling and the rounds of a task *)

Module RoundFacts.
Import SyncService SyncStartup SyncRounds.

Lemma clamp_is_max (interval : Z) :
  (if (interval <? DEFAULT_SYNC_INTERVAL)%Z then DEFAULT_SYNC_INTERVAL else interval)
  = Z.max interval 60.
Proof. unfold DEFAULT_SYNC_INTERVAL. destruct (Z.ltb_spec interval 60); lia. Qed.

Lemma cancel_sync_cache u st :
  schedule_entries (cache (cancel_sync u st).2) = delete u (schedule_entries (cache st))
  /\ balance_entries (cache (cancel_sync u st).2) = balance_entries (cache st)
  /\ published (cancel_sync u st).2 = published st.
Proof. unfold cancel_sync. by destruct (_sync_tasks st !! u). Qed.

Lemma cancel_sync_again u st :
  cancel_sync u (cancel_sync u st).2 = (true, (cancel_sync u st).2).
Proof.
  unfold cancel_sync at 1. rewrite SyncFacts.cancel_sync_unregistered. f_equal.
  unfold cancel_sync. destruct (_sync_tasks st !! u);
    cbn [snd cache set_cache set_tasks set_schedule_entries schedule_entries
         cursor_entries balance_entries _sync_cursors _sync_tasks tasks
         _event_manager published];
    by rewrite delete_delete_eq.
Qed.

Lemma schedule_sync_other_schedules u tokens interval st v :
  v <> u ->
  schedule_entries (cache (schedule_sync u tokens interval st).2) !! v
  = schedule_entries (cache st) !! v.
Proof.
  intros Hv. destruct (cancel_sync_cache u st) as (Hsch & _).
  unfold schedule_sync.
  cbn [snd cache set_cache set_tasks set_schedule_entries schedule_entries].
  rewrite lookup_insert_ne by done. rewrite Hsch. by apply lookup_delete_ne.
Qed.

(** X17. [schedule_sync] with any interval.  The schedule cached for the
    user holds the tokens given, no last sync, and the interval raised to 60
    minutes when it was less; the task registered for the user carries the
    same tokens and interval; the schedules of the other users, the cursors,
    the cached balances and what was published are untouched.  In the loop
    of that task the sleep after a round that raised is 60 seconds and the
    sleep after a round that completed is that interval in seconds, at least
    3600, whatever interval was asked for. *)
Theorem schedule_sync_effects u tokens interval st :
  schedule_entries (cache (schedule_sync u tokens interval st).2) !! u
  = Some {| sch_user_id := u; sch_access_tokens := tokens;
            sch_interval := Z.max interval 60; sch_last_sync := None |}
  /\ (forall v, v <> u ->
        schedule_entries (cache (schedule_sync u tokens interval st).2) !! v
        = schedule_entries (cache st) !! v)
  /\ (exists t,
        _sync_tasks (schedule_sync u tokens interval st).2 !! u = Some t
        /\ tasks (schedule_sync u tokens interval st).2 !! t
           = Some {| task_user := u; task_tokens := tokens;
                     task_interval := Z.max interval 60; task_cancelled := false |})
  /\ _sync_cursors (schedule_sync u tokens interval st).2 = _sync_cursors st
  /\ cursor_entries (cache (schedule_sync u tokens interval st).2)
     = cursor_entries (cache st)
  /\ balance_entries (cache (schedule_sync u tokens interval st).2)
     = balance_entries (cache st)
  /\ published (schedule_sync u tokens interval st).2 = published st
  /\ (3600 <= Z.max interval 60 * 60)%Z
  /\ (forall ens1 en ens2,
        (sync_task (ens1 ++ en :: ens2)
           {| sch_user_id := u; sch_access_tokens := tokens;
              sch_interval := Z.max interval 60; sch_last_sync := None |}
           (schedule_sync u tokens interval st).2).1.1 !! length ens1
        = Some match (sync_tokens en u tokens
                        (sync_task ens1
                           {| sch_user_id := u; sch_access_tokens := tokens;
                              sch_interval := Z.max interval 60;
                              sch_last_sync := None |}
                           (schedule_sync u tokens interval st).2).2).1 with
               | Raise _ => 60%Z
               | Return _ => (Z.max interval 60 * 60)%Z
               end).
Proof.
  destruct (cancel_sync_cache u st) as (Hsch & Hbal & Hpub).
  destruct (StartupFacts.schedule_sync_cursors u tokens interval st) as [Hcur Hent].
  unfold schedule_sync. rewrite clamp_is_max.
  cbn [snd cache set_cache set_tasks set_schedule_entries schedule_entries
       balance_entries _sync_tasks tasks published].
  split; [apply lookup_insert_eq|]. split.
  { intros v Hv. rewrite lookup_insert_ne by done. rewrite Hsch.
    by apply lookup_delete_ne. }
  split.
  { eexists. split; apply lookup_insert_eq. }
  split; [exact Hcur|]. split; [exact Hent|]. split; [exact Hbal|].
  split; [exact Hpub|]. split; [lia|].
  intros ens1 en ens2.
  match goal with |- (sync_task _ ?sch ?st').1.1 !! _ = _ =>
    exact (SyncFacts.sync_task_sleep_at ens1 en ens2 sch st') end.
Qed.

(** X18. Scheduling a user and cancelling again, on a service whose
    registry and live tasks agree.  The user is out of the registry, has no
    cached schedule and no live task; the registry entry, the cached schedule
    and the live tasks of every other user are what they were before the two
    calls; and a second [cancel_sync] answers True and changes nothing. *)
Theorem schedule_then_cancel u tokens interval st :
  registry_ok st ->
  _sync_tasks (cancel_sync u (schedule_sync u tokens interval st).2).2 !! u = None
  /\ schedule_entries
       (cache (cancel_sync u (schedule_sync u tokens interval st).2).2) !! u = None
  /\ (forall t,
        ~ live_for (cancel_sync u (schedule_sync u tokens interval st).2).2 u t)
  /\ (forall v, v <> u ->
        _sync_tasks (cancel_sync u (schedule_sync u tokens interval st).2).2 !! v
        = _sync_tasks st !! v
        /\ schedule_entries
             (cache (cancel_sync u (schedule_sync u tokens interval st).2).2) !! v
           = schedule_entries (cache st) !! v
        /\ forall t,
             live_for (cancel_sync u (schedule_sync u tokens interval st).2).2 v t
             <-> live_for st v t)
  /\ cancel_sync u (cancel_sync u (schedule_sync u tokens interval st).2).2
     = (true, (cancel_sync u (schedule_sync u tokens interval st).2).2).
Proof.
  intros Hok.
  set (st1 := (schedule_sync u tokens interval st).2).
  assert (registry_ok st1) as Hok1 by by apply SyncFacts.schedule_sync_ok.
  assert (registry_ok (cancel_sync u st1).2) as Hok2 by by apply SyncFacts.cancel_sync_ok.
  pose proof (SyncFacts.cancel_sync_unregistered u st1) as Hnone.
  destruct (cancel_sync_cache u st1) as (Hsch & _ & _).
  assert (forall v, v <> u ->
            _sync_tasks (cancel_sync u st1).2 !! v = _sync_tasks st !! v) as Hreg.
  { intros v Hv.
    destruct (SyncFacts.cancel_sync_registry u st1) as [-> _].
    rewrite lookup_delete_ne by done.
    destruct (SyncFacts.schedule_sync_registry u tokens interval st) as (_ & Hr & _).
    cbv zeta in Hr. fold st1 in Hr. rewrite Hr, lookup_insert_ne by done.
    destruct (SyncFacts.cancel_sync_registry u st) as [-> _].
    by apply lookup_delete_ne. }
  split; [exact Hnone|]. split; [rewrite Hsch; apply lookup_delete_eq|].
  split.
  { intros t Hlive. apply Hok2 in Hlive. congruence. }
  split; [|apply cancel_sync_again].
  intros v Hv. split; [by apply Hreg|]. split.
  - rewrite Hsch, lookup_delete_ne by done.
    by apply schedule_sync_other_schedules.
  - intros t. rewrite <- (Hok2 v t), <- (Hok v t). by rewrite Hreg.
Qed.

Lemma schedule_then_cancel_witness :
  _sync_tasks (cancel_sync "u1" (schedule_sync "u1" ["token_1"] 5 init).2).2 !! "u1"
  = None
  /\ cancel_sync "u1" (cancel_sync "u1" (schedule_sync "u1" ["token_1"] 5 init).2).2
     = (true, (cancel_sync "u1" (schedule_sync "u1" ["token_1"] 5 init).2).2).
Proof.
  destruct (schedule_then_cancel "u1" ["token_1"] 5 init SyncFacts.init_registry_ok)
    as (H1 & _ & _ & _ & H5).
  split; [exact H1 | exact H5].
Defined.

Lemma sync_account_data_cursors en u tok st :
  _sync_cursors (sync_account_data en u tok st).2 = _sync_cursors st
  /\ cursor_entries (cache (sync_account_data en u tok st).2)
     = cursor_entries (cache st)
  /\ _sync_tasks (sync_account_data en u tok st).2 = _sync_tasks st
  /\ tasks (sync_account_data en u tok st).2 = tasks st.
Proof.
  unfold sync_account_data.
  destruct (PlaidService.get_balances _ _ _); [|done]. by destruct (_ || _).
Qed.

(** X19. The edges of [sync_account_data].  An exception of the aggregator
    is raised on with the state as it was.  An empty balance list is always
    reported as a change, cached and published, also when the cached list is
    empty already.  A non-empty list equal to the cached one is reported as
    no change and nothing is written or published.  Whatever happens, the
    cursors and the task registry are not touched. *)
Theorem account_sync_edges en u tok st :
  (forall x,
     PlaidService.get_balances (plaid en) (io_now (world en)) tok = Raise x ->
     sync_account_data en u tok st = (Raise x, st))
  /\ (PlaidService.get_balances (plaid en) (io_now (world en)) tok = Return [] ->
      (sync_account_data en u tok st).1
      = Return {| as_user_id := u; as_balances := []; changes_detected := true;
                  as_sync_time := io_now (world en) |}
      /\ balance_entries (cache (sync_account_data en u tok st).2) !! u = Some []
      /\ exists ok,
           published (sync_account_data en u tok st).2
           = published st ++
               [{| call_type := "account.update"; call_payload := PAccount u [];
                   call_user_ids := Some [u]; call_result := ok |}])
  /\ (forall balances,
        PlaidService.get_balances (plaid en) (io_now (world en)) tok
        = Return balances ->
        balances <> [] -> balance_entries (cache st) !! u = Some balances ->
        sync_account_data en u tok st
        = (Return {| as_user_id := u; as_balances := balances;
                     changes_detected := false;
                     as_sync_time := io_now (world en) |}, st))
  /\ _sync_cursors (sync_account_data en u tok st).2 = _sync_cursors st
  /\ cursor_entries (cache (sync_account_data en u tok st).2)
     = cursor_entries (cache st)
  /\ _sync_tasks (sync_account_data en u tok st).2 = _sync_tasks st
  /\ tasks (sync_account_data en u tok st).2 = tasks st.
Proof.
  split; [|split; [|split; [|apply sync_account_data_cursors]]].
  - intros x Hx. unfold sync_account_data. by rewrite Hx.
  - intros Hb. unfold sync_account_data. rewrite Hb.
    assert (negb (truthy_opt_list (balance_entries (cache st) !! u))
            || negb (bool_decide (Some [] = balance_entries (cache st) !! u)) = true)
      as ->.
    { by destruct (balance_entries (cache st) !! u) as [[|b l]|]. }
    cbn [fst snd]. split; [done|]. split.
    + cbn [publish cache set_cache set_balance_entries balance_entries].
      apply lookup_insert_eq.
    + eexists. reflexivity.
  - intros balances Hb Hne Hc. unfold sync_account_data. rewrite Hb, Hc.
    destruct balances as [|b l]; [done|].
    cbn [truthy_opt_list truthy_list negb orb].
    by rewrite bool_decide_eq_true_2.
Qed.

Lemma account_sync_edges_witness :
  balance_entries (cache Samples.no_accounts_synced) !! "u1" = Some []
  /\ (sync_account_data Samples.no_accounts_env "u1" "token_1"
        Samples.no_accounts_synced).1
     = Return {| as_user_id := "u1"; as_balances := []; changes_detected := true;
                 as_sync_time := "2023-01-01T00:00:00" |}.
Proof.
  split.
  - apply (account_sync_edges Samples.no_accounts_env "u1" "token_1" init).
    reflexivity.
  - apply (account_sync_edges Samples.no_accounts_env "u1" "token_1"
             Samples.no_accounts_synced).
    reflexivity.
Defined.

Lemma sync_account_data_keys en u tok st :
  keys_is_list st -> keys_is_list (sync_account_data en u tok st).2.
Proof.
  unfold keys_is_list. by destruct (sync_account_data_cursors en u tok st) as (_ & -> & _).
Qed.

(** [sync_transactions] when the aggregator answers, for a user not called
    [keys] on a cache whose entry [keys] is not a string. *)
Lemma sync_transactions_returns en u tok st txs nc :
  u <> "keys" -> keys_is_list st ->
  PlaidService.sync_transactions (plaid en) tok (_sync_cursors st !! u)
  = Return (txs, nc) ->
  exists st',
    sync_transactions en u tok st
    = (Return {| ts_user_id := u; new_transactions := length txs; ts_cursor := nc;
                 ts_sync_time := io_now (world en) |}, st')
    /\ keys_is_list st'
    /\ _sync_cursors st' !! u
       = (if truthy_str nc then Some nc else _sync_cursors st !! u)
    /\ exists ok,
         published st'
         = published st ++
             (if truthy_list txs
              then [{| call_type := "transaction.create";
                       call_payload := PTransactions u txs;
                       call_user_ids := Some [u]; call_result := ok |}]
              else []).
Proof.
  intros Hu Hkeys Hagg.
  rewrite (SyncFacts.sync_transactions_unfold en u tok st txs nc Hagg). cbv zeta.
  assert (exists st1,
    (if truthy_str nc then _save_sync_cursor u nc st else (Return (), st))
    = (Return (), st1)
    /\ keys_is_list st1
    /\ _sync_cursors st1 !! u
       = (if truthy_str nc then Some nc else _sync_cursors st !! u)
    /\ published st1 = published st) as (st1 & -> & Hk1 & Hc1 & Hp1).
  { destruct (truthy_str nc); [|by exists st].
    assert (exists l, cursor_entries (cache st) !! "keys" = Some (CKeys l)
                      \/ (l = [] /\ cursor_entries (cache st) !! "keys" = None))
      as [l Hl].
    { destruct (cursor_entries (cache st) !! "keys") as [[s|l]|] eqn:Hk.
      - by destruct (Hkeys s).
      - exists l. by left.
      - exists []. by right. }
    eexists. unfold _save_sync_cursor.
    cbn [fst snd cache set_sync_cursors set_cache set_cursor_entries cursor_entries
         _sync_cursors].
    rewrite (StartupFacts.save_cursor_entries_list u nc _ l Hu Hl). cbn [fst snd].
    split; [reflexivity|].
    split; [|split; [apply lookup_insert_eq | reflexivity]].
    intros s. cbn [cache cursor_entries set_cache set_cursor_entries].
    case_bool_decide.
    - rewrite lookup_insert_ne by done. apply Hkeys.
    - by rewrite lookup_insert_eq. }
  cbn [fst snd]. eexists. split; [reflexivity|].
  destruct (truthy_list txs).
  - split; [exact Hk1|]. split; [exact Hc1|]. eexists.
    cbn [publish published]. by rewrite Hp1.
  - split; [exact Hk1|]. split; [exact Hc1|]. exists true. by rewrite app_nil_r.
Qed.

(** X20. One cursor per user, not per token.  In a round over two tokens
    the aggregator is asked about the second token from the cursor it
    returned for the first: the round completes, what is published last is
    the batch the aggregator gives for the second token at that cursor, and
    the cursor kept is the one returned with that batch (the first token's
    when that one is empty). *)
Theorem tokens_share_one_cursor en u tok1 tok2 st b1 b2 txs1 c1 txs2 c2 :
  u <> "keys" -> keys_is_list st ->
  PlaidService.get_balances (plaid en) (io_now (world en)) tok1 = Return b1 ->
  PlaidService.get_balances (plaid en) (io_now (world en)) tok2 = Return b2 ->
  PlaidService.sync_transactions (plaid en) tok1 (_sync_cursors st !! u)
  = Return (txs1, c1) ->
  truthy_str c1 = true ->
  PlaidService.sync_transactions (plaid en) tok2 (Some c1) = Return (txs2, c2) ->
  (sync_tokens en u [tok1; tok2] st).1 = Return ()
  /\ _sync_cursors (sync_tokens en u [tok1; tok2] st).2 !! u
     = Some (if truthy_str c2 then c2 else c1)
  /\ (txs2 <> [] ->
      exists ok,
        last (published (sync_tokens en u [tok1; tok2] st).2)
        = Some {| call_type := "transaction.create";
                  call_payload := PTransactions u txs2;
                  call_user_ids := Some [u]; call_result := ok |}).
Proof.
  intros Hu Hkeys Hb1 Hb2 Hagg1 Hc1 Hagg2. cbn [sync_tokens].
  (* the first token *)
  pose proof (sync_account_data_keys en u tok1 st Hkeys) as Hk1.
  destruct (sync_account_data_cursors en u tok1 st) as (Hcur1 & _).
  pose proof (SyncFacts.sync_account_data_spec en u tok1 st) as Hspec1.
  rewrite Hb1 in Hspec1. destruct Hspec1 as (r1 & sa1 & Ha1 & _).
  rewrite Ha1 in *. cbn [snd] in Hk1, Hcur1.
  rewrite <- Hcur1 in Hagg1.
  destruct (sync_transactions_returns en u tok1 sa1 txs1 c1 Hu Hk1 Hagg1)
    as (st1 & -> & Hks1 & Hcs1 & _).
  rewrite Hc1 in Hcs1.
  (* the second token *)
  pose proof (sync_account_data_keys en u tok2 st1 Hks1) as Hk2.
  destruct (sync_account_data_cursors en u tok2 st1) as (Hcur2 & _).
  pose proof (SyncFacts.sync_account_data_spec en u tok2 st1) as Hspec2.
  rewrite Hb2 in Hspec2. destruct Hspec2 as (r2 & sa2 & Ha2 & _).
  rewrite Ha2 in *. cbn [snd] in Hk2, Hcur2.
  rewrite <- Hcs1, <- Hcur2 in Hagg2.
  destruct (sync_transactions_returns en u tok2 sa2 txs2 c2 Hu Hk2 Hagg2)
    as (st2 & -> & _ & Hcs2 & ok & Hp2).
  cbn [fst snd]. split; [done|]. split.
  - rewrite Hcs2, Hcur2, Hcs1. by destruct (truthy_str c2).
  - intros Hne. exists ok. rewrite Hp2.
    destruct txs2 as [|t l]; [done|]. cbn [truthy_list]. apply last_snoc.
Qed.

Lemma tokens_share_one_cursor_witness :
  _sync_cursors
    (sync_tokens Samples.paged_env "u1" ["token_1"; "token_2"] init).2 !! "u1"
  = Some "c2"
  /\ exists ok,
       last (published
               (sync_tokens Samples.paged_env "u1" ["token_1"; "token_2"] init).2)
       = Some {| call_type := "transaction.create";
                 call_payload := PTransactions "u1" [Samples.tx_2];
                 call_user_ids := Some ["u1"]; call_result := ok |}.
Proof.
  destruct (tokens_share_one_cursor Samples.paged_env "u1" "token_1" "token_2" init
              (map (PlaidService.balance_of "2023-01-01T00:00:00") [Scenario.acc_1])
              (map (PlaidService.balance_of "2023-01-01T00:00:00") [Scenario.acc_1])
              [Scenario.tx_1] "c1" [Samples.tx_2] "c2")
    as (_ & Hc & Hp); try reflexivity.
  - discriminate.
  - intros s. vm_compute. discriminate.
  - split; [exact Hc | by apply Hp].
Defined.

Lemma without_corrections_sync c tok cursor :
  PlaidService.sync_transactions (without_corrections c) tok cursor
  = PlaidService.sync_transactions c tok cursor.
Proof.
  unfold PlaidService.sync_transactions, without_corrections.
  cbn [PlaidService.decrypt_field PlaidService.transactions_sync].
  destruct (PlaidService.decrypt_field c tok) as [d|]; [|done].
  by destruct (PlaidService.transactions_sync c d cursor).
Qed.

Lemma without_corrections_tokens en u tokens st :
  sync_tokens (without_corrections_env en) u tokens st = sync_tokens en u tokens st.
Proof.
  revert st. induction tokens as [|tok tokens IH]; intros st; cbn [sync_tokens];
    [done|].
  assert (sync_account_data (without_corrections_env en) u tok st
          = sync_account_data en u tok st) as -> by reflexivity.
  destruct (sync_account_data en u tok st) as [[r|x] st1]; [|done].
  assert (sync_transactions (without_corrections_env en) u tok st1
          = sync_transactions en u tok st1) as ->.
  { unfold sync_transactions. cbn [without_corrections_env plaid world].
    by rewrite without_corrections_sync. }
  destruct (sync_transactions en u tok st1) as [[r'|x] st2]; [|done].
  apply IH.
Qed.

(** X21. Corrections never reach the service.  A task run against an
    aggregator whose answers have their modified and removed transactions
    taken out sleeps the same, keeps the same schedule and leaves the same
    state, cursors, cache and published events included, as the task run
    against the aggregator itself: whatever the aggregator reports as
    modified or removed is dropped, while the cursor moves past it. *)
Theorem corrections_never_surface ens sch st :
  sync_task (map without_corrections_env ens) sch st = sync_task ens sch st.
Proof.
  revert sch st. induction ens as [|en ens IH]; intros sch st; [done|].
  cbn [map sync_task].
  assert (sync_task_round (without_corrections_env en) sch st
          = sync_task_round en sch st) as ->.
  { unfold sync_task_round. rewrite without_corrections_tokens.
    by destruct (sync_tokens en _ _ st) as [[[]|x] st1]. }
  destruct (sync_task_round en sch st) as [[slept sch1] st1]. by rewrite IH.
Qed.

Lemma sync_tokens_app en u l1 l2 st :
  sync_tokens en u (l1 ++ l2) st
  = match sync_tokens en u l1 st with
    | (Return _, st1) => sync_tokens en u l2 st1
    | (Raise x, st1) => (Raise x, st1)
    end.
Proof.
  revert st. induction l1 as [|tok l1 IH]; intros st; [done|].
  cbn [app sync_tokens].
  destruct (sync_account_data en u tok st) as [[r|x] st1]; [|done].
  destruct (sync_transactions en u tok st1) as [[r'|x] st2]; [|done].
  apply IH.
Qed.

(** X22. A round ends at the first token that fails.  When the tokens
    before it were synced and the aggregator raises on the balances of one
    token, the round raises the same, the state is what the earlier tokens
    left, none of the later tokens is synced, the schedule keeps its last
    sync time and the task sleeps 60 seconds before it starts over with the
    first token. *)
Theorem round_stops_at_failing_token en sch st l1 tok l2 st1 x :
  sch_access_tokens sch = l1 ++ tok :: l2 ->
  sync_tokens en (sch_user_id sch) l1 st = (Return (), st1) ->
  PlaidService.get_balances (plaid en) (io_now (world en)) tok = Raise x ->
  sync_tokens en (sch_user_id sch) (sch_access_tokens sch) st = (Raise x, st1)
  /\ sync_task_round en sch st = (60%Z, sch, st1).
Proof.
  intros Htok Hl1 Hx.
  assert (sync_tokens en (sch_user_id sch) (sch_access_tokens sch) st
          = (Raise x, st1)) as Hr.
  { rewrite Htok, sync_tokens_app, Hl1. cbn [sync_tokens].
    unfold sync_account_data. by rewrite Hx. }
  split; [exact Hr|]. unfold sync_task_round. by rewrite Hr.
Qed.

Lemma round_stops_at_failing_token_witness :
  sync_task_round Samples.second_token_down_env Samples.three_tokens init
  = (60%Z, Samples.three_tokens,
     (sync_tokens Samples.second_token_down_env "u1" ["token_1"] init).2).
Proof.
  apply (round_stops_at_failing_token Samples.second_token_down_env
           Samples.three_tokens init ["token_1"] "token_2" ["token_3"]
           (sync_tokens Samples.second_token_down_env "u1" ["token_1"] init).2
           ApiException).
  - reflexivity.
  - vm_compute. reflexivity.
  - reflexivity.
Defined.

End RoundFacts.

(** ** The connection record in the cache *)

Module ConnectionRecordFacts.
Import WebSocketManager.

Lemma connection_key_injective u now now' :
  CONNECTION_PREFIX +:+ ":" +:+ create_connection_id now u
  = CONNECTION_PREFIX +:+ ":" +:+ create_connection_id now' u ->
  now = now'.
Proof.
  unfold create_connection_id. intros H.
  by repeat apply (inj (String.app _)) in H.
Qed.

(** X23. The record [connect] writes for a connection is stored under a
    key made from the clock reading of that call, and [disconnect] deletes
    the key made from its own clock reading.  After a [connect] that
    answered True, a [disconnect] of the same connection at another clock
    reading, whatever it answers, leaves the record in the cache; at the
    same reading, with the cache delete reaching the cache, it removes
    it. *)
Theorem disconnect_leaves_connection_record e1 e2 websocket token user_id st :
  io_verify e1 token = Return (Some user_id) ->
  (connect e1 websocket token st).1 = true ->
  (io_now e2 <> io_now e1 ->
   _cache (disconnect e2 websocket user_id (connect e1 websocket token st).2).2
     !! (CONNECTION_PREFIX +:+ ":" +:+ create_connection_id (io_now e1) user_id)
   = Some (SConn user_id []))
  /\ (io_now e2 = io_now e1 ->
      io_cache e2
        (CONNECTION_PREFIX +:+ ":" +:+ create_connection_id (io_now e1) user_id)
      <> CacheRaises ->
      _cache (disconnect e2 websocket user_id (connect e1 websocket token st).2).2
        !! (CONNECTION_PREFIX +:+ ":" +:+ create_connection_id (io_now e1) user_id)
      = None).
Proof.
  intros Hv Hr. rewrite !WebSocketFacts.connect_unfold in *. rewrite Hv in *.
  destruct (truthy_str user_id); cbn [negb] in *; [|done].
  destruct (match _connections st !! user_id with
            | Some conns => bool_decide (MAX_CONNECTIONS_PER_USER ≤ size conns)%nat
            | None => false
            end); [done|].
  destruct (io_accept e1 websocket); cbn [negb] in *; [|done].
  set (key1 := CONNECTION_PREFIX +:+ ":" +:+ create_connection_id (io_now e1) user_id)
    in *.
  destruct (io_cache e1 key1); cbn [fst snd] in *; [|done|done].
  unfold disconnect. cbn [_connections set_cache set_connections].
  rewrite lookup_insert_eq.
  rewrite bool_decide_eq_true_2
    by (apply elem_of_union_r; by apply elem_of_singleton).
  set (key2 := CONNECTION_PREFIX +:+ ":" +:+ create_connection_id (io_now e2) user_id).
  split.
  - intros Hnow.
    assert (key1 <> key2) as Hne
      by (intros H; apply connection_key_injective in H; congruence).
    destruct (io_cache e2 key2); [destruct (io_close e2 websocket)| |];
      cbn [negb snd _cache set_cache set_connections set_subscriptions];
      rewrite ?lookup_delete_ne by done; apply lookup_insert_eq.
  - intros Hnow Hc.
    assert (key2 = key1) as Hk by (unfold key1, key2; by rewrite Hnow).
    rewrite Hk.
    destruct (io_cache e2 key1); [destruct (io_close e2 websocket)|done|];
      cbn [negb snd _cache set_cache set_connections set_subscriptions];
      apply lookup_delete_eq.
Qed.

Lemma disconnect_leaves_connection_record_witness :
  (disconnect Scenario.calm_later 1 "alice"
     (connect Scenario.calm 1 "alice" init).2).1 = true
  /\ _cache (disconnect Scenario.calm_later 1 "alice"
               (connect Scenario.calm 1 "alice" init).2).2
       !! "ws_conn:ws_conn:alice:2023-01-01T00:00:00"
     = Some (SConn "alice" []).
Proof.
  split; [vm_compute; reflexivity|].
  destruct (disconnect_leaves_connection_record Scenario.calm Scenario.calm_later 1
              "alice" "alice" init) as [H _];
    [reflexivity | vm_compute; reflexivity |].
  apply H. vm_compute. discriminate.
Defined.

End ConnectionRecordFacts.

(** ** Ticks that overlap *)

Module TickFacts.
Import SyncService SyncTicks.










End TickFacts.
